(** * AgenteAjedrez: move generation and move execution

    A shallow embedding of [piezas.py] and of the driver's [mover] operation
    of [ajedrez.py], with the properties of the engine stated and proved (or
    refuted) over it.

    Conventions of the embedding.
    - A Python [str] is a Rocq [string]; a character is a code point below
      256.  A one-character string obtained by indexing ([s[i]]) is an
      [ascii].  What is stated of a string is therefore stated of the
      strings of code points below 256; where Python treats other
      characters differently, the statement says so.
    - A Python [int] is a [Z].
    - A call that raises is a [Lanza e]; a call that returns is an [Ok v].
      The registry is threaded explicitly: a method of [GestorPiezas] that
      mutates [self.piezas] returns the new dictionary.  When a call raises,
      the partial mutations made before the raise are not tracked.
    - [print] calls have no effect on the state and are left out.
    - The board is a numpy array of dtype [<U4]: a list of rows of strings,
      indexed like numpy does it (negative indices count from the end,
      anything else out of range raises [IndexError]). *)

From Stdlib Require Import ZArith Lia Ascii String.
From stdpp Require Import base option list strings pretty gmap.

Local Open Scope Z_scope.

(** ** Python values and exceptions *)

Inductive excepcion : Type :=
  | IndexError
  | ValueError
  | KeyError
  | AttributeError.

Inductive resultado (A : Type) : Type :=
  | Ok (a : A)
  | Lanza (e : excepcion).

Arguments Ok {A} a.
Arguments Lanza {A} e.

#[global] Instance resultado_ret : MRet resultado := λ A a, Ok a.
#[global] Instance resultado_bind : MBind resultado := λ A B f m,
  match m with
  | Ok a => f a
  | Lanza e => Lanza e
  end.

Definition retorna {A} (m : resultado A) : Prop := ∃ a, m = Ok a.
Definition falla {A} (m : resultado A) : Prop := ∃ e, m = Lanza e.

(** [for x in xs: acc = cuerpo(acc, x)], where the body may raise. *)
Fixpoint para {A B} (cuerpo : A → B → resultado A) (acc : A) (xs : list B)
  : resultado A :=
  match xs with
  | [] => Ok acc
  | x :: xs' => acc' ← cuerpo acc x; para cuerpo acc' xs'
  end.

(** [range(a, b)] for [a <= b]. *)
Definition rango (a b : Z) : list Z :=
  (λ k : nat, a + Z.of_nat k) <$> seq 0 (Z.to_nat (b - a)).

(** Index normalisation shared by Python lists, strings and numpy arrays. *)
Definition indice_normal (n : nat) (i : Z) : resultado nat :=
  if (0 <=? i) && (i <? Z.of_nat n) then Ok (Z.to_nat i)
  else if (- Z.of_nat n <=? i) && (i <? 0) then Ok (Z.to_nat (Z.of_nat n + i))
  else Lanza IndexError.

(** [l[i]] *)
Definition lista_indice {A} (l : list A) (i : Z) : resultado A :=
  k ← indice_normal (length l) i;
  match l !! k with
  | Some x => Ok x
  | None => Lanza IndexError
  end.

(** [s[i]] for a literal, non-negative [i]. *)
Fixpoint str_indice (s : string) (i : nat) : resultado ascii :=
  match s, i with
  | EmptyString, _ => Lanza IndexError
  | String a _, O => Ok a
  | String _ s', S i' => str_indice s' i'
  end.

(** [c.lower()] on a single character. *)
Definition lower (a : ascii) : ascii :=
  let n := N_of_ascii a in
  if ((65 <=? n) && (n <=? 90))%N then ascii_of_N (n + 32)
  else if ((192 <=? n) && (n <=? 222) && negb (n =? 215))%N
       then ascii_of_N (n + 32)
  else a.

(** [int(c)] on a single character.  Python accepts the decimal digits of
    Unicode and raises [ValueError] on the rest; of the code points below
    256, which are the characters of this embedding, the decimal digits are
    ['0'] to ['9'].  (The decimal digits of other scripts, such as U+0663,
    which [int] takes for 3, are not characters of the embedding.) *)
Definition int_de_caracter (a : ascii) : resultado Z :=
  let n := N_of_ascii a in
  if ((48 <=? n) && (n <=? 57))%N then Ok (Z.of_N (n - 48))
  else Lanza ValueError.

(** [l.index(x)] *)
Fixpoint lista_index (l : list ascii) (x : ascii) : resultado Z :=
  match l with
  | [] => Lanza ValueError
  | y :: l' => if decide (y = x) then Ok 0
               else (k ← lista_index l' x; Ok (k + 1))
  end.

(** [s.startswith(p)] *)
Definition startswith (s p : string) : bool := String.prefix p s.

(** [s.rstrip('\x00')].  numpy pads the strings of an array with NULs:
    a string that is compared with the cells of an array, or used as the
    prefix of [np.char.startswith], counts without its trailing NULs. *)
Fixpoint sin_nulos_finales (s : string) : string :=
  match s with
  | EmptyString => EmptyString
  | String a s' =>
      let resto := sin_nulos_finales s' in
      if decide (a = Ascii.zero ∧ resto = EmptyString) then EmptyString
      else String a resto
  end.

(** ** Moves *)

Inductive TipoMovimiento : Type :=
  | NORMAL
  | ENROQUE
  | EN_PASSANT
  | PROMOCION.

#[global] Instance TipoMovimiento_eq_dec : EqDecision TipoMovimiento.
Proof. solve_decision. Defined.

Record MovimientoAjedrez : Type := mkMovimiento {
  desde : string;
  hasta : string;
  tipo : TipoMovimiento;
  info_adicional : option string
}.

#[global] Instance MovimientoAjedrez_eq_dec : EqDecision MovimientoAjedrez.
Proof. solve_decision. Defined.

Module Movimiento.

(** [f"{x}"] for a value that may be [None]. *)
Definition formato (o : option string) : string :=
  match o with Some s => s | None => "None" end.

(** [MovimientoAjedrez.__str__]; for a castling move the method returns
    [self.info_adicional] as it is, which may be [None]. *)
Definition __str__ (self : MovimientoAjedrez) : option string :=
  match tipo self with
  | NORMAL => Some (desde self +:+ " " +:+ hasta self)
  | PROMOCION =>
      Some (desde self +:+ " " +:+ hasta self +:+ "="
            +:+ formato (info_adicional self))
  | EN_PASSANT => Some (desde self +:+ " " +:+ hasta self +:+ " e.p.")
  | ENROQUE => info_adicional self
  end.

End Movimiento.

(** [c.isspace()] on a single character. *)
Definition es_espacio (a : ascii) : bool :=
  let n := N_of_ascii a in
  ((9 <=? n) && (n <=? 13) || (28 <=? n) && (n <=? 32)
   || (n =? 133) || (n =? 160))%N.

(** [s.split()]: the maximal runs of characters that are not white space.
    [palabra] is the run being read, in reverse. *)
Fixpoint split_desde (palabra : list ascii) (s : string) : list string :=
  let cerrar (resto : list string) :=
    match palabra with
    | [] => resto
    | _ => string_of_list_ascii (rev palabra) :: resto
    end in
  match s with
  | EmptyString => cerrar []
  | String a s' =>
      if es_espacio a then cerrar (split_desde [] s')
      else split_desde (a :: palabra) s'
  end.

Definition split (s : string) : list string := split_desde [] s.

(** ** The coordinate model: class [MovimientosTablero] *)

Module MovimientosTablero.

Definition COLUMNAS : list ascii :=
  ["a"; "b"; "c"; "d"; "e"; "f"; "g"; "h"]%char.

Definition notacion_a_posicion (notacion : string) : resultado (Z * Z) :=
  c0 ← str_indice notacion 0;
  col ← lista_index COLUMNAS (lower c0);
  c1 ← str_indice notacion 1;
  d ← int_de_caracter c1;
  Ok (8 - d, col).

Definition posicion_a_notacion (fila col : Z) : resultado string :=
  letra ← lista_indice COLUMNAS col;
  Ok (String letra (pretty (8 - fila))).

Definition dentro_tablero (fila col : Z) : bool :=
  (0 <=? fila) && (fila <? 8) && (0 <=? col) && (col <? 8).

Definition obtener_direccion_color (color : string) : Z :=
  if decide (color = "B") then -1 else 1.

Definition obtener_fila_inicial (color : string) : Z :=
  if decide (color = "B") then 6 else 1.

End MovimientosTablero.

Import MovimientosTablero.

(** ** The board *)

Abbreviation Tablero := (list (list string)).

Definition VACIO : string := "...".

(** [tablero[f][c]] *)
Definition np_get (tablero : Tablero) (f c : Z) : resultado string :=
  fila ← lista_indice tablero f;
  lista_indice fila c.

(** [tablero[f][c] = v].  Every value the executor stores has at most four
    characters (an id read from the board, ['...'], or a colour letter, a
    kind letter and a number not above 10), so the fixed width of the dtype
    never cuts it. *)
Definition np_set (tablero : Tablero) (f c : Z) (v : string)
  : resultado Tablero :=
  i ← indice_normal (length tablero) f;
  fila ← lista_indice tablero f;
  j ← indice_normal (length fila) c;
  Ok (<[i := <[j := v]> fila]> tablero).

(** ** Pieces: class [Pieza] and its six subclasses

    The subclass of an object is its [clase]; the three slots that only
    [Peon] declares live in the [CPeon] tag, so that [isinstance(p, Peon)]
    is a match on the tag and reading a pawn slot of another piece raises
    [AttributeError].  The back reference [gestor] is not stored: a method
    that reads [self.gestor] takes the registry as an argument. *)

Inductive Clase : Type :=
  | CPeon (direccion fila_inicial : Z) (movimiento_doble_reciente : bool)
  | CTorre
  | CCaballo
  | CAlfil
  | CQueen
  | CRey.

Record Pieza : Type := mkPieza {
  color : string;
  numero : Z;
  id : string;
  movida : bool;
  clase : Clase
}.

#[global] Instance Clase_eq_dec : EqDecision Clase.
Proof. solve_decision. Defined.

#[global] Instance Pieza_eq_dec : EqDecision Pieza.
Proof. solve_decision. Defined.

(** [self.__class__.__name__[0]] *)
Definition inicial_clase (k : Clase) : ascii :=
  match k with
  | CPeon _ _ _ => "P"
  | CTorre => "T"
  | CCaballo => "C"
  | CAlfil => "A"
  | CQueen => "Q"
  | CRey => "R"
  end%char.

Definition es_Peon (p : Pieza) : bool :=
  match clase p with CPeon _ _ _ => true | _ => false end.

Definition con_movida (b : bool) (p : Pieza) : Pieza :=
  mkPieza (color p) (numero p) (id p) b (clase p).

Definition con_movimiento_doble_reciente (b : bool) (p : Pieza) : Pieza :=
  match clase p with
  | CPeon d fi _ => mkPieza (color p) (numero p) (id p) (movida p) (CPeon d fi b)
  | _ => p
  end.

(** [f"{a} {b}"] *)
Definition jugada (a b : string) : string := a +:+ " " +:+ b.

(** ** Class attributes

    [DIRECCIONES] is a class attribute of [Torre], [Alfil], [Queen] and
    [Rey], and [MOVIMIENTOS] one of [Caballo].  The generators read them as
    [self.DIRECCIONES] and [self.MOVIMIENTOS]: the table is the one of the
    class of the object, whichever class the function that is called
    belongs to, and an object of a class without the attribute raises
    [AttributeError]. *)

Module Atributos.

Definition Torre_DIRECCIONES : list (Z * Z) :=
  [(0, 1); (1, 0); (0, -1); (-1, 0)].

Definition Caballo_MOVIMIENTOS : list (Z * Z) :=
  [(-2, -1); (-2, 1); (2, -1); (2, 1); (-1, -2); (-1, 2); (1, -2); (1, 2)].

Definition Alfil_DIRECCIONES : list (Z * Z) :=
  [(1, 1); (1, -1); (-1, 1); (-1, -1)].

Definition Queen_DIRECCIONES : list (Z * Z) :=
  [(0, 1); (0, -1); (1, 0); (-1, 0); (1, 1); (1, -1); (-1, 1); (-1, -1)].

Definition Rey_DIRECCIONES : list (Z * Z) :=
  [(0, 1); (1, 0); (0, -1); (-1, 0); (1, 1); (1, -1); (-1, 1); (-1, -1)].

(** [self.DIRECCIONES] *)
Definition DIRECCIONES (self : Pieza) : resultado (list (Z * Z)) :=
  match clase self with
  | CTorre => Ok Torre_DIRECCIONES
  | CAlfil => Ok Alfil_DIRECCIONES
  | CQueen => Ok Queen_DIRECCIONES
  | CRey => Ok Rey_DIRECCIONES
  | CPeon _ _ _ | CCaballo => Lanza AttributeError
  end.

(** [self.MOVIMIENTOS] *)
Definition MOVIMIENTOS (self : Pieza) : resultado (list (Z * Z)) :=
  match clase self with
  | CCaballo => Ok Caballo_MOVIMIENTOS
  | _ => Lanza AttributeError
  end.

End Atributos.

Module Pieza_.

(** [Pieza.__init__], run by the constructor of the subclass [k]. *)
Definition __init__ (k : Clase) (color : string) (numero : Z) : Pieza :=
  mkPieza color numero (color +:+ String (inicial_clase k) (pretty numero))
          false k.

(** One ray of the three sliding generators: the body of
    [for _ in range(1, 8)], with [break] ending the recursion. *)
Fixpoint rayo (self : Pieza) (pos_actual_not : string) (tablero : Tablero)
    (df dc : Z) (vueltas : list Z) (nueva_f nueva_c : Z)
    (movimientos : list string) : resultado (list string) :=
  match vueltas with
  | [] => Ok movimientos
  | _ :: vueltas' =>
      let nueva_f := nueva_f + df in
      let nueva_c := nueva_c + dc in
      if negb (dentro_tablero nueva_f nueva_c) then Ok movimientos
      else
        pieza_destino ← np_get tablero nueva_f nueva_c;
        if decide (pieza_destino = "...") then
          n ← posicion_a_notacion nueva_f nueva_c;
          rayo self pos_actual_not tablero df dc vueltas' nueva_f nueva_c
               (movimientos ++ [jugada pos_actual_not n])
        else
          c0 ← str_indice pieza_destino 0;
          if decide (String c0 "" ≠ color self) then
            n ← posicion_a_notacion nueva_f nueva_c;
            Ok (movimientos ++ [jugada pos_actual_not n])
          else Ok movimientos
  end.

(** The body of [Torre.obtener_hijos], [Alfil.obtener_hijos] and
    [Queen.obtener_hijos], which are the same function word for word: the
    rays are those of [self.DIRECCIONES], the table of the class of the
    object. *)
Definition hijos_deslizantes (self : Pieza) (pos_actual : Z * Z)
    (tablero : Tablero) : resultado (list string) :=
  let '(f, c) := pos_actual in
  pos_actual_not ← posicion_a_notacion f c;
  DIRECCIONES ← Atributos.DIRECCIONES self;
  para (λ movimientos '(df, dc),
          rayo self pos_actual_not tablero df dc (rango 1 8) f c movimientos)
       [] DIRECCIONES.

(** The [while (f, c) != (f_hasta, c_hasta)] loop of
    [_verificar_camino_libre].  [None] means that the fuel ran out. *)
Fixpoint bucle_camino (combustible : nat) (tablero : Tablero)
    (df dc f c f_hasta c_hasta : Z) : option (resultado bool) :=
  match combustible with
  | O => None
  | S combustible' =>
      if (f =? f_hasta) && (c =? c_hasta) then Some (Ok true)
      else
        match np_get tablero f c with
        | Lanza e => Some (Lanza e)
        | Ok p =>
            if decide (p ≠ "...") then Some (Ok false)
            else bucle_camino combustible' tablero df dc (f + df) (c + dc)
                              f_hasta c_hasta
        end
  end.

(** Every turn of the loop that goes on has read the board, and the square
    read moves one step in a fixed direction, down the rows or along one
    row: twice the number of rows plus twice the width of the row left from
    bound the turns (see [bucle_camino_termina]). *)
Definition combustible_camino (tablero : Tablero) (f_desde : Z) : nat :=
  2 * length tablero
  + match lista_indice tablero f_desde with
    | Ok r => 2 * length r
    | Lanza _ => 0
    end
  + 2.

(** [(b - a) // abs(b - a)], or 0 when [a == b]. *)
Definition direccion_hacia (a b : Z) : Z :=
  if a =? b then 0 else (b - a) `div` Z.abs (b - a).

Definition _verificar_camino_libre (self : Pieza) (desde hasta : Z * Z)
    (tablero : Tablero) (incluir_destino : bool) : resultado bool :=
  let '(f_desde, c_desde) := desde in
  let '(f_hasta, c_hasta) := hasta in
  (* Calculamos la dirección del movimiento *)
  let df := direccion_hacia f_desde f_hasta in
  let dc := direccion_hacia c_desde c_hasta in
  (* Verificamos cada casilla en el camino *)
  libre ← match bucle_camino (combustible_camino tablero f_desde) tablero
                             df dc (f_desde + df) (c_desde + dc)
                             f_hasta c_hasta with
          | Some r => r
          | None => Lanza IndexError
          end;
  if negb libre then Ok false
  else if incluir_destino then
    (* Verificamos el destino si es necesario *)
    pieza_destino ← np_get tablero f_hasta c_hasta;
    if decide (pieza_destino = "...") then Ok true
    else
      c0 ← str_indice pieza_destino 0;
      Ok (bool_decide (String c0 "" ≠ color self))
  else Ok true.

(** [pieza_destino == '...' or pieza_destino[0] != self.color] *)
Definition destino_permitido (self : Pieza) (pieza_destino : string)
  : resultado bool :=
  if decide (pieza_destino = "...") then Ok true
  else
    c0 ← str_indice pieza_destino 0;
    Ok (bool_decide (String c0 "" ≠ color self)).

(** The body that [Caballo.obtener_hijos] and [Rey.obtener_hijos] share:
    one step per offset, no ray.  They differ in the attribute of [self]
    that they read, [self.MOVIMIENTOS] or [self.DIRECCIONES]. *)
Definition hijos_por_saltos
    (atributo : Pieza → resultado (list (Z * Z))) (self : Pieza)
    (pos_actual : Z * Z) (tablero : Tablero) : resultado (list string) :=
  let '(f, c) := pos_actual in
  pos_actual_not ← posicion_a_notacion f c;
  SALTOS ← atributo self;
  para (λ (movimientos : list string) '(df, dc),
          let nueva_f := f + df in
          let nueva_c := c + dc in
          if dentro_tablero nueva_f nueva_c then
            pieza_destino ← np_get tablero nueva_f nueva_c;
            permitido ← destino_permitido self pieza_destino;
            if (permitido : bool) then
              n ← posicion_a_notacion nueva_f nueva_c;
              Ok (movimientos ++ [jugada pos_actual_not n])
            else Ok movimientos
          else Ok movimientos)
       [] SALTOS.

End Pieza_.

Module Peon.

Definition __init__ (color : string) (numero : Z) : Pieza :=
  Pieza_.__init__
    (CPeon (obtener_direccion_color color) (obtener_fila_inicial color) false)
    color numero.

Definition obtener_hijos (self : Pieza) (pos_actual : Z * Z)
    (tablero : Tablero) : resultado (list string) :=
  let '(f, c) := pos_actual in
  pos_actual_not ← posicion_a_notacion f c;
  match clase self with
  | CPeon direccion fila_inicial _ =>
      (* Movimiento hacia adelante *)
      let nueva_f := f + direccion in
      movimientos ←
        (if dentro_tablero nueva_f c then
           p ← np_get tablero nueva_f c;
           if decide (p = "...") then
             n1 ← posicion_a_notacion nueva_f c;
             let movimientos := [jugada pos_actual_not n1] in
             (* Movimiento inicial doble *)
             if negb (movida self) && (f =? fila_inicial) then
               let nueva_f := f + 2 * direccion in
               if dentro_tablero nueva_f c then
                 p2 ← np_get tablero nueva_f c;
                 if decide (p2 = "...") then
                   n2 ← posicion_a_notacion nueva_f c;
                   Ok (movimientos ++ [jugada pos_actual_not n2])
                 else Ok movimientos
               else Ok movimientos
             else Ok movimientos
           else Ok []
         else Ok []);
      (* Capturas diagonales *)
      para (λ movimientos dc,
              let nueva_f := f + direccion in
              let nuevo_c := c + dc in
              if dentro_tablero nueva_f nuevo_c then
                pieza ← np_get tablero nueva_f nuevo_c;
                if decide (pieza = "...") then Ok movimientos
                else
                  c0 ← str_indice pieza 0;
                  if decide (String c0 "" ≠ color self) then
                    n ← posicion_a_notacion nueva_f nuevo_c;
                    Ok (movimientos ++ [jugada pos_actual_not n])
                  else Ok movimientos
              else Ok movimientos)
           movimientos [-1; 1]
  | _ => Lanza AttributeError
  end.

(** The four promotion candidates to one destination:
    [for pieza in ['Q', 'T', 'A', 'C']]. *)
Definition promociones (pos_actual_not destino : string)
  : list MovimientoAjedrez :=
  (λ pieza, mkMovimiento pos_actual_not destino PROMOCION (Some pieza))
    <$> ["Q"; "T"; "A"; "C"].

(** [piezas] is [self.gestor.piezas]. *)
Definition obtener_movimientos_especiales (self : Pieza)
    (piezas : gmap string Pieza) (pos_actual : Z * Z) (tablero : Tablero)
  : resultado (list MovimientoAjedrez) :=
  let '(f, c) := pos_actual in
  pos_actual_not ← posicion_a_notacion f c;
  match clase self with
  | CPeon direccion _ _ =>
      (* Verificar promoción *)
      let nueva_f := f + direccion in
      movimientos ←
        (if dentro_tablero nueva_f c then
           if decide ((color self = "B" ∧ nueva_f = 0)
                      ∨ (color self = "N" ∧ nueva_f = 7)) then
             (* Promoción en movimiento normal *)
             p ← np_get tablero nueva_f c;
             movimientos ←
               (if decide (p = "...") then
                  n ← posicion_a_notacion nueva_f c;
                  Ok (promociones pos_actual_not n)
                else Ok []);
             (* Promoción en capturas diagonales *)
             para (λ (movimientos : list MovimientoAjedrez) (dc : Z),
                     let nuevo_c := c + dc in
                     if dentro_tablero nueva_f nuevo_c then
                       pieza_destino ← np_get tablero nueva_f nuevo_c;
                       if decide (pieza_destino = "...") then Ok movimientos
                       else
                         c0 ← str_indice pieza_destino 0;
                         if decide (String c0 "" ≠ color self) then
                           n ← posicion_a_notacion nueva_f nuevo_c;
                           Ok (movimientos ++ promociones pos_actual_not n)
                         else Ok movimientos
                     else Ok movimientos)
                  movimientos [-1; 1]
           else Ok []
         else Ok []);
      (* Verificar en passant *)
      if decide ((color self = "B" ∧ f = 3) ∨ (color self = "N" ∧ f = 4)) then
        (* Verificar peones enemigos adyacentes *)
        para (λ (movimientos : list MovimientoAjedrez) (dc : Z),
                if dentro_tablero f (c + dc) then
                  pieza_id ← np_get tablero f (c + dc);
                  if startswith pieza_id
                       (if decide (color self = "N") then "BP" else "NP")
                  then
                    match piezas !! pieza_id with
                    | Some peon_enemigo =>
                        match clase peon_enemigo with
                        | CPeon _ _ movimiento_doble_reciente =>
                            if movimiento_doble_reciente then
                              let nueva_f := f + direccion in
                              n ← posicion_a_notacion nueva_f (c + dc);
                              Ok (movimientos ++
                                  [mkMovimiento pos_actual_not n
                                                EN_PASSANT None])
                            else Ok movimientos
                        | _ => Lanza AttributeError
                        end
                    | None => Ok movimientos
                    end
                  else Ok movimientos
                else Ok movimientos)
             movimientos [-1; 1]
      else Ok movimientos
  | _ => Lanza AttributeError
  end.

Definition puede_mover (self : Pieza) (desde hasta : string)
    (tablero : Tablero) : resultado bool :=
  '(f_desde, c_desde) ← notacion_a_posicion desde;
  '(f_hasta, c_hasta) ← notacion_a_posicion hasta;
  if negb (dentro_tablero f_hasta c_hasta) then Ok false
  else
    let df := f_hasta - f_desde in
    if bool_decide (color self = "B") && (df >=? 0)
       || bool_decide (color self = "N") && (df <=? 0)
    then Ok false
    else if c_desde =? c_hasta then
      (* Movimiento vertical *)
      p ← np_get tablero f_hasta c_hasta;
      if decide (p ≠ "...") then Ok false
      else if Z.abs df =? 1 then Ok true (* Un paso *)
      else
        (* Dos pasos iniciales *)
        match clase self with
        | CPeon _ fila_inicial _ =>
            if (f_desde =? fila_inicial) && (Z.abs df =? 2) then
              let f_intermedia := (f_desde + f_hasta) `div` 2 in
              q ← np_get tablero f_intermedia c_desde;
              Ok (bool_decide (q = "..."))
            else Ok false
        | _ => Lanza AttributeError
        end
    else if (Z.abs (c_hasta - c_desde) =? 1) && (Z.abs df =? 1) then
      (* Captura diagonal *)
      pieza_destino ← np_get tablero f_hasta c_hasta;
      if decide (pieza_destino = "...") then Ok false
      else
        c0 ← str_indice pieza_destino 0;
        Ok (bool_decide (String c0 "" ≠ color self))
    else Ok false.

End Peon.

Module Torre.
Definition DIRECCIONES : list (Z * Z) := Atributos.Torre_DIRECCIONES.
Definition __init__ := Pieza_.__init__ CTorre.
Definition obtener_hijos := Pieza_.hijos_deslizantes.
Definition puede_mover (self : Pieza) (desde hasta : string)
    (tablero : Tablero) : resultado bool :=
  '(f_desde, c_desde) ← notacion_a_posicion desde;
  '(f_hasta, c_hasta) ← notacion_a_posicion hasta;
  if negb (dentro_tablero f_hasta c_hasta) then Ok false
  else if negb (f_desde =? f_hasta) && negb (c_desde =? c_hasta) then Ok false
  else Pieza_._verificar_camino_libre self (f_desde, c_desde)
                                      (f_hasta, c_hasta) tablero true.
End Torre.

Module Caballo.
Definition __init__ := Pieza_.__init__ CCaballo.
Definition MOVIMIENTOS : list (Z * Z) := Atributos.Caballo_MOVIMIENTOS.

Definition puede_mover (self : Pieza) (desde hasta : string)
    (tablero : Tablero) : resultado bool :=
  '(f_desde, c_desde) ← notacion_a_posicion desde;
  '(f_hasta, c_hasta) ← notacion_a_posicion hasta;
  if negb (dentro_tablero f_hasta c_hasta) then Ok false
  else
    let df := Z.abs (f_hasta - f_desde) in
    let dc := Z.abs (c_hasta - c_desde) in
    if negb ((df =? 2) && (dc =? 1) || (df =? 1) && (dc =? 2)) then Ok false
    else
      pieza_destino ← np_get tablero f_hasta c_hasta;
      Pieza_.destino_permitido self pieza_destino.

Definition obtener_hijos := Pieza_.hijos_por_saltos Atributos.MOVIMIENTOS.
End Caballo.

Module Alfil.
Definition DIRECCIONES : list (Z * Z) := Atributos.Alfil_DIRECCIONES.
Definition __init__ := Pieza_.__init__ CAlfil.
Definition obtener_hijos := Pieza_.hijos_deslizantes.
Definition puede_mover (self : Pieza) (desde hasta : string)
    (tablero : Tablero) : resultado bool :=
  '(f_desde, c_desde) ← notacion_a_posicion desde;
  '(f_hasta, c_hasta) ← notacion_a_posicion hasta;
  if negb (dentro_tablero f_hasta c_hasta) then Ok false
  else if negb (Z.abs (f_hasta - f_desde) =? Z.abs (c_hasta - c_desde))
  then Ok false
  else Pieza_._verificar_camino_libre self (f_desde, c_desde)
                                      (f_hasta, c_hasta) tablero true.
End Alfil.

Module Queen.
Definition DIRECCIONES : list (Z * Z) := Atributos.Queen_DIRECCIONES.
Definition __init__ := Pieza_.__init__ CQueen.
Definition obtener_hijos := Pieza_.hijos_deslizantes.
Definition puede_mover (self : Pieza) (desde hasta : string)
    (tablero : Tablero) : resultado bool :=
  '(f_desde, c_desde) ← notacion_a_posicion desde;
  '(f_hasta, c_hasta) ← notacion_a_posicion hasta;
  if negb (dentro_tablero f_hasta c_hasta) then Ok false
  else
    let df := Z.abs (f_hasta - f_desde) in
    let dc := Z.abs (c_hasta - c_desde) in
    (* Movimiento en línea recta o diagonal *)
    if negb ((df =? 0) || (dc =? 0) || (df =? dc)) then Ok false
    else Pieza_._verificar_camino_libre self (f_desde, c_desde)
                                        (f_hasta, c_hasta) tablero true.
End Queen.

Module Rey.

Definition DIRECCIONES : list (Z * Z) := Atributos.Rey_DIRECCIONES.

Definition __init__ := Pieza_.__init__ CRey.

(** The [while col_actual != col_final] loop of [_verificar_enroque].
    [None] means that the fuel ran out. *)
Fixpoint bucle_enroque (combustible : nat) (tablero : Tablero)
    (fila direccion col_actual col_final : Z) : option (resultado bool) :=
  match combustible with
  | O => None
  | S combustible' =>
      if col_actual =? col_final then Some (Ok true)
      else
        match np_get tablero fila col_actual with
        | Lanza e => Some (Lanza e)
        | Ok p =>
            if decide (p ≠ "...") then Some (Ok false)
            else bucle_enroque combustible' tablero fila direccion
                               (col_actual + direccion) col_final
        end
  end.

(** The loop moves one column per turn in a fixed direction and reads the
    board at every turn, so it ends, at the latest by an [IndexError],
    within twice the width of the row plus two turns
    (see [bucle_enroque_termina]). *)
Definition combustible_enroque (tablero : Tablero) (fila : Z) : nat :=
  match lista_indice tablero fila with
  | Ok r => 2 * length r + 2
  | Lanza _ => 2
  end.

Definition _verificar_enroque (tablero : Tablero)
    (fila col_inicial col_torre : Z) : resultado bool :=
  let direccion := if col_torre >? col_inicial then 1 else -1 in
  let col_actual := col_inicial + direccion in
  let col_final := col_torre in
  match bucle_enroque (combustible_enroque tablero fila) tablero fila
                      direccion col_actual col_final with
  | Some r => r
  | None => Lanza IndexError
  end.

(** [self._verificar_enroque(...)]: the method is [Rey]'s own, and an
    object of another class has none. *)
Definition self_verificar_enroque (self : Pieza) (tablero : Tablero)
    (fila col_inicial col_torre : Z) : resultado bool :=
  match clase self with
  | CRey => _verificar_enroque tablero fila col_inicial col_torre
  | _ => Lanza AttributeError
  end.

(** One side of the castling test of [obtener_movimientos_especiales]. *)
Definition lado_enroque (self : Pieza) (piezas : gmap string Pieza)
    (tablero : Tablero)
    (fila_rey : Z) (torre_id : string) (col_torre col_rey_final : Z)
    (nombre : string) (movimientos : list MovimientoAjedrez)
    : resultado (list MovimientoAjedrez) :=
  torre_en_esquina ← np_get tablero fila_rey col_torre;
  if decide (torre_en_esquina = torre_id) then
    match piezas !! torre_id with
    | Some torre =>
        if negb (movida torre) then
          libre ← self_verificar_enroque self tablero fila_rey 4 col_torre;
          if (libre : bool) then
            d ← posicion_a_notacion fila_rey 4;
            h ← posicion_a_notacion fila_rey col_rey_final;
            Ok (movimientos ++ [mkMovimiento d h ENROQUE (Some nombre)])
          else Ok movimientos
        else Ok movimientos
    | None => Ok movimientos
    end
  else Ok movimientos.

(** [piezas] is [self.gestor.piezas]. *)
Definition obtener_movimientos_especiales (self : Pieza)
    (piezas : gmap string Pieza) (pos_actual : Z * Z) (tablero : Tablero)
    : resultado (list MovimientoAjedrez) :=
  if movida self then Ok []
  else
    let '(fila_rey, torre_corto_id, torre_largo_id) :=
      if decide (color self = "B") then (7, "BT2", "BT1")
      else (0, "NT2", "NT1") in
    (* Verificar enroque corto *)
    movimientos ← lado_enroque self piezas tablero fila_rey torre_corto_id
                               7 6 "O-O" [];
    (* Verificar enroque largo *)
    lado_enroque self piezas tablero fila_rey torre_largo_id 0 2
                 "O-O-O" movimientos.

Definition puede_mover (self : Pieza) (desde hasta : string)
    (tablero : Tablero) : resultado bool :=
  '(f_desde, c_desde) ← notacion_a_posicion desde;
  '(f_hasta, c_hasta) ← notacion_a_posicion hasta;
  if negb (dentro_tablero f_hasta c_hasta) then Ok false
  else
    let df := Z.abs (f_hasta - f_desde) in
    let dc := Z.abs (c_hasta - c_desde) in
    if (df >? 1) || (dc >? 1) then Ok false
    else
      pieza_destino ← np_get tablero f_hasta c_hasta;
      Pieza_.destino_permitido self pieza_destino.

Definition obtener_hijos := Pieza_.hijos_por_saltos Atributos.DIRECCIONES.

End Rey.

(** ** Method resolution

    A call [pieza.m(...)] runs the method of the subclass of the object;
    [obtener_movimientos_especiales] is overridden by [Peon] and [Rey] only,
    the other subclasses inherit the one of [Pieza], which returns [[]]. *)

Module Despacho.

Definition obtener_hijos (self : Pieza) (pos_actual : Z * Z)
    (tablero : Tablero) : resultado (list string) :=
  match clase self with
  | CPeon _ _ _ => Peon.obtener_hijos self pos_actual tablero
  | CTorre => Torre.obtener_hijos self pos_actual tablero
  | CCaballo => Caballo.obtener_hijos self pos_actual tablero
  | CAlfil => Alfil.obtener_hijos self pos_actual tablero
  | CQueen => Queen.obtener_hijos self pos_actual tablero
  | CRey => Rey.obtener_hijos self pos_actual tablero
  end.

Definition obtener_movimientos_especiales (self : Pieza)
    (piezas : gmap string Pieza) (pos_actual : Z * Z) (tablero : Tablero)
  : resultado (list MovimientoAjedrez) :=
  match clase self with
  | CPeon _ _ _ =>
      Peon.obtener_movimientos_especiales self piezas pos_actual tablero
  | CRey => Rey.obtener_movimientos_especiales self piezas pos_actual tablero
  | _ => Ok []
  end.

(** [desde, hasta = mov.split()] *)
Definition desempaquetar (mov : string) : resultado (string * string) :=
  match split mov with
  | [desde; hasta] => Ok (desde, hasta)
  | _ => Lanza ValueError
  end.

(** [Pieza.obtener_movimientos]; [piezas] is [self.gestor.piezas]. *)
Definition obtener_movimientos (self : Pieza) (piezas : gmap string Pieza)
    (pos_actual : Z * Z) (tablero : Tablero)
  : resultado (list MovimientoAjedrez) :=
  (* Movimientos normales *)
  pos_actual_not ← posicion_a_notacion pos_actual.1 pos_actual.2;
  movs_normales ← obtener_hijos self pos_actual tablero;
  movimientos ←
    para (λ (movimientos : list MovimientoAjedrez) (mov : string),
            '(desde, hasta) ← desempaquetar mov;
            Ok (movimientos ++ [mkMovimiento desde hasta NORMAL None]))
         [] movs_normales;
  (* Movimientos especiales *)
  movs_especiales ←
    obtener_movimientos_especiales self piezas pos_actual tablero;
  Ok (movimientos ++ movs_especiales).

End Despacho.

(** ** The registry: class [GestorPiezas] *)

Module GestorPiezas.

Definition PIEZAS_FACTORY (tipo : string) : option (string → Z → Pieza) :=
  if decide (tipo = "P") then Some Peon.__init__
  else if decide (tipo = "T") then Some Torre.__init__
  else if decide (tipo = "C") then Some Caballo.__init__
  else if decide (tipo = "A") then Some Alfil.__init__
  else if decide (tipo = "Q") then Some Queen.__init__
  else if decide (tipo = "R") then Some Rey.__init__
  else None.

Definition get_pieza (piezas : gmap string Pieza) (id_pieza : string)
  : option Pieza := piezas !! id_pieza.

Definition registrar_pieza (piezas : gmap string Pieza) (id_pieza : string)
  : resultado (gmap string Pieza) :=
  if decide (is_Some (piezas !! id_pieza)) then Ok piezas
  else
    color ← str_indice id_pieza 0;
    tipo ← str_indice id_pieza 1;
    c2 ← str_indice id_pieza 2;
    numero ← int_de_caracter c2;
    match PIEZAS_FACTORY (String tipo "") with
    | Some clase => Ok (<[id_pieza := clase (String color "") numero]> piezas)
    | None => Ok piezas
    end.

Definition CONFIGURACION_PIEZAS : list (string * Z) :=
  [("P", 8); ("T", 2); ("C", 2); ("A", 2); ("Q", 1); ("R", 1)].

Definition _inicializar_piezas (piezas : gmap string Pieza)
  : resultado (gmap string Pieza) :=
  para (λ (piezas : gmap string Pieza) (color : string),
    para (λ (piezas : gmap string Pieza) '(tipo, cantidad),
      para (λ (piezas : gmap string Pieza) (num : Z),
              registrar_pieza piezas (color +:+ tipo +:+ pretty num))
           piezas (rango 1 (cantidad + 1)))
      piezas CONFIGURACION_PIEZAS)
    piezas ["B"; "N"].

Definition __init__ : resultado (gmap string Pieza) :=
  _inicializar_piezas ∅.

(** The ids found by the double loop over the 64 cells. *)
Definition piezas_en_tablero (tablero : Tablero) : resultado (gset string) :=
  para (λ (acc : gset string) (i : Z),
    para (λ (acc : gset string) (j : Z),
            pieza_id ← np_get tablero i j;
            if decide (pieza_id ≠ "...") then Ok ({[pieza_id]} ∪ acc)
            else Ok acc)
         acc (rango 0 8))
    (∅ : gset string) (rango 0 8).

Definition sincronizar_con_tablero (piezas : gmap string Pieza)
    (tablero : Tablero) : resultado (gmap string Pieza) :=
  en_tablero ← piezas_en_tablero tablero;
  let piezas_a_eliminar := dom piezas ∖ en_tablero in
  Ok (foldl (λ piezas pieza_id, delete pieza_id piezas) piezas
            (elements piezas_a_eliminar)).

(** [f"{tipo}"] for [movimiento.info_adicional], which may be [None]. *)
Definition formato (o : option string) : string :=
  match o with Some s => s | None => "None" end.

(** The search for the next free number of the promotion branch. *)
Definition maximo_numero (piezas : gmap string Pieza) (prefijo : string)
  : resultado Z :=
  para (λ (max_num : Z) (pid : string),
          if startswith pid prefijo then
            c2 ← str_indice pid 2;
            match int_de_caracter c2 with
            | Ok num => Ok (Z.max max_num num)
            | Lanza _ => Ok max_num
            end
          else Ok max_num)
       0 (map_to_list piezas).*1.

Definition ejecutar_movimiento (piezas : gmap string Pieza)
    (movimiento : MovimientoAjedrez) (tablero : Tablero)
    : resultado (Tablero * gmap string Pieza) :=
  let nuevo_tablero := tablero in
  '(f_desde, c_desde) ← notacion_a_posicion (desde movimiento);
  '(f_hasta, c_hasta) ← notacion_a_posicion (hasta movimiento);
  pieza_id ← np_get tablero f_desde c_desde;
  let pieza := get_pieza piezas pieza_id in
  (* Verificar captura en destino *)
  pieza_destino_id ← np_get tablero f_hasta c_hasta;
  let piezas :=
    if decide (pieza_destino_id ≠ "..." ∧ tipo movimiento ≠ ENROQUE)
    then delete pieza_destino_id piezas (* [del], guarded by [in] *)
    else piezas in
  (* Procesar el movimiento según su tipo *)
  '(nuevo_tablero, piezas) ←
    match tipo movimiento with
    | PROMOCION =>
        c0 ← str_indice pieza_id 0;
        let color := String c0 "" in
        let tipo := info_adicional movimiento in
        max_num ← maximo_numero piezas (color +:+ formato tipo);
        let nuevo_num := max_num + 1 in
        let nuevo_id := color +:+ formato tipo +:+ pretty nuevo_num in
        let piezas := delete pieza_id piezas in
        match tipo ≫= PIEZAS_FACTORY with
        | None => Lanza KeyError
        | Some clase =>
            let nueva_pieza := clase color nuevo_num in
            let piezas := <[nuevo_id := nueva_pieza]> piezas in
            t1 ← np_set nuevo_tablero f_desde c_desde "...";
            t2 ← np_set t1 f_hasta c_hasta nuevo_id;
            Ok (t2, piezas)
        end
    | ENROQUE => Ok (nuevo_tablero, piezas)
    | _ =>
        (* Movimiento normal *)
        t1 ← np_set nuevo_tablero f_hasta c_hasta pieza_id;
        t2 ← np_set t1 f_desde c_desde "...";
        match pieza with
        | None => Lanza AttributeError
        | Some p =>
            let p :=
              if es_Peon p
              then con_movimiento_doble_reciente
                     (Z.abs (f_hasta - f_desde) =? 2) p
              else p in
            let p := con_movida true p in
            (* the object is still the registry's entry unless the
               capture above has just deleted it *)
            Ok (t2, if decide (is_Some (piezas !! pieza_id))
                    then <[pieza_id := p]> piezas else piezas)
        end
    end;
  (* Sincronizar con el nuevo estado del tablero *)
  piezas ← sincronizar_con_tablero piezas nuevo_tablero;
  Ok (nuevo_tablero, piezas).

(** The first column of a row whose cell compares equal to [x]; the
    comparison [tablero == x] of numpy leaves the trailing NULs of both
    sides out. *)
Fixpoint buscar_en_fila (x : string) (fila : list string) (j : Z)
  : option Z :=
  match fila with
  | [] => None
  | y :: fila' =>
      if decide (sin_nulos_finales y = sin_nulos_finales x) then Some j
      else buscar_en_fila x fila' (j + 1)
  end.

(** [np.where(tablero == x)], of which the callers use the first position
    only, in row-major order. *)
Fixpoint np_where (x : string) (tablero : Tablero) (i : Z)
  : option (Z * Z) :=
  match tablero with
  | [] => None
  | fila :: tablero' =>
      match buscar_en_fila x fila 0 with
      | Some j => Some (i, j)
      | None => np_where x tablero' (i + 1)
      end
  end.

(** [obtener_movimientos_pieza] may register the piece on the way: it
    returns the moves and the registry. *)
Definition obtener_movimientos_pieza (piezas : gmap string Pieza)
    (id_pieza : string) (tablero : Tablero)
  : resultado (list MovimientoAjedrez * gmap string Pieza) :=
  piezas ← match piezas !! id_pieza with
           | Some _ => Ok piezas
           | None => registrar_pieza piezas id_pieza
           end;
  match piezas !! id_pieza with
  | None => Ok ([], piezas)
  | Some pieza =>
      match np_where id_pieza tablero 0 with
      | None => Ok ([], piezas)
      | Some (fila, col) =>
          movimientos ←
            Despacho.obtener_movimientos pieza piezas (fila, col) tablero;
          Ok (movimientos, piezas)
      end
  end.

End GestorPiezas.

(** ** The driver: class [AgenteAjedrez] *)

Inductive retorno : Type :=
  | RTrue
  | RFalse
  | RNone.

Module AgenteAjedrez.

(** The fields [padre], [hijos] and [max_profundidad] are placeholders of
    a search layer and are never read; [padre] and [hijos] are left out. *)
Record t : Type := mk {
  color : Z;
  max_profundidad : Z;
  visitados : gset Tablero;
  gestor_piezas : gmap string Pieza;
  estado : Tablero
}.

Definition piezas_traseras (c : string) : list string :=
  (λ '(pieza, num), (c +:+ pieza) +:+ pretty (num : Z)) <$>
    [("T", 1); ("C", 1); ("A", 1); ("Q", 1); ("R", 1);
     ("A", 2); ("C", 2); ("T", 2)].

Definition peones (c : string) : list string :=
  (λ i, (c +:+ "P") +:+ pretty (i + 1)) <$> rango 0 8.

Definition tablero_vacio : Tablero := replicate 8 (replicate 8 VACIO).

Definition tablero_inicial : Tablero :=
  <[0%nat := piezas_traseras "N"]>
    (<[1%nat := peones "N"]>
       (<[6%nat := peones "B"]>
          (<[7%nat := piezas_traseras "B"]> tablero_vacio))).

Definition __init__ (color : string) (estado : option Tablero)
    (max_profundidad : Z) : resultado t :=
  gestor ← GestorPiezas.__init__;
  let estado := match estado with
                | None => tablero_inicial
                | Some e => e
                end in
  Ok (mk (if decide (color = "blancas") then 1 else -1) max_profundidad
         {[estado]} gestor estado).

Definition verificar_consistencia (self : t) : resultado bool :=
  piezas_tablero ← GestorPiezas.piezas_en_tablero (estado self);
  let piezas_gestor := dom (gestor_piezas self) in
  Ok (bool_decide (piezas_tablero = piezas_gestor)).

(** What [mover] has decided before it reaches the executor. *)
Definition preparar (self : t) (cadena promocion_pieza : string)
  : resultado (retorno + MovimientoAjedrez) :=
  if decide (cadena = "O-O" ∨ cadena = "O-O-O") then
    let fila := if decide (color self = 1) then 7 else 0 in
    let desde := "e" +:+ pretty (8 - fila) in
    d1 ← str_indice desde 1;
    let hasta := if decide (cadena = "O-O") then String "g" (String d1 "")
                 else String "c" (String d1 "") in
    Ok (inr (mkMovimiento desde hasta ENROQUE (Some cadena)))
  else
    c0 ← str_indice cadena 0;
    c1 ← str_indice cadena 1;
    let desde := String c0 (String c1 "") in
    c3 ← str_indice cadena 3;
    c4 ← str_indice cadena 4;
    let hasta := String c3 (String c4 "") in
    '(f_desde, c_desde) ← notacion_a_posicion desde;
    id_pieza ← np_get (estado self) f_desde c_desde;
    if decide (id_pieza = VACIO) then Ok (inl RFalse)
    else
      (* Verificar color *)
      let es_pieza_blanca := startswith id_pieza "B" in
      if (color self =? 1) && negb es_pieza_blanca
         || (color self =? -1) && es_pieza_blanca
      then Ok (inl RFalse)
      else
        (* Determinar tipo de movimiento *)
        i1 ← str_indice id_pieza 1;
        if bool_decide (i1 = "P"%char)
           && (bool_decide (c4 = "8"%char) || bool_decide (c4 = "1"%char))
        then Ok (inr (mkMovimiento desde hasta PROMOCION
                                   (Some promocion_pieza)))
        else Ok (inr (mkMovimiento desde hasta NORMAL None)).

(** [mover] returns [True], [False] or, on the first [return], [None].
    The default ['Q'] of [promocion_pieza] is supplied by the caller. *)
Definition mover (self : t) (cadena promocion_pieza : string)
  : resultado (retorno * t) :=
  if decide (promocion_pieza = "P" ∨ promocion_pieza = "R")
  then Ok (RNone, self)
  else
    r ← preparar self cadena promocion_pieza;
    match r with
    | inl ret => Ok (ret, self)
    | inr movimiento =>
        (* Ejecutar el movimiento a través del gestor *)
        '(nuevo_estado, piezas) ←
          GestorPiezas.ejecutar_movimiento (gestor_piezas self) movimiento
                                           (estado self);
        (* Actualizar estado *)
        let self := mk (color self) (max_profundidad self)
                       ({[nuevo_estado]} ∪ visitados self) piezas
                       nuevo_estado in
        _ ← verificar_consistencia self;
        Ok (RTrue, self)
    end.

Definition VALORES_PIEZAS : list (string * Z) :=
  [("BP", 100); ("NP", 100); ("BC", 320); ("NC", 320); ("BA", 330);
   ("NA", 330); ("BT", 500); ("NT", 500); ("BQ", 900); ("NQ", 900);
   ("BR", 20000); ("NR", 20000)].

(** [np.sum(np.char.startswith(self.estado, prefijo))]; numpy takes the
    prefix without its trailing NULs. *)
Definition contar_prefijo (tablero : Tablero) (prefijo : string) : Z :=
  Z.of_nat (length (filter (λ x, startswith x (sin_nulos_finales prefijo)
                                 = true)
                           (mjoin tablero))).

Definition evaluar_material (self : t) : Z :=
  foldl (λ valor '(pieza, valor_base),
           let count := contar_prefijo (estado self) (substring 0 2 pieza) in
           if startswith pieza "B" && (color self =? 1)
              || startswith pieza "N" && (color self =? -1)
           then valor + count * valor_base
           else valor - count * valor_base)
        0 VALORES_PIEZAS.

Definition obtener_posicion_pieza (self : t) (identificador : string)
  : option (Z * Z) :=
  GestorPiezas.np_where identificador (estado self) 0.

Definition esta_pieza_en_juego (self : t) (identificador : string) : bool :=
  bool_decide (obtener_posicion_pieza self identificador ≠ None).

Definition contar_piezas_por_tipo (self : t) (color tipo : string) : Z :=
  contar_prefijo (estado self) (color +:+ tipo).

Definition contar_piezas_color (self : t) (color : string) : Z :=
  contar_prefijo (estado self) color.

Definition obtener_piezas_por_tipo (self : t) (color tipo : string)
  : resultado (list (string * (Z * Z))) :=
  para (λ (piezas : list (string * (Z * Z))) (i : Z),
    para (λ (piezas : list (string * (Z * Z))) (j : Z),
            id_pieza ← np_get (estado self) i j;
            if bool_decide (id_pieza ≠ "...")
               && startswith id_pieza (color +:+ tipo)
            then Ok (piezas ++ [(id_pieza, (i, j))])
            else Ok piezas)
         piezas (rango 0 8))
    [] (rango 0 8).

(** [obtener_movimientos_posibles] returns the moves; the registry is
    returned with them, though the test before the call makes sure that the
    piece is registered already. *)
Definition obtener_movimientos_posibles (self : t) (identificador : string)
  : resultado (list MovimientoAjedrez * t) :=
  match obtener_posicion_pieza self identificador with
  | None => Ok ([], self)
  | Some pos =>
      match GestorPiezas.get_pieza (gestor_piezas self) identificador with
      | None => Ok ([], self)
      | Some pieza =>
          '(movimientos, piezas) ←
            GestorPiezas.obtener_movimientos_pieza (gestor_piezas self)
                                                   identificador (estado self);
          Ok (movimientos,
              mk (color self) (max_profundidad self) (visitados self) piezas
                 (estado self))
      end
  end.

End AgenteAjedrez.

(** ** Vocabulary of the statements *)

(** The board of the program: eight rows of eight cells, none of them the
    empty string (a cell holds ['...'] or a piece id). *)
Definition tablero_8x8 (tablero : Tablero) : Prop :=
  length tablero = 8%nat ∧ Forall (λ fila, length fila = 8%nat) tablero.

Definition celdas_no_vacias (tablero : Tablero) : Prop :=
  Forall (Forall (λ s : string, s ≠ "")) tablero.

Definition tablero_valido (tablero : Tablero) : Prop :=
  tablero_8x8 tablero ∧ celdas_no_vacias tablero.

#[global] Instance tablero_8x8_dec (tablero : Tablero) :
  Decision (tablero_8x8 tablero).
Proof. unfold tablero_8x8. apply _. Defined.

#[global] Instance tablero_valido_dec (tablero : Tablero) :
  Decision (tablero_valido tablero).
Proof. unfold tablero_valido, tablero_8x8, celdas_no_vacias. apply _. Defined.

(** The cell in row [i] and column [j], counted from the top left. *)
Definition celda (tablero : Tablero) (i j : nat) : option string :=
  tablero !! i ≫= (λ fila, fila !! j).

(** [x] is a piece id standing on some square of the board. *)
Definition ocupante (tablero : Tablero) (x : string) : Prop :=
  x ≠ "..." ∧ ∃ i j, (i < 8)%nat ∧ (j < 8)%nat ∧ celda tablero i j = Some x.

(** The piece ids on the board, square by square. *)
Definition ids_en (tablero : Tablero) : list string :=
  filter (λ x : string, x ≠ "...") (mjoin tablero).

(** No piece id stands on two squares. *)
Definition sin_duplicados (tablero : Tablero) : Prop :=
  NoDup (ids_en tablero).

(** Every piece on the board has an entry in the registry. *)
Definition todas_registradas (piezas : gmap string Pieza)
    (tablero : Tablero) : Prop :=
  Forall (λ x, x ∈ dom piezas) (ids_en tablero).

#[global] Instance sin_duplicados_dec (tablero : Tablero) :
  Decision (sin_duplicados tablero).
Proof. unfold sin_duplicados. apply _. Defined.

#[global] Instance todas_registradas_dec (piezas : gmap string Pieza)
    (tablero : Tablero) : Decision (todas_registradas piezas tablero).
Proof. unfold todas_registradas. apply _. Defined.

(** The square named [notacion] holds [x]. *)
Definition pieza_en (tablero : Tablero) (notacion x : string) : Prop :=
  ∃ f c, notacion_a_posicion notacion = Ok (f, c) ∧
         np_get tablero f c = Ok x.

Definition vacia (tablero : Tablero) (f c : Z) : Prop :=
  np_get tablero f c = Ok "...".

(** The occupancy test of the generators: [p != '...' and p[0] != color]. *)
Definition enemiga (color p : string) : Prop :=
  p ≠ "..." ∧ ∃ c0, str_indice p 0 = Ok c0 ∧ String c0 "" ≠ color.

(** The name of a square, for squares whose column is on the board. *)
Definition casilla (f c : Z) : string :=
  match posicion_a_notacion f c with
  | Ok n => n
  | Lanza _ => ""
  end.

(** Square [(f + k*df, c + k*dc)], the [k]-th of the ray [(df, dc)] cast
    from [(f, c)], is on the board, every square before it on the ray is on
    the board and empty, and it is itself empty or held by the enemy. *)
Definition llega (tablero : Tablero) (color : string)
    (f c df dc k : Z) : Prop :=
  dentro_tablero (f + k * df) (c + k * dc) = true ∧
  (∀ j, 1 ≤ j < k →
        dentro_tablero (f + j * df) (c + j * dc) = true ∧
        vacia tablero (f + j * df) (c + j * dc)) ∧
  ∃ p, np_get tablero (f + k * df) (c + k * dc) = Ok p ∧
       (p = "..." ∨ enemiga color p).

(** The same, within the seven steps of a ray. *)
Definition alcanza (tablero : Tablero) (color : string)
    (f c df dc k : Z) : Prop :=
  1 ≤ k ≤ 7 ∧ llega tablero color f c df dc k.

(** The unit steps of the three sliding pieces: along a row or a column,
    along a diagonal, and either. *)
Definition paso_de_torre (df dc : Z) : Prop :=
  (df = 0 ∧ (dc = 1 ∨ dc = -1)) ∨ (dc = 0 ∧ (df = 1 ∨ df = -1)).

Definition paso_de_alfil (df dc : Z) : Prop :=
  (df = 1 ∨ df = -1) ∧ (dc = 1 ∨ dc = -1).

Definition paso_de_queen (df dc : Z) : Prop :=
  paso_de_torre df dc ∨ paso_de_alfil df dc.

(** What the claim on sliding pieces asks of a generator whose rays go by
    the steps of the given [forma]: the call returns, every candidate names
    a square of the board, and a square is a candidate exactly when a ray
    reaches it. *)
Definition genera_por_rayos (forma : Z → Z → Prop)
    (obtener_hijos : Pieza → Z * Z → Tablero → resultado (list string))
    (self : Pieza) (f c : Z) (tablero : Tablero) : Prop :=
  ∃ movimientos,
    obtener_hijos self (f, c) tablero = Ok movimientos ∧
    (∀ m, m ∈ movimientos →
          ∃ nf nc, dentro_tablero nf nc = true ∧
                   m = jugada (casilla f c) (casilla nf nc)) ∧
    (∀ nf nc, dentro_tablero nf nc = true →
       (jugada (casilla f c) (casilla nf nc) ∈ movimientos ↔
        ∃ df dc k, forma df dc ∧
                   nf = f + k * df ∧ nc = c + k * dc ∧
                   alcanza tablero (color self) f c df dc k)).

(** A pawn as [Peon.__init__] builds it for its colour, whatever its flags
    have become since. *)
Definition peon_construido (self : Pieza) : Prop :=
  ∃ reciente,
    clase self = CPeon (obtener_direccion_color (color self))
                       (obtener_fila_inicial (color self)) reciente.

(** The one-square and the two-square advance of the pawn on [(f, c)]. *)
Definition avance1 (self : Pieza) (f c : Z) : string :=
  jugada (casilla f c)
         (casilla (f + obtener_direccion_color (color self)) c).

Definition avance2 (self : Pieza) (f c : Z) : string :=
  jugada (casilla f c)
         (casilla (f + 2 * obtener_direccion_color (color self)) c).

(** The squares one and two steps ahead of the pawn are empty. *)
Definition libre1 (self : Pieza) (tablero : Tablero) (f c : Z) : Prop :=
  vacia tablero (f + obtener_direccion_color (color self)) c.

Definition libre2 (self : Pieza) (tablero : Tablero) (f c : Z) : Prop :=
  vacia tablero (f + 2 * obtener_direccion_color (color self)) c.

(** The home rank of the king and the ids of the two rooks it may castle
    with, as [Rey.obtener_movimientos_especiales] fixes them. *)
Definition fila_rey (color : string) : Z :=
  if decide (color = "B") then 7 else 0.

Definition torre_corto_id (color : string) : string :=
  if decide (color = "B") then "BT2" else "NT2".

Definition torre_largo_id (color : string) : string :=
  if decide (color = "B") then "BT1" else "NT1".




(** The destination test of the generators and of [puede_mover]: the square
    [(nf, nc)] holds ['...'] or an id that does not start with [color]. *)
Definition destino_libre_o_enemigo (tablero : Tablero) (color : string)
    (nf nc : Z) : Prop :=
  ∃ p, np_get tablero nf nc = Ok p ∧ (p = "..." ∨ enemiga color p).

(** What is proved of the two single-step generators: the call returns,
    every candidate names a square of the board, and a square of the board
    is a candidate exactly when its offset from [(f, c)] has the [forma] of
    the piece's step and the square is empty or held by the enemy. *)
Definition genera_por_saltos (forma : Z → Z → Prop)
    (obtener_hijos : Pieza → Z * Z → Tablero → resultado (list string))
    (self : Pieza) (f c : Z) (tablero : Tablero) : Prop :=
  ∃ movimientos,
    obtener_hijos self (f, c) tablero = Ok movimientos ∧
    (∀ m, m ∈ movimientos →
          ∃ nf nc, dentro_tablero nf nc = true ∧
                   m = jugada (casilla f c) (casilla nf nc)) ∧
    (∀ nf nc, dentro_tablero nf nc = true →
       (jugada (casilla f c) (casilla nf nc) ∈ movimientos ↔
        forma (nf - f) (nc - c) ∧
        destino_libre_o_enemigo tablero (color self) nf nc)).

(** The step of a knight and the step of a king. *)
Definition salto_de_caballo (df dc : Z) : Prop :=
  Z.abs df = 2 ∧ Z.abs dc = 1 ∨ Z.abs df = 1 ∧ Z.abs dc = 2.

Definition paso_de_rey (df dc : Z) : Prop :=
  Z.abs df ≤ 1 ∧ Z.abs dc ≤ 1 ∧ (df ≠ 0 ∨ dc ≠ 0).

Definition es_digito (a : ascii) : Prop :=
  (48 ≤ N_of_ascii a ≤ 57)%N.

Definition valor_digito (a : ascii) : Z := Z.of_N (N_of_ascii a - 48).

(** Two strings that numpy takes for equal: they are the same up to
    trailing NULs. *)
Definition igual_np (x y : string) : Prop :=
  sin_nulos_finales x = sin_nulos_finales y.

(** The square [(i, j)] of the board holds [x], as numpy compares. *)
Definition celda_es (tablero : Tablero) (i j : nat) (x : string) : Prop :=
  ∃ y, celda tablero i j = Some y ∧ igual_np y x.

(** The entry [p] stored under the key [k] is the object that
    [Pieza.__init__] has built for that key: its [id] is the key, and the
    key is its colour, the initial of its class and its number. *)
Definition entrada_coherente (k : string) (p : Pieza) : Prop :=
  id p = k ∧
  k = color p +:+ String (inicial_clase (clase p)) (pretty (numero p)).

Definition registro_coherente (piezas : gmap string Pieza) : Prop :=
  map_Forall entrada_coherente piezas.

#[global] Instance registro_coherente_dec (piezas : gmap string Pieza) :
  Decision (registro_coherente piezas).
Proof. unfold registro_coherente, entrada_coherente. apply _. Defined.

(** The pawn [p] has its double-step flag set. *)
Definition acaba_de_avanzar_dos (p : Pieza) : Prop :=
  ∃ direccion fila_inicial, clase p = CPeon direccion fila_inicial true.

(** The entries stored under the ids of pawns are pawns. *)
Definition ids_de_peon_son_peones (piezas : gmap string Pieza) : Prop :=
  map_Forall (λ (k : string) (p : Pieza),
                startswith k "BP" || startswith k "NP" = true →
                es_Peon p = true) piezas.

#[global] Instance ids_de_peon_son_peones_dec (piezas : gmap string Pieza) :
  Decision (ids_de_peon_son_peones piezas).
Proof. unfold ids_de_peon_son_peones. apply _. Defined.

(** The prefix of the ids of the pawns that a pawn of [color] may take en
    passant, the rank such a pawn must stand on, and the rank on which a
    pawn of [color] promotes. *)
Definition prefijo_peon_enemigo (color : string) : string :=
  if decide (color = "N") then "BP" else "NP".

Definition fila_al_paso (color : string) : Z :=
  if decide (color = "B") then 3 else 4.

Definition fila_de_promocion (color : string) : Z :=
  if decide (color = "B") then 0 else 7.

(** ** Positions used as examples

    [gestor_inicial] is the registry of a fresh [GestorPiezas()];
    [tablero_promocion] and [tablero_enroque] are the two boards that the
    test of [piezas.py] builds. *)

Definition gestor_inicial : gmap string Pieza :=
  match GestorPiezas.__init__ with
  | Ok piezas => piezas
  | Lanza _ => ∅
  end.

Definition fila_vacia : list string := replicate 8 "...".

Definition tablero_promocion : Tablero :=
  [ ["..."; "..."; "..."; "..."; "NR1"; "..."; "..."; "..."];
    ["BP1"; "..."; "..."; "..."; "..."; "..."; "..."; "..."];
    fila_vacia; fila_vacia; fila_vacia; fila_vacia; fila_vacia;
    ["..."; "..."; "..."; "..."; "BR1"; "..."; "..."; "..."] ].

Definition tablero_enroque : Tablero :=
  [ ["NT1"; "..."; "..."; "..."; "NR1"; "..."; "..."; "NT2"];
    fila_vacia; fila_vacia; fila_vacia; fila_vacia; fila_vacia; fila_vacia;
    ["BT1"; "..."; "..."; "..."; "BR1"; "..."; "..."; "BT2"] ].

(** Plays the moves in turn through the executor, from a board and a
    registry. *)
Definition jugar (movimientos : list MovimientoAjedrez)
    (posicion : Tablero * gmap string Pieza)
  : resultado (Tablero * gmap string Pieza) :=
  para (λ '(tablero, piezas) movimiento,
          GestorPiezas.ejecutar_movimiento piezas movimiento tablero)
       posicion movimientos.

Definition normal (d h : string) : MovimientoAjedrez :=
  mkMovimiento d h NORMAL None.

(** e2-e4, a7-a6, e4-e5, d7-d5: the white pawn [BP5] stands on e5 and the
    black pawn [NP4] has just made its double step to d5. *)
Definition antes_de_al_paso : resultado (Tablero * gmap string Pieza) :=
  jugar [normal "e2" "e4"; normal "a7" "a6"; normal "e4" "e5";
         normal "d7" "d5"]
        (AgenteAjedrez.tablero_inicial, gestor_inicial).

(** e2-e3, e3-e2: the executor checks no legality, so the pawn [BP5] is back
    on its starting square with [movida] set. *)
(** The value of a call that returns. *)
Definition valor {A} (defecto : A) (m : resultado A) : A :=
  match m with
  | Ok a => a
  | Lanza _ => defecto
  end.

Definition posicion_nula : Tablero * gmap string Pieza := ([], ∅).

Definition enroque_e1_g1 : MovimientoAjedrez :=
  mkMovimiento "e1" "g1" ENROQUE (Some "O-O").

Definition promocion_a7_a8 : MovimientoAjedrez :=
  mkMovimiento "a7" "a8" PROMOCION (Some "T").

Definition al_paso_e5_d6 : MovimientoAjedrez :=
  mkMovimiento "e5" "d6" EN_PASSANT None.

Definition agente_blancas : AgenteAjedrez.t :=
  AgenteAjedrez.mk 1 4 {[AgenteAjedrez.tablero_inicial]} gestor_inicial
                   AgenteAjedrez.tablero_inicial.

Definition peon_de_vuelta : resultado (Tablero * gmap string Pieza) :=
  jugar [normal "e2" "e3"; normal "e3" "e2"]
        (AgenteAjedrez.tablero_inicial, gestor_inicial).

(** The positions that the examples reach. *)
Definition tras_enroque : Tablero * gmap string Pieza :=
  valor posicion_nula
    (GestorPiezas.ejecutar_movimiento gestor_inicial enroque_e1_g1
                                      tablero_enroque).

Definition posicion_al_paso : Tablero * gmap string Pieza :=
  valor posicion_nula antes_de_al_paso.

Definition tras_al_paso : Tablero * gmap string Pieza :=
  valor posicion_nula
    (GestorPiezas.ejecutar_movimiento posicion_al_paso.2 al_paso_e5_d6
                                      posicion_al_paso.1).

Definition tras_promocion : Tablero * gmap string Pieza :=
  valor posicion_nula
    (GestorPiezas.ejecutar_movimiento gestor_inicial promocion_a7_a8
                                      tablero_promocion).

Definition tras_promocion_y_enroque : Tablero * gmap string Pieza :=
  valor posicion_nula
    (GestorPiezas.ejecutar_movimiento tras_promocion.2 enroque_e1_g1
                                      tablero_enroque).

Definition posicion_peon_de_vuelta : Tablero * gmap string Pieza :=
  valor posicion_nula peon_de_vuelta.

Definition tras_e2_e4 : Tablero * gmap string Pieza :=
  valor posicion_nula
    (GestorPiezas.ejecutar_movimiento gestor_inicial (normal "e2" "e4")
                                      AgenteAjedrez.tablero_inicial).

(** * Properties *)

(** ** The error monad and the Python primitives *)

Ltac res_simpl := cbn [mbind resultado_bind mret resultado_ret].

Lemma bind_Ok {A B} (m : resultado A) (k : A → resultado B) (b : B) :
  m ≫= k = Ok b ↔ ∃ a, m = Ok a ∧ k a = Ok b.
Proof.
  destruct m as [a|e]; simpl; split.
  - eauto.
  - intros (a' & [= <-] & H). exact H.
  - discriminate.
  - intros (a' & [=] & _).
Qed.

Lemma retorna_no_falla {A} (m : resultado A) : retorna m ↔ ¬ falla m.
Proof.
  destruct m as [a|e]; split.
  - intros _ [e' [=]].
  - intros _. by exists a.
  - intros [a [=]].
  - intros H. destruct H. by exists e.
Qed.

Lemma lista_index_Ok (l : list ascii) (x : ascii) (i : nat) :
  NoDup l → l !! i = Some x → lista_index l x = Ok (Z.of_nat i).
Proof.
  intros Hnd. revert i. induction Hnd as [|y l Hy Hnd IH]; intros i Hi.
  - rewrite lookup_nil in Hi. discriminate.
  - simpl. destruct i as [|i]; simpl in Hi.
    + injection Hi as ->. case_decide; [done | congruence].
    + case_decide as Heq.
      * subst y. destruct Hy. by eapply list_elem_of_lookup_2.
      * rewrite (IH i Hi). simpl. f_equal. lia.
Qed.


Lemma int_de_caracter_Ok (a : ascii) :
  es_digito a → int_de_caracter a = Ok (valor_digito a).
Proof.
  unfold es_digito, int_de_caracter, valor_digito. intros [H1 H2].
  apply N.leb_le in H1, H2. by rewrite H1, H2.
Qed.

Lemma int_de_caracter_falla (a : ascii) :
  falla (int_de_caracter a) ↔ ¬ es_digito a.
Proof.
  unfold es_digito, int_de_caracter.
  destruct (48 <=? N_of_ascii a)%N eqn:H1;
    destruct (N_of_ascii a <=? 57)%N eqn:H2; simpl;
    try apply N.leb_le in H1; try apply N.leb_le in H2;
    try apply N.leb_gt in H1; try apply N.leb_gt in H2.
  - split; [intros [e [=]] | intros H; destruct H; lia].
  - split; [intros _; lia | intros _; by eexists].
  - split; [intros _; lia | intros _; by eexists].
  - split; [intros _; lia | intros _; by eexists].
Qed.


Lemma COLUMNAS_NoDup : NoDup COLUMNAS.
Proof. compute_done. Qed.

(** ** The coordinate model *)

Lemma notacion_a_posicion_eq (l d : ascii) (r : string) :
  notacion_a_posicion (String l (String d r)) =
  (col ← lista_index COLUMNAS (lower l);
   v ← int_de_caracter d;
   Ok (8 - v, col)).
Proof. reflexivity. Qed.




(** A second character that is not a digit: the call raises. *)
Example notacion_a_posicion_sin_digito :
  notacion_a_posicion "ax" = Lanza ValueError ∧
  notacion_a_posicion "a" = Lanza IndexError ∧
  notacion_a_posicion "i1" = Lanza ValueError.
Proof. repeat split. Qed.

(** ** The example positions *)

Lemma GestorPiezas_init_Ok : GestorPiezas.__init__ = Ok gestor_inicial.
Proof. vm_compute. reflexivity. Qed.

Lemma gestor_inicial_size : size gestor_inicial = 32%nat.
Proof. vm_compute. reflexivity. Qed.

Lemma tablero_enroque_valido : tablero_valido tablero_enroque.
Proof.
  compute_done.
Qed.

(** ** Castling *)

(** C1: the claim holds of the rules of chess and of the test at the end of
    [piezas.py], which expects king and rook to be marked as moved, but the
    [ENROQUE] branch of the executor is empty.  On the castling board of
    that test, with a fresh registry, e1-g1 returns the board as it was:
    the king is still on e1 and the rook on h1, g1 and f1 are empty, and
    neither piece is marked as moved. *)
Theorem C1_enroque_no_ejecutado :
  ∃ piezas',
    GestorPiezas.ejecutar_movimiento gestor_inicial
      (mkMovimiento "e1" "g1" ENROQUE (Some "O-O")) tablero_enroque
    = Ok (tablero_enroque, piezas') ∧
    np_get tablero_enroque 7 4 = Ok "BR1" ∧
    np_get tablero_enroque 7 7 = Ok "BT2" ∧
    np_get tablero_enroque 7 6 = Ok "..." ∧
    np_get tablero_enroque 7 5 = Ok "..." ∧
    movida <$> piezas' !! "BR1" = Some false ∧
    movida <$> piezas' !! "BT2" = Some false.
Proof.
  exists tras_enroque.2.
  repeat split; vm_compute; reflexivity.
Qed.


(** ** En passant *)

(** C2: the move type and the pawn's generator know en passant, but the
    executor has no branch for it and handles [EN_PASSANT] as a normal
    move.  After e2-e4, a7-a6, e4-e5, d7-d5 the generator offers the white
    pawn on e5 the capture on d6; executing it moves the pawn and empties
    e5, but the captured pawn [NP4] stays on d5 and in the registry. *)
Theorem C2_al_paso_no_captura :
  ∃ tablero piezas peon tablero' piezas',
    antes_de_al_paso = Ok (tablero, piezas) ∧
    np_get tablero 3 4 = Ok "BP5" ∧
    np_get tablero 3 3 = Ok "NP4" ∧
    clase <$> piezas !! "NP4" = Some (CPeon 1 1 true) ∧
    piezas !! "BP5" = Some peon ∧
    Peon.obtener_movimientos_especiales peon piezas (3, 4) tablero
    = Ok [mkMovimiento "e5" "d6" EN_PASSANT None] ∧
    GestorPiezas.ejecutar_movimiento piezas
      (mkMovimiento "e5" "d6" EN_PASSANT None) tablero
    = Ok (tablero', piezas') ∧
    np_get tablero' 3 4 = Ok "..." ∧
    np_get tablero' 2 3 = Ok "BP5" ∧
    np_get tablero' 3 3 = Ok "NP4" ∧
    is_Some (piezas' !! "NP4").
Proof.
  exists posicion_al_paso.1, posicion_al_paso.2,
    (con_movida true (Peon.__init__ "B" 5)), tras_al_paso.1, tras_al_paso.2.
  repeat split; try (vm_compute; reflexivity).
  exists (con_movida true (con_movimiento_doble_reciente true
                             (Peon.__init__ "N" 4))).
  vm_compute. reflexivity.
Qed.

(** ** Registry and board *)

(** C3, as the spec states it, fails on the code, and the test of
    [piezas.py] shows it: after the promotion test the registry holds the
    three pieces of that board only, and the castling move that the test
    then runs on the castling board returns with the rook [BT2] on h1 and
    no registry entry for it.  Synchronising only deletes. *)
Lemma C3_counterexample :
  ∃ tablero1 piezas1 tablero2 piezas2,
    GestorPiezas.ejecutar_movimiento gestor_inicial
      (mkMovimiento "a7" "a8" PROMOCION (Some "T")) tablero_promocion
    = Ok (tablero1, piezas1) ∧
    GestorPiezas.ejecutar_movimiento piezas1
      (mkMovimiento "e1" "g1" ENROQUE (Some "O-O")) tablero_enroque
    = Ok (tablero2, piezas2) ∧
    ocupante tablero2 "BT2" ∧
    "BT2" ∉ dom piezas2.
Proof.
  exists tras_promocion.1, tras_promocion.2, tras_promocion_y_enroque.1,
    tras_promocion_y_enroque.2.
  split; [vm_compute; reflexivity|].
  split; [vm_compute; reflexivity|]. split.
  - split; [done|]. exists 7%nat, 7%nat. repeat split; [lia..|].
    vm_compute. reflexivity.
  - apply not_elem_of_dom. vm_compute. reflexivity.
Qed.

(** C4, as the spec states it, fails on the code: the promotion a7-a8=T of
    the test of [piezas.py] puts the new rook [BT3] on a8, and the new
    piece comes out of the constructor with [movida] false. *)
Lemma C4_counterexample :
  ∃ tablero' piezas',
    GestorPiezas.ejecutar_movimiento gestor_inicial
      (mkMovimiento "a7" "a8" PROMOCION (Some "T")) tablero_promocion
    = Ok (tablero', piezas') ∧
    np_get tablero' 0 0 = Ok "BT3" ∧
    movida <$> piezas' !! "BT3" = Some false.
Proof.
  exists tras_promocion.1, tras_promocion.2.
  repeat split; vm_compute; reflexivity.
Qed.

(** ** Pawns *)

(** C8, as the spec states it, fails on the code: after e2-e3 and e3-e2
    (the executor checks no legality) the pawn [BP5] stands on e2, its
    starting rank, with e3 and e4 empty, and it generates the one-square
    advance only, because its [movida] flag is set. *)
Lemma C8_counterexample :
  ∃ tablero piezas peon,
    peon_de_vuelta = Ok (tablero, piezas) ∧
    piezas !! "BP5" = Some peon ∧
    clase peon = CPeon (-1) 6 false ∧
    movida peon = true ∧
    np_get tablero 6 4 = Ok "BP5" ∧
    vacia tablero 5 4 ∧ vacia tablero 4 4 ∧
    Peon.obtener_hijos peon (6, 4) tablero = Ok ["e2 e3"].
Proof.
  exists posicion_peon_de_vuelta.1, posicion_peon_de_vuelta.2,
    (con_movida true (Peon.__init__ "B" 5)).
  repeat split; vm_compute; reflexivity.
Qed.

(** ** The driver *)

(** C6: [mover] called with promotion target ['P'] or ['R'] returns [None]
    at once, whatever the move text and the state: no move is built, the
    executor is not called, and board, registry and visited set are the
    ones of before. *)
Theorem C6_mover_rechaza_peon_y_rey (self : AgenteAjedrez.t)
    (cadena promocion_pieza : string) :
  promocion_pieza = "P" ∨ promocion_pieza = "R" →
  AgenteAjedrez.mover self cadena promocion_pieza = Ok (RNone, self).
Proof.
  intros H. unfold AgenteAjedrez.mover. by rewrite decide_True.
Qed.

Lemma C6_mover_rechaza_peon_y_rey_witness :
  ("P" = "P" ∨ "P" = "R") ∧
  AgenteAjedrez.mover agente_blancas "f7-f8" "P" = Ok (RNone, agente_blancas).
Proof.
  split; [left; reflexivity|].
  apply (C6_mover_rechaza_peon_y_rey agente_blancas "f7-f8" "P").
  left. reflexivity.
Defined.

(** ** Reading the board *)

Lemma indice_normal_Ok (n : nat) (i : Z) (k : nat) :
  indice_normal n i = Ok k →
  (k < n)%nat ∧ - Z.of_nat n ≤ i < Z.of_nat n ∧
  (0 ≤ i → k = Z.to_nat i) ∧ (i < 0 → k = Z.to_nat (Z.of_nat n + i)).
Proof.
  unfold indice_normal.
  destruct ((0 <=? i) && (i <? Z.of_nat n)) eqn:E1.
  - apply andb_true_iff in E1 as [H1 H2].
    apply Z.leb_le in H1. apply Z.ltb_lt in H2. intros [= <-]. lia.
  - destruct ((- Z.of_nat n <=? i) && (i <? 0)) eqn:E2; [|discriminate].
    apply andb_true_iff in E2 as [H1 H2].
    apply Z.leb_le in H1. apply Z.ltb_lt in H2. intros [= <-]. lia.
Qed.

Lemma indice_normal_dentro (n : nat) (i : Z) :
  0 ≤ i < Z.of_nat n → indice_normal n i = Ok (Z.to_nat i).
Proof.
  intros [H1 H2]. unfold indice_normal.
  apply Z.leb_le in H1. apply Z.ltb_lt in H2. by rewrite H1, H2.
Qed.

Lemma lista_indice_Ok {A} (l : list A) (i : Z) (x : A) :
  lista_indice l i = Ok x ↔
  ∃ k, indice_normal (length l) i = Ok k ∧ l !! k = Some x.
Proof.
  unfold lista_indice. destruct (indice_normal (length l) i) as [k|e];
    res_simpl.
  - destruct (l !! k) as [y|] eqn:E.
    + split; [intros [= <-]; eauto | intros (k' & [= <-] & H); congruence].
    + split; [discriminate | intros (k' & [= <-] & H); congruence].
  - split; [discriminate | intros (k' & [=] & _)].
Qed.

Lemma lista_indice_dentro {A} (l : list A) (i : Z) :
  0 ≤ i < Z.of_nat (length l) →
  ∃ x, lista_indice l i = Ok x ∧ l !! Z.to_nat i = Some x.
Proof.
  intros H. destruct (lookup_lt_is_Some_2 l (Z.to_nat i)) as [x Hx]; [lia|].
  exists x. split; [|done]. apply lista_indice_Ok.
  exists (Z.to_nat i). split; [by apply indice_normal_dentro|done].
Qed.

Lemma np_get_Ok (tablero : Tablero) (f c : Z) (p : string) :
  np_get tablero f c = Ok p ↔
  ∃ i j fila, indice_normal (length tablero) f = Ok i ∧
              tablero !! i = Some fila ∧
              indice_normal (length fila) c = Ok j ∧
              fila !! j = Some p.
Proof.
  unfold np_get. rewrite bind_Ok. split.
  - intros (fila & H1 & H2).
    apply lista_indice_Ok in H1 as (i & Hi & Hfila).
    apply lista_indice_Ok in H2 as (j & Hj & Hp). by exists i, j, fila.
  - intros (i & j & fila & Hi & Hfila & Hj & Hp). exists fila.
    split; apply lista_indice_Ok; eauto.
Qed.

Lemma fila_8x8 (tablero : Tablero) (i : nat) (fila : list string) :
  tablero_8x8 tablero → tablero !! i = Some fila → length fila = 8%nat.
Proof.
  intros [_ H] Hi. rewrite Forall_forall in H. apply H.
  by eapply list_elem_of_lookup_2.
Qed.

Lemma dentro_tablero_true (f c : Z) :
  dentro_tablero f c = true ↔ 0 ≤ f < 8 ∧ 0 ≤ c < 8.
Proof.
  unfold dentro_tablero. rewrite !andb_true_iff, !Z.leb_le, !Z.ltb_lt. lia.
Qed.

Lemma np_get_dentro (tablero : Tablero) (f c : Z) :
  tablero_8x8 tablero → dentro_tablero f c = true →
  ∃ p, np_get tablero f c = Ok p ∧
       celda tablero (Z.to_nat f) (Z.to_nat c) = Some p.
Proof.
  intros H8 Hd. apply dentro_tablero_true in Hd as [Hf Hc].
  destruct (H8) as [Hlen _].
  destruct (lista_indice_dentro tablero f) as (fila & H1 & H1'); [lia|].
  pose proof (fila_8x8 _ _ _ H8 H1') as Hfila.
  destruct (lista_indice_dentro fila c) as (p & H2 & H2'); [lia|].
  exists p. split.
  - unfold np_get. rewrite H1. res_simpl. exact H2.
  - unfold celda. rewrite H1'. exact H2'.
Qed.

Lemma np_get_no_vacia (tablero : Tablero) (f c : Z) (p : string) :
  celdas_no_vacias tablero → np_get tablero f c = Ok p →
  ∃ c0, str_indice p 0 = Ok c0.
Proof.
  intros Hnv Hp. apply np_get_Ok in Hp as (i & j & fila & _ & Hf & _ & Hp).
  unfold celdas_no_vacias in Hnv. rewrite Forall_forall in Hnv.
  pose proof (Hnv fila (list_elem_of_lookup_2 _ _ _ Hf)) as Hfila.
  rewrite Forall_forall in Hfila.
  pose proof (Hfila p (list_elem_of_lookup_2 _ _ _ Hp)) as Hne.
  destruct p as [|a p]; [done|]. by exists a.
Qed.

(** ** The free-path check of castling *)





(** The rook's own square is not read: what stands on it has no influence
    on the result. *)
Example _verificar_enroque_ignora_torre :
  Rey._verificar_enroque
    [["..."; "..."; "..."; "..."; "BR1"; "..."; "..."; "anything"]] 0 4 7
  = Ok true.
Proof. reflexivity. Qed.



Lemma posicion_a_notacion_casilla (f c : Z) :
  0 ≤ c < 8 → posicion_a_notacion f c = Ok (casilla f c).
Proof.
  intros Hc.
  assert (c = 0 ∨ c = 1 ∨ c = 2 ∨ c = 3 ∨ c = 4 ∨ c = 5 ∨ c = 6 ∨ c = 7)
    as Hcases by lia.
  destruct Hcases as [->|[->|[->|[->|[->|[->|[->| ->]]]]]]]; reflexivity.
Qed.




(** The generator does not read where the king stands.  With the white
    king on d1, a bishop on e1 and the rook on h1, [O-O] is emitted, from
    e1; a rook asked for the special moves of a king has no
    [_verificar_enroque]. *)
Example enroque_sin_rey_en_e1 :
  Rey.obtener_movimientos_especiales (Rey.__init__ "B" 1) gestor_inicial
    (7, 3)
    [ fila_vacia; fila_vacia; fila_vacia; fila_vacia; fila_vacia;
      fila_vacia; fila_vacia;
      ["..."; "..."; "..."; "BR1"; "BA1"; "..."; "..."; "BT2"] ]
  = Ok [mkMovimiento "e1" "g1" ENROQUE (Some "O-O")] ∧
  Rey.obtener_movimientos_especiales (Torre.__init__ "B" 1) gestor_inicial
    (7, 4) tablero_enroque
  = Lanza AttributeError.
Proof. split; vm_compute; reflexivity. Qed.

(** ** Names of squares *)

Lemma casilla_inj (f c f' c' : Z) :
  0 ≤ c < 8 → 0 ≤ c' < 8 → casilla f c = casilla f' c' → f = f' ∧ c = c'.
Proof.
  intros Hc Hc'.
  assert (c = 0 ∨ c = 1 ∨ c = 2 ∨ c = 3 ∨ c = 4 ∨ c = 5 ∨ c = 6 ∨ c = 7)
    as Hcases by lia.
  assert (c' = 0 ∨ c' = 1 ∨ c' = 2 ∨ c' = 3 ∨ c' = 4 ∨ c' = 5 ∨ c' = 6
          ∨ c' = 7) as Hcases' by lia.
  destruct Hcases as [->|[->|[->|[->|[->|[->|[->| ->]]]]]]];
    destruct Hcases' as [->|[->|[->|[->|[->|[->|[->| ->]]]]]]];
    unfold casilla, posicion_a_notacion; cbn [lista_indice]; simpl;
    intros [= H]; apply (inj pretty) in H; lia.
Qed.

Lemma jugada_inj (origen a b : string) :
  jugada origen a = jugada origen b → a = b.
Proof.
  unfold jugada. intros H. apply (inj (String.app origen)) in H.
  by injection H.
Qed.

(** ** Sliding pieces *)

Lemma rayo_spec (self : Pieza) (origen : string) (tablero : Tablero)
    (df dc : Z) :
  tablero_valido tablero →
  ∀ (vueltas : list Z) (nf nc : Z) (movimientos : list string),
  ∃ l, Pieza_.rayo self origen tablero df dc vueltas nf nc movimientos
       = Ok (movimientos ++ l) ∧
       ∀ m, m ∈ l ↔
            ∃ k, 1 ≤ k ≤ Z.of_nat (length vueltas) ∧
                 m = jugada origen (casilla (nf + k * df) (nc + k * dc)) ∧
                 llega tablero (color self) nf nc df dc k.
Proof.
  intros [H8 Hnv] vueltas.
  induction vueltas as [|v vueltas IH]; intros nf nc movimientos.
  { exists []. rewrite app_nil_r. split; [done|]. intros m.
    rewrite elem_of_nil. split; [done|]. intros (k & Hk & _). simpl in Hk.
    lia. }
  cbn [Pieza_.rayo].
  destruct (dentro_tablero (nf + df) (nc + dc)) eqn:Ed; cbn [negb].
  - destruct (np_get_dentro tablero _ _ H8 Ed) as (p & Hp & _).
    destruct (np_get_no_vacia tablero _ _ p Hnv Hp) as [c0 Hc0].
    apply dentro_tablero_true in Ed as Hdentro.
    rewrite Hp. res_simpl.
    rewrite posicion_a_notacion_casilla by lia. res_simpl.
    set (m1 := jugada origen (casilla (nf + df) (nc + dc))).
    case_decide as Hvac.
    + (* an empty square: the ray goes on *)
      subst p.
      destruct (IH (nf + df) (nc + dc) (movimientos ++ [m1])) as (l & -> & Hl).
      exists (m1 :: l). split; [by rewrite <- app_assoc|].
      intros m. rewrite elem_of_cons, Hl. split.
      * intros [-> | (k & Hk & -> & Hd & Hj & Hfin)].
        -- exists 1. split; [simpl length; lia|]. unfold llega.
           rewrite !Z.mul_1_l. split; [done|]. split; [done|].
           split; [intros j Hj; lia|]. exists "...". split; [done|by left].
        -- exists (k + 1). split; [simpl length; lia|]. unfold llega.
           replace (nf + (k + 1) * df) with (nf + df + k * df) by ring.
           replace (nc + (k + 1) * dc) with (nc + dc + k * dc) by ring.
           split; [done|]. split; [done|]. split; [|done].
           intros j Hj'. destruct (decide (j = 1)) as [->|Hj1].
           ++ rewrite !Z.mul_1_l. done.
           ++ replace (nf + j * df) with (nf + df + (j - 1) * df) by ring.
              replace (nc + j * dc) with (nc + dc + (j - 1) * dc) by ring.
              apply Hj. lia.
      * intros (k & Hk & -> & Hd & Hj & Hfin).
        destruct (decide (k = 1)) as [->|Hk1].
        -- left. by rewrite !Z.mul_1_l.
        -- right. exists (k - 1). simpl length in Hk. split; [lia|].
           unfold llega.
           replace (nf + df + (k - 1) * df) with (nf + k * df) by ring.
           replace (nc + dc + (k - 1) * dc) with (nc + k * dc) by ring.
           split; [done|]. split; [done|]. split; [|done].
           intros j Hj'.
           replace (nf + df + j * df) with (nf + (j + 1) * df) by ring.
           replace (nc + dc + j * dc) with (nc + (j + 1) * dc) by ring.
           apply Hj. lia.
    + (* an occupied square: the ray stops *)
      rewrite Hc0. res_simpl.
      assert (∀ k, 1 ≤ k → llega tablero (color self) nf nc df dc k →
                   k = 1 ∧ String c0 "" ≠ color self) as Hstop.
      { intros k Hk (Hd & Hj & p' & Hp' & Hfin).
        destruct (decide (k = 1)) as [->|Hk1].
        - split; [done|]. rewrite !Z.mul_1_l in Hp'.
          rewrite Hp in Hp'. injection Hp' as <-.
          destruct Hfin as [->|(_ & c0' & Hc0' & Hcol)]; [done|]. congruence.
        - destruct (Hj 1) as [_ Hv]; [lia|]. unfold vacia in Hv.
          rewrite !Z.mul_1_l, Hp in Hv. congruence. }
      case_decide as Hcol.
      * exists [m1]. split; [done|]. intros m.
        rewrite elem_of_cons, elem_of_nil. split.
        -- intros [-> | []]. exists 1. split; [simpl length; lia|].
           unfold llega.
           rewrite !Z.mul_1_l. split; [done|]. split; [done|].
           split; [intros j Hj; lia|]. exists p. split; [done|].
           right. split; [done|]. by exists c0.
        -- intros (k & Hk & -> & Hll).
           destruct (Hstop k) as [-> _]; [lia|done|].
           left. by rewrite !Z.mul_1_l.
      * exists []. rewrite app_nil_r. split; [done|]. intros m.
        rewrite elem_of_nil. split; [done|].
        intros (k & Hk & -> & Hll). destruct (Hstop k) as [_ H]; [lia|done|].
        by destruct Hcol.
  - (* off the board: the ray stops *)
    exists []. rewrite app_nil_r. split; [done|]. intros m.
    rewrite elem_of_nil. split; [done|].
    intros (k & Hk & _ & Hd & Hj & _).
    destruct (decide (k = 1)) as [->|Hk1].
    + rewrite !Z.mul_1_l in Hd. congruence.
    + destruct (Hj 1) as [Hd1 _]; [lia|]. rewrite !Z.mul_1_l in Hd1.
      congruence.
Qed.

Lemma rayos_spec (self : Pieza) (origen : string) (tablero : Tablero)
    (f c : Z) :
  tablero_valido tablero →
  ∀ (DIRECCIONES : list (Z * Z)) (movimientos : list string),
  ∃ l, para (λ movimientos '(df, dc),
               Pieza_.rayo self origen tablero df dc (rango 1 8) f c
                           movimientos)
            movimientos DIRECCIONES
       = Ok (movimientos ++ l) ∧
       ∀ m, m ∈ l ↔
            ∃ df dc k, (df, dc) ∈ DIRECCIONES ∧
                       m = jugada origen (casilla (f + k * df) (c + k * dc)) ∧
                       alcanza tablero (color self) f c df dc k.
Proof.
  intros Hval DIRECCIONES.
  induction DIRECCIONES as [|[df dc] DIRECCIONES IH]; intros movimientos.
  { exists []. rewrite app_nil_r. split; [done|]. intros m.
    rewrite elem_of_nil. split; [done|].
    intros (df & dc & k & H & _). by apply elem_of_nil in H. }
  cbn [para].
  destruct (rayo_spec self origen tablero df dc Hval (rango 1 8) f c
                      movimientos) as (l1 & -> & H1).
  res_simpl.
  destruct (IH (movimientos ++ l1)) as (l2 & -> & H2).
  exists (l1 ++ l2). split; [by rewrite <- app_assoc|].
  intros m. rewrite elem_of_app, H1, H2. split.
  - intros [(k & Hk & -> & Hll) | (df' & dc' & k & Hin & -> & Hal)].
    + exists df, dc, k. split; [apply list_elem_of_here|]. split; [done|].
      split; [|done]. exact Hk.
    + exists df', dc', k. split; [by apply list_elem_of_further|]. done.
  - intros (df' & dc' & k & Hin & -> & Hal).
    apply elem_of_cons in Hin as [[= -> ->]|Hin].
    + left. exists k. destruct Hal as [Hk Hll]. split; [exact Hk|]. done.
    + right. by exists df', dc', k.
Qed.

Lemma hijos_deslizantes_spec (DIRECCIONES : list (Z * Z))
    (forma : Z → Z → Prop) (self : Pieza) (f c : Z) (tablero : Tablero) :
  Atributos.DIRECCIONES self = Ok DIRECCIONES →
  (∀ df dc, (df, dc) ∈ DIRECCIONES ↔ forma df dc) →
  tablero_valido tablero → dentro_tablero f c = true →
  genera_por_rayos forma Pieza_.hijos_deslizantes self f c tablero.
Proof.
  intros Hattr Hforma Hval Hd. apply dentro_tablero_true in Hd as Hfc.
  unfold genera_por_rayos, Pieza_.hijos_deslizantes.
  rewrite posicion_a_notacion_casilla by lia. res_simpl.
  rewrite Hattr. res_simpl.
  destruct (rayos_spec self (casilla f c) tablero f c Hval DIRECCIONES [])
    as (l & -> & Hl).
  exists l. split; [done|]. split.
  - intros m Hm. apply Hl in Hm as (df & dc & k & _ & -> & _ & Hdk & _).
    by eexists _, _.
  - intros nf nc Hn. rewrite Hl. split.
    + intros (df & dc & k & Hin & Heq & Hal).
      apply jugada_inj in Heq.
      destruct Hal as [Hk Hll]. destruct (Hll) as (Hdk & _).
      apply dentro_tablero_true in Hn, Hdk.
      apply casilla_inj in Heq as [-> ->]; [|lia..].
      exists df, dc, k. split; [by apply Hforma|done].
    + intros (df & dc & k & Hin & -> & -> & Hal). exists df, dc, k.
      split; [by apply Hforma|done].
Qed.

Lemma Torre_DIRECCIONES_forma (df dc : Z) :
  (df, dc) ∈ Atributos.Torre_DIRECCIONES ↔ paso_de_torre df dc.
Proof.
  unfold Atributos.Torre_DIRECCIONES, paso_de_torre.
  rewrite !elem_of_cons, elem_of_nil. split.
  - intros H. repeat destruct H as [H|H]; try done; injection H as -> ->; lia.
  - intros [[-> [->| ->]]|[-> [->| ->]]]; tauto.
Qed.

Lemma Alfil_DIRECCIONES_forma (df dc : Z) :
  (df, dc) ∈ Atributos.Alfil_DIRECCIONES ↔ paso_de_alfil df dc.
Proof.
  unfold Atributos.Alfil_DIRECCIONES, paso_de_alfil.
  rewrite !elem_of_cons, elem_of_nil. split.
  - intros H. repeat destruct H as [H|H]; try done; injection H as -> ->; lia.
  - intros [[->| ->] [->| ->]]; tauto.
Qed.

Lemma Queen_DIRECCIONES_forma (df dc : Z) :
  (df, dc) ∈ Atributos.Queen_DIRECCIONES ↔ paso_de_queen df dc.
Proof.
  unfold Atributos.Queen_DIRECCIONES, paso_de_queen, paso_de_torre,
    paso_de_alfil.
  rewrite !elem_of_cons, elem_of_nil. split.
  - intros H. repeat destruct H as [H|H]; try done; injection H as -> ->; lia.
  - intros [[[-> [->| ->]]|[-> [->| ->]]]|[[->| ->] [->| ->]]]; tauto.
Qed.

(** What the three generators do for an object of their own class. *)
Lemma torre_obtener_hijos_spec (self : Pieza) (f c : Z) (tablero : Tablero) :
  clase self = CTorre →
  tablero_valido tablero → dentro_tablero f c = true →
  genera_por_rayos paso_de_torre Torre.obtener_hijos self f c tablero.
Proof.
  intros Hclase. apply (hijos_deslizantes_spec Atributos.Torre_DIRECCIONES).
  - unfold Atributos.DIRECCIONES. by rewrite Hclase.
  - apply Torre_DIRECCIONES_forma.
Qed.

Lemma alfil_obtener_hijos_spec (self : Pieza) (f c : Z) (tablero : Tablero) :
  clase self = CAlfil →
  tablero_valido tablero → dentro_tablero f c = true →
  genera_por_rayos paso_de_alfil Alfil.obtener_hijos self f c tablero.
Proof.
  intros Hclase. apply (hijos_deslizantes_spec Atributos.Alfil_DIRECCIONES).
  - unfold Atributos.DIRECCIONES. by rewrite Hclase.
  - apply Alfil_DIRECCIONES_forma.
Qed.

Lemma queen_obtener_hijos_spec (self : Pieza) (f c : Z) (tablero : Tablero) :
  clase self = CQueen →
  tablero_valido tablero → dentro_tablero f c = true →
  genera_por_rayos paso_de_queen Queen.obtener_hijos self f c tablero.
Proof.
  intros Hclase. apply (hijos_deslizantes_spec Atributos.Queen_DIRECCIONES).
  - unfold Atributos.DIRECCIONES. by rewrite Hclase.
  - apply Queen_DIRECCIONES_forma.
Qed.

(** C7: on the board of the program, for a rook, a bishop and a queen
    standing on any square, the generator of the piece returns, and a
    square is among its candidates exactly when it lies on one of the
    piece's rays (for the rook the four rays along the row and the column,
    one square per step; for the bishop the four diagonals; for the queen
    all eight), at most seven steps away, with every square before it on
    that ray empty, and is itself empty or held by the enemy.  So nothing
    is generated behind the first occupied square of a ray, and that square
    is a candidate exactly when the enemy holds it. *)
Theorem C7_deslizantes_no_saltan (torre alfil queen : Pieza) (f c : Z)
    (tablero : Tablero) :
  clase torre = CTorre → clase alfil = CAlfil → clase queen = CQueen →
  tablero_valido tablero → dentro_tablero f c = true →
  genera_por_rayos paso_de_torre Torre.obtener_hijos torre f c tablero ∧
  genera_por_rayos paso_de_alfil Alfil.obtener_hijos alfil f c tablero ∧
  genera_por_rayos paso_de_queen Queen.obtener_hijos queen f c tablero.
Proof.
  intros Htorre Halfil Hqueen Hval Hd. split; [|split].
  - by apply torre_obtener_hijos_spec.
  - by apply alfil_obtener_hijos_spec.
  - by apply queen_obtener_hijos_spec.
Qed.

Lemma C7_deslizantes_no_saltan_witness :
  clase (Torre.__init__ "B" 1) = CTorre ∧
  clase (Alfil.__init__ "B" 1) = CAlfil ∧
  clase (Queen.__init__ "B" 1) = CQueen ∧
  tablero_valido tablero_enroque ∧ dentro_tablero 7 0 = true ∧
  genera_por_rayos paso_de_torre Torre.obtener_hijos
                   (Torre.__init__ "B" 1) 7 0 tablero_enroque ∧
  genera_por_rayos paso_de_alfil Alfil.obtener_hijos
                   (Alfil.__init__ "B" 1) 7 0 tablero_enroque ∧
  genera_por_rayos paso_de_queen Queen.obtener_hijos
                   (Queen.__init__ "B" 1) 7 0 tablero_enroque.
Proof.
  split; [reflexivity|]. split; [reflexivity|]. split; [reflexivity|].
  split; [compute_done|]. split; [reflexivity|].
  apply (C7_deslizantes_no_saltan (Torre.__init__ "B" 1)
           (Alfil.__init__ "B" 1) (Queen.__init__ "B" 1) 7 0
           tablero_enroque).
  - reflexivity.
  - reflexivity.
  - reflexivity.
  - compute_done.
  - reflexivity.
Defined.

(** The rook on a1 of the castling board: its ray along the first rank
    stops before its own king on e1, and its ray up the a-file ends with
    the capture of the black rook on a8. *)
Example torre_a1 :
  Torre.obtener_hijos (Torre.__init__ "B" 1) (7, 0) tablero_enroque
  = Ok ["a1 b1"; "a1 c1"; "a1 d1"; "a1 a2"; "a1 a3"; "a1 a4"; "a1 a5";
        "a1 a6"; "a1 a7"; "a1 a8"].
Proof. vm_compute. reflexivity. Qed.

(** A bishop and a queen on a1 of the same board, and what the rook's
    function does with an object of another class: it casts the rays of
    that class, or finds no [DIRECCIONES]. *)
Example alfil_y_queen_a1 :
  Alfil.obtener_hijos (Alfil.__init__ "B" 1) (7, 0) tablero_enroque
  = Ok ["a1 b2"; "a1 c3"; "a1 d4"; "a1 e5"; "a1 f6"; "a1 g7"; "a1 h8"] ∧
  Queen.obtener_hijos (Queen.__init__ "B" 1) (7, 0) tablero_enroque
  = Ok ["a1 b1"; "a1 c1"; "a1 d1"; "a1 a2"; "a1 a3"; "a1 a4"; "a1 a5";
        "a1 a6"; "a1 a7"; "a1 a8"; "a1 b2"; "a1 c3"; "a1 d4"; "a1 e5";
        "a1 f6"; "a1 g7"; "a1 h8"] ∧
  Torre.obtener_hijos (Alfil.__init__ "B" 1) (7, 0) tablero_enroque
  = Alfil.obtener_hijos (Alfil.__init__ "B" 1) (7, 0) tablero_enroque ∧
  Torre.obtener_hijos (Caballo.__init__ "B" 1) (7, 0) tablero_enroque
  = Lanza AttributeError.
Proof. repeat split; vm_compute; reflexivity. Qed.

(** ** Pawns *)

(** One turn of the loop over the two capture diagonals. *)
Lemma peon_diagonal_spec (self : Pieza) (origen : string) (tablero : Tablero)
    (f c direccion dc : Z) (movimientos : list string) :
  tablero_valido tablero →
  ∃ l,
    (if dentro_tablero (f + direccion) (c + dc) then
       pieza ← np_get tablero (f + direccion) (c + dc);
       if decide (pieza = "...") then Ok movimientos
       else
         c0 ← str_indice pieza 0;
         if decide (String c0 "" ≠ color self) then
           n ← posicion_a_notacion (f + direccion) (c + dc);
           Ok (movimientos ++ [jugada origen n])
         else Ok movimientos
     else Ok movimientos) = Ok (movimientos ++ l) ∧
    ∀ m, m ∈ l ↔
         m = jugada origen (casilla (f + direccion) (c + dc)) ∧
         dentro_tablero (f + direccion) (c + dc) = true ∧
         ∃ p, np_get tablero (f + direccion) (c + dc) = Ok p ∧
              enemiga (color self) p.
Proof.
  intros [H8 Hnv].
  assert (∀ P : string → Prop, (∀ m, ¬ P m) →
            ∃ l, Ok movimientos = Ok (movimientos ++ l) ∧ ∀ m, m ∈ l ↔ P m)
    as Hno.
  { intros P HP. exists []. rewrite app_nil_r. split; [done|]. intros m.
    rewrite elem_of_nil. split; [done|apply HP]. }
  destruct (dentro_tablero (f + direccion) (c + dc)) eqn:Ed.
  - destruct (np_get_dentro tablero _ _ H8 Ed) as (p & Hp & _).
    destruct (np_get_no_vacia tablero _ _ p Hnv Hp) as [c0 Hc0].
    apply dentro_tablero_true in Ed as Hdentro.
    rewrite Hp. res_simpl. case_decide as Hvac.
    + apply Hno. intros m (_ & _ & p' & [= <-] & Hp' & _). done.
    + rewrite Hc0. res_simpl. case_decide as Hcol.
      * rewrite posicion_a_notacion_casilla by lia. res_simpl.
        eexists. split; [done|]. intros m.
        rewrite elem_of_cons, elem_of_nil. split.
        -- intros [-> | []]. split; [done|]. split; [done|].
           exists p. split; [done|]. split; [done|]. by exists c0.
        -- intros (-> & _). by left.
      * apply Hno. intros m (_ & _ & p' & [= <-] & _ & c0' & Hc0' & Hcol').
        destruct Hcol. congruence.
  - apply Hno. intros m (_ & [=] & _).
Qed.

(** The candidates of a pawn: the one-square advance, the two-square
    advance and the two diagonal captures, each under its condition. *)
Lemma peon_hijos_spec (self : Pieza) (f c direccion fila_inicial : Z)
    (reciente : bool) (tablero : Tablero) :
  tablero_valido tablero → dentro_tablero f c = true →
  clase self = CPeon direccion fila_inicial reciente →
  ∃ movimientos,
    Peon.obtener_hijos self (f, c) tablero = Ok movimientos ∧
    ∀ m, m ∈ movimientos ↔
      (m = jugada (casilla f c) (casilla (f + direccion) c) ∧
       dentro_tablero (f + direccion) c = true ∧
       vacia tablero (f + direccion) c)
      ∨ (m = jugada (casilla f c) (casilla (f + 2 * direccion) c) ∧
         dentro_tablero (f + direccion) c = true ∧
         vacia tablero (f + direccion) c ∧
         movida self = false ∧ f = fila_inicial ∧
         dentro_tablero (f + 2 * direccion) c = true ∧
         vacia tablero (f + 2 * direccion) c)
      ∨ (∃ dc, (dc = -1 ∨ dc = 1) ∧
           m = jugada (casilla f c) (casilla (f + direccion) (c + dc)) ∧
           dentro_tablero (f + direccion) (c + dc) = true ∧
           ∃ p, np_get tablero (f + direccion) (c + dc) = Ok p ∧
                enemiga (color self) p).
Proof.
  intros Hval Hd Hclase. destruct (Hval) as [H8 Hnv].
  apply dentro_tablero_true in Hd as Hfc.
  unfold Peon.obtener_hijos.
  rewrite posicion_a_notacion_casilla by lia. res_simpl. rewrite Hclase.
  set (origen := casilla f c).
  set (A1 := λ m, m = jugada origen (casilla (f + direccion) c) ∧
                  dentro_tablero (f + direccion) c = true ∧
                  vacia tablero (f + direccion) c).
  set (A2 := λ m, m = jugada origen (casilla (f + 2 * direccion) c) ∧
                  dentro_tablero (f + direccion) c = true ∧
                  vacia tablero (f + direccion) c ∧
                  movida self = false ∧ f = fila_inicial ∧
                  dentro_tablero (f + 2 * direccion) c = true ∧
                  vacia tablero (f + 2 * direccion) c).
  match goal with
  | |- ∃ _, (?adelante ≫= _) = _ ∧ _ =>
      assert (∃ l, adelante = Ok l ∧ ∀ m, m ∈ l ↔ A1 m ∨ A2 m)
        as (l0 & -> & Hl0)
  end.
  { destruct (dentro_tablero (f + direccion) c) eqn:Ed1.
    - destruct (np_get_dentro tablero _ _ H8 Ed1) as (p & Hp & _).
      rewrite Hp. res_simpl. case_decide as Hvac.
      + subst p. rewrite !posicion_a_notacion_casilla by lia. res_simpl.
        assert (∀ m, A1 m ↔ m = jugada origen (casilla (f + direccion) c))
          as HA1.
        { intros m. unfold A1. split; [by intros (-> & _)|]. by intros ->. }
        assert (∀ P : Prop, ¬ P →
                  ∃ l, Ok [jugada origen (casilla (f + direccion) c)] = Ok l ∧
                       ∀ m, m ∈ l ↔ A1 m ∨ A2 m ∧ P) as Hsolo.
        { intros P HP. eexists. split; [done|]. intros m.
          rewrite elem_of_cons, elem_of_nil, HA1. tauto. }
        destruct (movida self) eqn:Emov; cbn [negb andb].
        { destruct (Hsolo False) as (l & Hl & Hm); [tauto|].
          exists l. split; [done|]. intros m. rewrite Hm.
          unfold A2. intuition congruence. }
        destruct (f =? fila_inicial) eqn:Efi.
        2:{ apply Z.eqb_neq in Efi.
            destruct (Hsolo False) as (l & Hl & Hm); [tauto|].
            exists l. split; [done|]. intros m. rewrite Hm.
            unfold A2. intuition congruence. }
        apply Z.eqb_eq in Efi.
        destruct (dentro_tablero (f + 2 * direccion) c) eqn:Ed2.
        2:{ destruct (Hsolo False) as (l & Hl & Hm); [tauto|].
            exists l. split; [done|]. intros m. rewrite Hm.
            unfold A2. intuition congruence. }
        destruct (np_get_dentro tablero _ _ H8 Ed2) as (p2 & Hp2 & _).
        rewrite Hp2. res_simpl. case_decide as Hvac2.
        * subst p2. eexists. split; [done|]. intros m.
          rewrite elem_of_app, !elem_of_cons, !elem_of_nil, HA1.
          unfold A2, vacia. rewrite Hp, Hp2. intuition.
        * destruct (Hsolo False) as (l & Hl & Hm); [tauto|].
          exists l. split; [done|]. intros m. rewrite Hm.
          unfold A2, vacia. rewrite Hp2. intuition congruence.
      + exists []. split; [done|]. intros m. rewrite elem_of_nil.
        unfold A1, A2, vacia. rewrite Hp. intuition congruence.
    - exists []. split; [done|]. intros m. rewrite elem_of_nil.
      unfold A1, A2. intuition congruence. }
  res_simpl. cbn [para].
  destruct (peon_diagonal_spec self origen tablero f c direccion (-1) l0 Hval)
    as (l1 & -> & Hl1).
  res_simpl.
  destruct (peon_diagonal_spec self origen tablero f c direccion 1
                               (l0 ++ l1) Hval) as (l2 & -> & Hl2).
  res_simpl. eexists. split; [done|]. intros m.
  rewrite !elem_of_app, Hl0, Hl1, Hl2. fold (A1 m) (A2 m). split.
  - intros [[[H|H]|H]|H]; [by left|by right; left|right; right..].
    + exists (-1). split; [by left|done].
    + exists 1. split; [by right|done].
  - intros [H|[H|(dc & [->| ->] & H)]]; tauto.
Qed.

Lemma direccion_fila_inicial (color : string) :
  obtener_direccion_color color = -1 ∧ obtener_fila_inicial color = 6
  ∨ obtener_direccion_color color = 1 ∧ obtener_fila_inicial color = 1.
Proof.
  unfold obtener_direccion_color, obtener_fila_inicial.
  case_decide; [by left|by right].
Qed.

(** When each of the two advances is generated. *)
Lemma peon_avances (self : Pieza) (f c : Z) (tablero : Tablero) :
  tablero_valido tablero → dentro_tablero f c = true →
  peon_construido self →
  ∃ movimientos,
    Peon.obtener_hijos self (f, c) tablero = Ok movimientos ∧
    (avance1 self f c ∈ movimientos ↔
     dentro_tablero (f + obtener_direccion_color (color self)) c = true ∧
     libre1 self tablero f c) ∧
    (avance2 self f c ∈ movimientos ↔
     movida self = false ∧ f = obtener_fila_inicial (color self) ∧
     libre1 self tablero f c ∧ libre2 self tablero f c).
Proof.
  intros Hval Hd [reciente Hclase].
  destruct (peon_hijos_spec self f c _ _ _ tablero Hval Hd Hclase)
    as (movimientos & Hmov & Hm).
  apply dentro_tablero_true in Hd as Hfc.
  exists movimientos. split; [done|].
  unfold avance1, avance2, libre1, libre2.
  pose proof (direccion_fila_inicial (color self)) as Hdir.
  set (dir := obtener_direccion_color (color self)) in *.
  set (fi := obtener_fila_inicial (color self)) in *.
  split; rewrite Hm; split.
  - intros [(_ & H1 & H2) | [(Heq & _) | (dc & Hdc & Heq & Hin & _)]].
    + done.
    + apply jugada_inj, casilla_inj in Heq; lia.
    + apply dentro_tablero_true in Hin.
      apply jugada_inj, casilla_inj in Heq; lia.
  - intros [H1 H2]. by left.
  - intros [(Heq & _) | [H | (dc & Hdc & Heq & Hin & _)]].
    + apply jugada_inj, casilla_inj in Heq; lia.
    + tauto.
    + apply dentro_tablero_true in Hin.
      apply jugada_inj, casilla_inj in Heq; lia.
  - intros (Hmv & Hfi & H1 & H2). right. left.
    repeat split; try done; apply dentro_tablero_true; lia.
Qed.

(** C8, amended.  A pawn that stands on the starting rank of its colour
    and whose [movida] flag is false generates both the one-square and the
    two-square advance when the two squares ahead are empty.  When the
    square one step ahead is not empty, a pawn on its starting rank
    generates neither advance, whatever its flag. *)
Theorem C8_peon_en_fila_inicial (self : Pieza) (f c : Z) (tablero : Tablero) :
  tablero_valido tablero → dentro_tablero f c = true →
  peon_construido self →
  f = obtener_fila_inicial (color self) →
  ∃ movimientos,
    Peon.obtener_hijos self (f, c) tablero = Ok movimientos ∧
    (movida self = false →
     libre1 self tablero f c → libre2 self tablero f c →
     avance1 self f c ∈ movimientos ∧ avance2 self f c ∈ movimientos) ∧
    (¬ libre1 self tablero f c →
     (avance1 self f c ∉ movimientos) ∧ (avance2 self f c ∉ movimientos)).
Proof.
  intros Hval Hd Hpeon Hfi.
  destruct (peon_avances self f c tablero Hval Hd Hpeon)
    as (movimientos & Hmov & H1 & H2).
  exists movimientos. split; [done|].
  apply dentro_tablero_true in Hd as Hfc.
  pose proof (direccion_fila_inicial (color self)) as Hdir.
  rewrite H1, H2. split.
  - intros Hmv Hl1 Hl2. repeat split; try done.
    apply dentro_tablero_true. lia.
  - intros Hl1. tauto.
Qed.

(** C10: the two-square advance is generated exactly when the pawn's
    [movida] flag is false, the pawn stands on the starting rank of its
    colour and the two squares ahead are empty.  A pawn whose flag is true
    and which stands on its starting rank with both squares ahead empty
    generates the one-square advance and not the two-square advance. *)
Theorem C10_avance_doble_exige_no_movida (self : Pieza) (f c : Z)
    (tablero : Tablero) :
  tablero_valido tablero → dentro_tablero f c = true →
  peon_construido self →
  ∃ movimientos,
    Peon.obtener_hijos self (f, c) tablero = Ok movimientos ∧
    (avance2 self f c ∈ movimientos ↔
     movida self = false ∧ f = obtener_fila_inicial (color self) ∧
     libre1 self tablero f c ∧ libre2 self tablero f c) ∧
    (movida self = true → f = obtener_fila_inicial (color self) →
     libre1 self tablero f c → libre2 self tablero f c →
     avance1 self f c ∈ movimientos ∧ (avance2 self f c ∉ movimientos)).
Proof.
  intros Hval Hd Hpeon.
  destruct (peon_avances self f c tablero Hval Hd Hpeon)
    as (movimientos & Hmov & H1 & H2).
  exists movimientos. split; [done|]. split; [done|].
  intros Hmv Hfi Hl1 Hl2.
  apply dentro_tablero_true in Hd as Hfc.
  pose proof (direccion_fila_inicial (color self)) as Hdir.
  rewrite H1, H2. split.
  - split; [|done]. apply dentro_tablero_true. lia.
  - intros (Hmv' & _). congruence.
Qed.

Lemma C8_peon_en_fila_inicial_witness :
  tablero_valido AgenteAjedrez.tablero_inicial ∧
  dentro_tablero 6 4 = true ∧
  peon_construido (Peon.__init__ "B" 5) ∧
  6 = obtener_fila_inicial (color (Peon.__init__ "B" 5)) ∧
  ∃ movimientos,
    Peon.obtener_hijos (Peon.__init__ "B" 5) (6, 4)
                       AgenteAjedrez.tablero_inicial = Ok movimientos ∧
    (movida (Peon.__init__ "B" 5) = false →
     libre1 (Peon.__init__ "B" 5) AgenteAjedrez.tablero_inicial 6 4 →
     libre2 (Peon.__init__ "B" 5) AgenteAjedrez.tablero_inicial 6 4 →
     avance1 (Peon.__init__ "B" 5) 6 4 ∈ movimientos ∧
     avance2 (Peon.__init__ "B" 5) 6 4 ∈ movimientos) ∧
    (¬ libre1 (Peon.__init__ "B" 5) AgenteAjedrez.tablero_inicial 6 4 →
     (avance1 (Peon.__init__ "B" 5) 6 4 ∉ movimientos) ∧
     (avance2 (Peon.__init__ "B" 5) 6 4 ∉ movimientos)).
Proof.
  split; [compute_done|]. split; [reflexivity|].
  split; [by exists false|]. split; [reflexivity|].
  apply (C8_peon_en_fila_inicial (Peon.__init__ "B" 5) 6 4
                                 AgenteAjedrez.tablero_inicial).
  - compute_done.
  - reflexivity.
  - by exists false.
  - reflexivity.
Defined.

Lemma C10_avance_doble_exige_no_movida_witness :
  tablero_valido AgenteAjedrez.tablero_inicial ∧
  dentro_tablero 6 4 = true ∧
  peon_construido (con_movida true (Peon.__init__ "B" 5)) ∧
  ∃ movimientos,
    Peon.obtener_hijos (con_movida true (Peon.__init__ "B" 5)) (6, 4)
                       AgenteAjedrez.tablero_inicial = Ok movimientos ∧
    (avance2 (con_movida true (Peon.__init__ "B" 5)) 6 4 ∈ movimientos ↔
     movida (con_movida true (Peon.__init__ "B" 5)) = false ∧
     6 = obtener_fila_inicial (color (con_movida true (Peon.__init__ "B" 5))) ∧
     libre1 (con_movida true (Peon.__init__ "B" 5))
            AgenteAjedrez.tablero_inicial 6 4 ∧
     libre2 (con_movida true (Peon.__init__ "B" 5))
            AgenteAjedrez.tablero_inicial 6 4) ∧
    (movida (con_movida true (Peon.__init__ "B" 5)) = true →
     6 = obtener_fila_inicial (color (con_movida true (Peon.__init__ "B" 5))) →
     libre1 (con_movida true (Peon.__init__ "B" 5))
            AgenteAjedrez.tablero_inicial 6 4 →
     libre2 (con_movida true (Peon.__init__ "B" 5))
            AgenteAjedrez.tablero_inicial 6 4 →
     avance1 (con_movida true (Peon.__init__ "B" 5)) 6 4 ∈ movimientos ∧
     (avance2 (con_movida true (Peon.__init__ "B" 5)) 6 4 ∉ movimientos)).
Proof.
  split; [compute_done|]. split; [reflexivity|]. split; [by exists false|].
  apply (C10_avance_doble_exige_no_movida
           (con_movida true (Peon.__init__ "B" 5)) 6 4
           AgenteAjedrez.tablero_inicial).
  - compute_done.
  - reflexivity.
  - by exists false.
Defined.

(** A pawn that has moved and stands on its starting square again. *)
Example peon_movido_en_e2 :
  Peon.obtener_hijos (con_movida true (Peon.__init__ "B" 5)) (6, 4)
                     AgenteAjedrez.tablero_inicial = Ok ["e2 e3"].
Proof. vm_compute. reflexivity. Qed.

(** ** Writing the board *)

Lemma np_get_8x8 (tablero : Tablero) (f c : Z) (p : string) :
  tablero_8x8 tablero →
  (np_get tablero f c = Ok p ↔
   ∃ i j, indice_normal 8 f = Ok i ∧ indice_normal 8 c = Ok j ∧
          celda tablero i j = Some p).
Proof.
  intros H8. destruct (H8) as [Hlen _]. rewrite np_get_Ok. split.
  - intros (i & j & fila & Hi & Hf & Hj & Hp).
    rewrite (fila_8x8 _ _ _ H8 Hf) in Hj. rewrite Hlen in Hi.
    exists i, j. unfold celda. rewrite Hf. done.
  - intros (i & j & Hi & Hj & Hc). unfold celda in Hc.
    destruct (tablero !! i) as [fila|] eqn:Hf; [|done]. simpl in Hc.
    exists i, j, fila. rewrite (fila_8x8 _ _ _ H8 Hf), Hlen. done.
Qed.

Lemma np_set_8x8 (tablero tablero' : Tablero) (f c : Z) (v : string) :
  tablero_8x8 tablero →
  np_set tablero f c v = Ok tablero' →
  ∃ i j, indice_normal 8 f = Ok i ∧ indice_normal 8 c = Ok j ∧
         tablero_8x8 tablero' ∧
         ∀ i' j', celda tablero' i' j' =
                  if decide (i' = i ∧ j' = j) then Some v
                  else celda tablero i' j'.
Proof.
  intros H8 Hset. destruct (H8) as [Hlen Hfilas]. unfold np_set in Hset.
  apply bind_Ok in Hset as (i & Hi & Hset).
  apply bind_Ok in Hset as (fila & Hfila & Hset).
  apply bind_Ok in Hset as (j & Hj & [= <-]).
  apply lista_indice_Ok in Hfila as (i0 & Hi0 & Hfila).
  assert (i0 = i) as -> by congruence.
  pose proof (fila_8x8 _ _ _ H8 Hfila) as Hlf.
  rewrite Hlen in Hi. rewrite Hlf in Hj.
  apply indice_normal_Ok in Hi as Hi'. apply indice_normal_Ok in Hj as Hj'.
  exists i, j. split; [done|]. split; [done|]. split.
  - split; [by rewrite length_insert|].
    apply Forall_insert; [done|]. by rewrite length_insert.
  - intros i' j'. unfold celda. destruct (decide (i' = i)) as [->|Hne].
    + rewrite list_lookup_insert_eq by lia. simpl.
      destruct (decide (j' = j)) as [->|Hnj].
      * rewrite list_lookup_insert_eq by lia. by rewrite decide_True.
      * rewrite list_lookup_insert_ne by done. rewrite Hfila. simpl.
        rewrite decide_False; [done|tauto].
    + rewrite list_lookup_insert_ne by done.
      rewrite decide_False; [done|tauto].
Qed.

(** ** Synchronising the registry *)

Lemma rango_0_8 : rango 0 8 = [0; 1; 2; 3; 4; 5; 6; 7].
Proof. reflexivity. Qed.

(** The inner loop over the columns of row [i]. *)
Lemma piezas_en_fila (tablero : Tablero) (i : Z) :
  tablero_8x8 tablero → 0 ≤ i < 8 →
  ∀ (cols : list Z) (acc : gset string),
    (∀ j, j ∈ cols → 0 ≤ j < 8) →
    ∃ S, para (λ (acc : gset string) (j : Z),
                 pieza_id ← np_get tablero i j;
                 if decide (pieza_id ≠ "...") then Ok ({[pieza_id]} ∪ acc)
                 else Ok acc) acc cols = Ok S ∧
         ∀ x, x ∈ S ↔
              x ∈ acc ∨
              x ≠ "..." ∧ ∃ j, j ∈ cols ∧
                celda tablero (Z.to_nat i) (Z.to_nat j) = Some x.
Proof.
  intros H8 Hi cols. induction cols as [|j cols IH]; intros acc Hcols.
  { exists acc. split; [done|]. intros x. split; [by left|].
    intros [H|(_ & j & Hj & _)]; [done|]. by apply elem_of_nil in Hj. }
  cbn [para].
  destruct (np_get_dentro tablero i j H8) as (p & Hp & Hcel).
  { apply dentro_tablero_true. split; [done|]. apply Hcols, list_elem_of_here. }
  rewrite Hp. res_simpl.
  assert (∀ j', j' ∈ cols → 0 ≤ j' < 8) as Hcols'.
  { intros j' Hj'. apply Hcols. by apply list_elem_of_further. }
  case_decide as Hvac; res_simpl.
  - destruct (IH ({[p]} ∪ acc) Hcols') as (S & -> & HS).
    exists S. split; [done|]. intros x. rewrite HS, elem_of_union,
      elem_of_singleton. split.
    + intros [[->|H]|(Hx & j' & Hj' & Hc)].
      * right. split; [done|]. exists j. split; [apply list_elem_of_here|done].
      * by left.
      * right. split; [done|]. exists j'.
        split; [by apply list_elem_of_further|done].
    + intros [H|(Hx & j' & Hj' & Hc)]; [by left; right|].
      apply elem_of_cons in Hj' as [->|Hj'].
      * left. left. congruence.
      * right. split; [done|]. by exists j'.
  - destruct (IH acc Hcols') as (S & -> & HS).
    exists S. split; [done|]. intros x. rewrite HS. split.
    + intros [H|(Hx & j' & Hj' & Hc)]; [by left|].
      right. split; [done|]. exists j'.
      split; [by apply list_elem_of_further|done].
    + intros [H|(Hx & j' & Hj' & Hc)]; [by left|].
      apply elem_of_cons in Hj' as [->|Hj'].
      * congruence.
      * right. split; [done|]. by exists j'.
Qed.

Lemma piezas_en_filas (tablero : Tablero) :
  tablero_8x8 tablero →
  ∀ (filas : list Z) (acc : gset string),
    (∀ i, i ∈ filas → 0 ≤ i < 8) →
    ∃ S, para (λ (acc : gset string) (i : Z),
                 para (λ (acc : gset string) (j : Z),
                         pieza_id ← np_get tablero i j;
                         if decide (pieza_id ≠ "...")
                         then Ok ({[pieza_id]} ∪ acc) else Ok acc)
                      acc (rango 0 8)) acc filas = Ok S ∧
         ∀ x, x ∈ S ↔
              x ∈ acc ∨
              x ≠ "..." ∧ ∃ i j, i ∈ filas ∧ 0 ≤ j < 8 ∧
                celda tablero (Z.to_nat i) (Z.to_nat j) = Some x.
Proof.
  intros H8 filas. induction filas as [|i filas IH]; intros acc Hfilas.
  { exists acc. split; [done|]. intros x. split; [by left|].
    intros [H|(_ & i & j & Hi & _)]; [done|]. by apply elem_of_nil in Hi. }
  cbn [para].
  assert (∀ j, j ∈ rango 0 8 → 0 ≤ j < 8) as Hcols.
  { intros j. rewrite rango_0_8, !elem_of_cons, elem_of_nil. lia. }
  destruct (piezas_en_fila tablero i H8 (Hfilas i (list_elem_of_here _ _))
                           (rango 0 8) acc Hcols) as (S1 & -> & HS1).
  res_simpl.
  destruct (IH S1) as (S & -> & HS).
  { intros i' Hi'. apply Hfilas. by apply list_elem_of_further. }
  exists S. split; [done|]. intros x. rewrite HS, HS1. split.
  - intros [[H|(Hx & j & Hj & Hc)]|(Hx & i' & j & Hi' & Hj & Hc)].
    + by left.
    + right. split; [done|]. exists i, j.
      split; [apply list_elem_of_here|]. split; [by apply Hcols|done].
    + right. split; [done|]. exists i', j.
      split; [by apply list_elem_of_further|done].
  - intros [H|(Hx & i' & j & Hi' & Hj & Hc)]; [by left; left|].
    apply elem_of_cons in Hi' as [->|Hi'].
    + left. right. split; [done|]. exists j. split; [|done].
      rewrite rango_0_8, !elem_of_cons, elem_of_nil. lia.
    + right. split; [done|]. by exists i', j.
Qed.

Lemma piezas_en_tablero_spec (tablero : Tablero) :
  tablero_8x8 tablero →
  ∃ S, GestorPiezas.piezas_en_tablero tablero = Ok S ∧
       ∀ x, x ∈ S ↔ ocupante tablero x.
Proof.
  intros H8. unfold GestorPiezas.piezas_en_tablero.
  destruct (piezas_en_filas tablero H8 (rango 0 8) ∅) as (S & -> & HS).
  { intros i. rewrite rango_0_8, !elem_of_cons, elem_of_nil. lia. }
  exists S. split; [done|]. intros x. rewrite HS. unfold ocupante. split.
  - intros [H|(Hx & i & j & Hi & Hj & Hc)]; [by apply elem_of_empty in H|].
    split; [done|]. exists (Z.to_nat i), (Z.to_nat j).
    rewrite rango_0_8, !elem_of_cons, elem_of_nil in Hi.
    split; [lia|]. split; [lia|done].
  - intros (Hx & i & j & Hi & Hj & Hc). right. split; [done|].
    exists (Z.of_nat i), (Z.of_nat j). rewrite !Nat2Z.id.
    split; [|split; [lia|done]].
    rewrite rango_0_8, !elem_of_cons, elem_of_nil. lia.
Qed.

Lemma foldl_delete_lookup (l : list string) (piezas : gmap string Pieza)
    (k : string) :
  foldl (λ piezas pieza_id, delete pieza_id piezas) piezas l !! k =
  if decide (k ∈ l) then None else piezas !! k.
Proof.
  revert piezas. induction l as [|y l IH]; intros piezas; cbn [foldl].
  - case_decide as H; [by apply elem_of_nil in H|done].
  - rewrite IH. destruct (decide (k ∈ l)) as [Hin|Hnin];
      destruct (decide (k ∈ y :: l)) as [Hin'|Hnin']; try done.
    + destruct Hnin'. by apply list_elem_of_further.
    + apply elem_of_cons in Hin' as [->|?]; [|done].
      apply lookup_delete_eq.
    + rewrite lookup_delete_ne; [done|]. intros ->. apply Hnin'.
      apply list_elem_of_here.
Qed.

(** Synchronising keeps the entries of the pieces that stand on the board,
    as they are, and drops the others. *)
Lemma sincronizar_spec (piezas : gmap string Pieza) (tablero : Tablero) :
  tablero_8x8 tablero →
  ∃ piezas',
    GestorPiezas.sincronizar_con_tablero piezas tablero = Ok piezas' ∧
    ∀ k, (ocupante tablero k → piezas' !! k = piezas !! k) ∧
         (¬ ocupante tablero k → piezas' !! k = None).
Proof.
  intros H8. unfold GestorPiezas.sincronizar_con_tablero.
  destruct (piezas_en_tablero_spec tablero H8) as (S & -> & HS). res_simpl.
  eexists. split; [done|]. intros k. rewrite foldl_delete_lookup.
  rewrite <- HS. split; intros Hk.
  - rewrite decide_False; [done|].
    rewrite elem_of_elements, elem_of_difference. tauto.
  - destruct (decide (k ∈ elements (dom piezas ∖ S))) as [|Hnin]; [done|].
    rewrite elem_of_elements, elem_of_difference, elem_of_dom in Hnin.
    destruct (piezas !! k) eqn:E; [|done]. destruct Hnin. split; [|done].
    by eexists.
Qed.

(** ** The executor *)

(** What a returning call of the executor has done. *)
Lemma ejecutar_movimiento_inv (piezas : gmap string Pieza)
    (movimiento : MovimientoAjedrez) (tablero tablero' : Tablero)
    (piezas' : gmap string Pieza) :
  tablero_8x8 tablero →
  GestorPiezas.ejecutar_movimiento piezas movimiento tablero
  = Ok (tablero', piezas') →
  ∃ f_desde c_desde f_hasta c_hasta pieza_id pieza_destino_id
    (i_d j_d i_h j_h : nat) (piezas2 : gmap string Pieza),
    notacion_a_posicion (desde movimiento) = Ok (f_desde, c_desde) ∧
    notacion_a_posicion (hasta movimiento) = Ok (f_hasta, c_hasta) ∧
    indice_normal 8 f_desde = Ok i_d ∧ indice_normal 8 c_desde = Ok j_d ∧
    indice_normal 8 f_hasta = Ok i_h ∧ indice_normal 8 c_hasta = Ok j_h ∧
    celda tablero i_d j_d = Some pieza_id ∧
    celda tablero i_h j_h = Some pieza_destino_id ∧
    tablero_8x8 tablero' ∧
    (∀ k, (ocupante tablero' k → piezas' !! k = piezas2 !! k) ∧
          (¬ ocupante tablero' k → piezas' !! k = None)) ∧
    let piezas1 :=
      if decide (pieza_destino_id ≠ "..." ∧ tipo movimiento ≠ ENROQUE)
      then delete pieza_destino_id piezas else piezas in
    match tipo movimiento with
    | PROMOCION =>
        ∃ c0 max_num clase,
          str_indice pieza_id 0 = Ok c0 ∧
          info_adicional movimiento ≫= GestorPiezas.PIEZAS_FACTORY
          = Some clase ∧
          let color := String c0 "" in
          let nuevo_id :=
            color +:+ GestorPiezas.formato (info_adicional movimiento)
                  +:+ pretty (max_num + 1) in
          piezas2 = <[nuevo_id := clase color (max_num + 1)]>
                      (delete pieza_id piezas1) ∧
          ∀ i j, celda tablero' i j =
                 if decide (i = i_h ∧ j = j_h) then Some nuevo_id
                 else if decide (i = i_d ∧ j = j_d) then Some "..."
                 else celda tablero i j
    | ENROQUE => tablero' = tablero ∧ piezas2 = piezas1
    | _ =>
        ∃ p,
          piezas !! pieza_id = Some p ∧
          piezas2 =
            (if decide (is_Some (piezas1 !! pieza_id))
             then <[pieza_id :=
                      con_movida true
                        (if es_Peon p
                         then con_movimiento_doble_reciente
                                (Z.abs (f_hasta - f_desde) =? 2) p
                         else p)]> piezas1
             else piezas1) ∧
          ∀ i j, celda tablero' i j =
                 if decide (i = i_d ∧ j = j_d) then Some "..."
                 else if decide (i = i_h ∧ j = j_h) then Some pieza_id
                 else celda tablero i j
    end.
Proof.
  intros H8 H. unfold GestorPiezas.ejecutar_movimiento in H.
  apply bind_Ok in H as ([f_desde c_desde] & Hd & H).
  apply bind_Ok in H as ([f_hasta c_hasta] & Hh & H).
  apply bind_Ok in H as (pieza_id & Hpid & H).
  apply bind_Ok in H as (pieza_destino_id & Hdest & H).
  cbv zeta in H.
  apply bind_Ok in H as ([nt piezas2] & Hm & H).
  apply bind_Ok in H as (ps & Hs & [= <- <-]).
  apply (np_get_8x8 _ _ _ _ H8) in Hpid as (i_d & j_d & Hid & Hjd & Hpid).
  apply (np_get_8x8 _ _ _ _ H8) in Hdest as (i_h & j_h & Hih & Hjh & Hdest).
  exists f_desde, c_desde, f_hasta, c_hasta, pieza_id, pieza_destino_id,
    i_d, j_d, i_h, j_h, piezas2.
  do 8 (split; [done|]).
  assert (tablero_8x8 nt →
          ∀ k, (ocupante nt k → ps !! k = piezas2 !! k) ∧
               (¬ ocupante nt k → ps !! k = None)) as Hsinc.
  { intros H8'. destruct (sincronizar_spec piezas2 nt H8') as (ps' & Hs' & Hk).
    rewrite Hs in Hs'. injection Hs' as <-. exact Hk. }
  destruct (tipo movimiento) eqn:Etipo.
  - (* NORMAL *)
    apply bind_Ok in Hm as (t1 & Ht1 & Hm).
    apply bind_Ok in Hm as (t2 & Ht2 & Hm).
    unfold GestorPiezas.get_pieza in Hm.
    destruct (piezas !! pieza_id) as [p|] eqn:Ep; [|discriminate].
    injection Hm as <- <-.
    apply (np_set_8x8 _ _ _ _ _ H8) in Ht1 as (i1 & j1 & Hi1 & Hj1 & H81 & Hc1).
    apply (np_set_8x8 _ _ _ _ _ H81) in Ht2 as (i2 & j2 & Hi2 & Hj2 & H82 & Hc2).
    assert (i1 = i_h) as -> by congruence.
    assert (j1 = j_h) as -> by congruence.
    assert (i2 = i_d) as -> by congruence.
    assert (j2 = j_d) as -> by congruence.
    split; [done|]. split; [by apply Hsinc|].
    exists p. split; [done|]. split; [done|].
    intros i j. rewrite Hc2, Hc1. done.
  - (* ENROQUE *)
    injection Hm as <- <-. split; [done|]. split; [by apply Hsinc|]. done.
  - (* EN_PASSANT *)
    apply bind_Ok in Hm as (t1 & Ht1 & Hm).
    apply bind_Ok in Hm as (t2 & Ht2 & Hm).
    unfold GestorPiezas.get_pieza in Hm.
    destruct (piezas !! pieza_id) as [p|] eqn:Ep; [|discriminate].
    injection Hm as <- <-.
    apply (np_set_8x8 _ _ _ _ _ H8) in Ht1 as (i1 & j1 & Hi1 & Hj1 & H81 & Hc1).
    apply (np_set_8x8 _ _ _ _ _ H81) in Ht2 as (i2 & j2 & Hi2 & Hj2 & H82 & Hc2).
    assert (i1 = i_h) as -> by congruence.
    assert (j1 = j_h) as -> by congruence.
    assert (i2 = i_d) as -> by congruence.
    assert (j2 = j_d) as -> by congruence.
    split; [done|]. split; [by apply Hsinc|].
    exists p. split; [done|]. split; [done|].
    intros i j. rewrite Hc2, Hc1. done.
  - (* PROMOCION *)
    apply bind_Ok in Hm as (c0 & Hc0 & Hm).
    apply bind_Ok in Hm as (max_num & Hmax & Hm). cbv zeta in Hm.
    destruct (info_adicional movimiento ≫= GestorPiezas.PIEZAS_FACTORY)
      as [clase|] eqn:Eclase; [|discriminate].
    apply bind_Ok in Hm as (t1 & Ht1 & Hm).
    apply bind_Ok in Hm as (t2 & Ht2 & [= <- <-]).
    apply (np_set_8x8 _ _ _ _ _ H8) in Ht1 as (i1 & j1 & Hi1 & Hj1 & H81 & Hc1).
    apply (np_set_8x8 _ _ _ _ _ H81) in Ht2 as (i2 & j2 & Hi2 & Hj2 & H82 & Hc2).
    assert (i1 = i_d) as -> by congruence.
    assert (j1 = j_d) as -> by congruence.
    assert (i2 = i_h) as -> by congruence.
    assert (j2 = j_h) as -> by congruence.
    split; [done|]. split; [by apply Hsinc|].
    exists c0, max_num, clase. split; [done|]. split; [done|].
    split; [done|]. intros i j. rewrite Hc2, Hc1. done.
Qed.

Lemma celda_ids_en (tablero : Tablero) (i j : nat) (x : string) :
  celda tablero i j = Some x → x ≠ "..." → x ∈ ids_en tablero.
Proof.
  unfold celda, ids_en. intros Hc Hx.
  destruct (tablero !! i) as [fila|] eqn:Hf; [|done]. simpl in Hc.
  apply list_elem_of_filter. split; [done|].
  apply list_elem_of_join. exists fila.
  split; by eapply list_elem_of_lookup_2.
Qed.

Lemma NoDup_filter_lookup (P : string → Prop) `{!∀ x, Decision (P x)}
    (l : list string) (j j' : nat) (x : string) :
  NoDup (filter P l) → l !! j = Some x → l !! j' = Some x → P x → j = j'.
Proof.
  revert j j'. induction l as [|a l IH]; intros j j' Hnd Hj Hj' HP.
  { by rewrite lookup_nil in Hj. }
  rewrite filter_cons in Hnd.
  assert (∀ k, l !! k = Some x → a = x → False) as Hfuera.
  { intros k Hk ->. rewrite decide_True in Hnd by done.
    apply NoDup_cons in Hnd as [Hnin _]. apply Hnin.
    apply list_elem_of_filter. split; [done|].
    by eapply list_elem_of_lookup_2. }
  assert (NoDup (filter P l)) as Hnd'.
  { case_decide; [by apply NoDup_cons in Hnd as [_ ?]|done]. }
  destruct j as [|j], j' as [|j']; simpl in Hj, Hj'.
  - done.
  - injection Hj as ->. by destruct (Hfuera j').
  - injection Hj' as ->. by destruct (Hfuera j).
  - f_equal. by apply IH.
Qed.

Lemma sin_duplicados_celda (tablero : Tablero) (i j i' j' : nat)
    (x : string) :
  sin_duplicados tablero →
  celda tablero i j = Some x → celda tablero i' j' = Some x → x ≠ "..." →
  i = i' ∧ j = j'.
Proof.
  unfold sin_duplicados, ids_en, celda. revert i i'.
  induction tablero as [|fila tablero IH]; intros i i' Hnd Hc Hc' Hx.
  { by rewrite lookup_nil in Hc. }
  change (mjoin (fila :: tablero)) with (fila ++ mjoin tablero) in Hnd.
  rewrite filter_app in Hnd. apply NoDup_app in Hnd as (Hnd1 & Hdis & Hnd2).
  assert (∀ k j0 j1, fila !! j0 = Some x →
            tablero !! k ≫= (λ fila0, fila0 !! j1) = Some x → False)
    as Hfuera.
  { intros k j0 j1 H0 H1. apply (Hdis x).
    - apply list_elem_of_filter. split; [done|].
      by eapply list_elem_of_lookup_2.
    - by apply (celda_ids_en tablero k j1). }
  destruct i as [|i], i' as [|i']; simpl in Hc, Hc'.
  - split; [done|].
    exact (NoDup_filter_lookup (λ x, x ≠ "...") fila j j' x Hnd1 Hc Hc' Hx).
  - by destruct (Hfuera i' j j').
  - by destruct (Hfuera i j' j).
  - destruct (IH i i' Hnd2 Hc Hc' Hx) as [-> ->]. done.
Qed.

Lemma todas_registradas_celda (piezas : gmap string Pieza)
    (tablero : Tablero) (i j : nat) (x : string) :
  todas_registradas piezas tablero →
  celda tablero i j = Some x → x ≠ "..." → is_Some (piezas !! x).
Proof.
  unfold todas_registradas. rewrite Forall_forall. intros Hreg Hc Hx.
  apply elem_of_dom, Hreg. by eapply celda_ids_en.
Qed.

(** C3, amended.  When every piece on the board has an entry in the
    registry and no id stands on two squares, then after any move on which
    the executor returns, of any of the four types, the ids of the registry
    are exactly the ids that stand on the returned board. *)
Theorem C3_registro_igual_a_tablero (piezas : gmap string Pieza)
    (movimiento : MovimientoAjedrez) (tablero tablero' : Tablero)
    (piezas' : gmap string Pieza) :
  tablero_8x8 tablero → sin_duplicados tablero →
  todas_registradas piezas tablero →
  GestorPiezas.ejecutar_movimiento piezas movimiento tablero
  = Ok (tablero', piezas') →
  ∀ x, x ∈ dom piezas' ↔ ocupante tablero' x.
Proof.
  intros H8 Hnd Hreg H.
  destruct (ejecutar_movimiento_inv _ _ _ _ _ H8 H)
    as (f_d & c_d & f_h & c_h & pid & dest & i_d & j_d & i_h & j_h & piezas2
        & _ & _ & _ & _ & _ & _ & Hpid & Hdest & H8' & Hsinc & Hcaso).
  destruct (piezas_en_tablero_spec tablero' H8') as (S & _ & HS).
  intros x. rewrite elem_of_dom. split.
  { intros Hx. destruct (decide (x ∈ S)) as [|Hnin]; [by apply HS|].
    destruct (Hsinc x) as [_ Hno]. rewrite Hno in Hx; [by destruct Hx|].
    by rewrite <- HS. }
  intros Hocc. destruct (Hsinc x) as [Hsi _]. rewrite (Hsi Hocc).
  destruct Hocc as (Hx & i & j & _ & _ & Hc). cbv zeta in Hcaso.
  set (piezas1 := if decide (dest ≠ "..." ∧ tipo movimiento ≠ ENROQUE)
                  then delete dest piezas else piezas) in Hcaso.
  assert (∀ y i0 j0, celda tablero i0 j0 = Some y → y ≠ "..." →
            ¬ (i0 = i_h ∧ j0 = j_h) → is_Some (piezas1 !! y)) as Hp1.
  { clear Hcaso. intros y i0 j0 Hy Hne Hpos. unfold piezas1.
    case_decide as Hcap.
    - rewrite lookup_delete_ne; [by eapply todas_registradas_celda|].
      intros ->. apply Hpos.
      by eapply (sin_duplicados_celda tablero i0 j0 i_h j_h y).
    - by eapply todas_registradas_celda. }
  destruct (tipo movimiento) eqn:Etipo.
  - (* NORMAL *)
    destruct Hcaso as (p & Ep & -> & Hcel). rewrite Hcel in Hc.
    destruct (decide (i = i_d ∧ j = j_d)) as [Hd|Hd]; [congruence|].
    destruct (decide (i = i_h ∧ j = j_h)) as [Hh|Hh].
    + injection Hc as <-. destruct Hh as [-> ->].
      assert (is_Some (piezas1 !! pid)) as Hs.
      { apply (Hp1 pid i_d j_d); [done|done|]. intros [E1 E2]. apply Hd.
        by split. }
      rewrite decide_True by done. rewrite lookup_insert_eq. by eexists.
    + assert (is_Some (piezas1 !! x)) as Hs by (by eapply Hp1).
      destruct (decide (is_Some (piezas1 !! pid))); [|done].
      rewrite lookup_insert. destruct (decide (pid = x)); [by eexists|done].
  - (* ENROQUE *)
    destruct Hcaso as [-> ->]. unfold piezas1.
    rewrite decide_False by tauto. by eapply todas_registradas_celda.
  - (* EN_PASSANT *)
    destruct Hcaso as (p & Ep & -> & Hcel). rewrite Hcel in Hc.
    destruct (decide (i = i_d ∧ j = j_d)) as [Hd|Hd]; [congruence|].
    destruct (decide (i = i_h ∧ j = j_h)) as [Hh|Hh].
    + injection Hc as <-. destruct Hh as [-> ->].
      assert (is_Some (piezas1 !! pid)) as Hs.
      { apply (Hp1 pid i_d j_d); [done|done|]. intros [E1 E2]. apply Hd.
        by split. }
      rewrite decide_True by done. rewrite lookup_insert_eq. by eexists.
    + assert (is_Some (piezas1 !! x)) as Hs by (by eapply Hp1).
      destruct (decide (is_Some (piezas1 !! pid))); [|done].
      rewrite lookup_insert. destruct (decide (pid = x)); [by eexists|done].
  - (* PROMOCION *)
    destruct Hcaso as (c0 & max_num & clase & Hc0 & Hclase & Hcaso).
    cbv zeta in Hcaso. destruct Hcaso as [-> Hcel]. rewrite Hcel in Hc.
    destruct (decide (i = i_h ∧ j = j_h)) as [Hh|Hh].
    + injection Hc as <-. rewrite lookup_insert_eq. by eexists.
    + destruct (decide (i = i_d ∧ j = j_d)) as [Hd|Hd]; [congruence|].
      rewrite lookup_insert.
      match goal with |- context [decide ?P] => destruct (decide P) end;
        [by eexists|].
      rewrite lookup_delete_ne; [by eapply Hp1|].
      intros <-. apply Hd.
      by eapply (sin_duplicados_celda tablero i j i_d j_d pid).
Qed.

Lemma C3_registro_igual_a_tablero_witness :
  tablero_8x8 AgenteAjedrez.tablero_inicial ∧
  sin_duplicados AgenteAjedrez.tablero_inicial ∧
  todas_registradas gestor_inicial AgenteAjedrez.tablero_inicial ∧
  ∃ tablero' piezas',
    GestorPiezas.ejecutar_movimiento gestor_inicial (normal "e2" "e4")
                                     AgenteAjedrez.tablero_inicial
    = Ok (tablero', piezas') ∧
    ∀ x, x ∈ dom piezas' ↔ ocupante tablero' x.
Proof.
  split; [compute_done|]. split; [compute_done|]. split; [compute_done|].
  exists tras_e2_e4.1, tras_e2_e4.2. split; [vm_compute; reflexivity|].
  apply (C3_registro_igual_a_tablero gestor_inicial (normal "e2" "e4")
           AgenteAjedrez.tablero_inicial).
  - compute_done.
  - compute_done.
  - compute_done.
  - vm_compute. reflexivity.
Defined.

Lemma PIEZAS_FACTORY_Some (tipo : string) (clase : string → Z → Pieza) :
  GestorPiezas.PIEZAS_FACTORY tipo = Some clase →
  (∃ letra resto, tipo = String letra resto ∧ letra ≠ "."%char) ∧
  ∀ color numero, movida (clase color numero) = false.
Proof.
  unfold GestorPiezas.PIEZAS_FACTORY.
  repeat case_decide; intros [= <-]; subst tipo;
    (split; [by eexists _, _|done]).
Qed.

(** C4, amended.  After a Normal or an EnPassant move from an occupied
    square to a square that does not hold the same id, the moved piece
    stands on the destination and its [movida] flag is true.  After a
    Promotion move, the destination holds the id of a newly created piece
    whose [movida] flag is false, as the constructor leaves it.  (What a
    Castle move does to the flags is the subject of C1.) *)
Theorem C4_movida_despues_de_mover (piezas : gmap string Pieza)
    (movimiento : MovimientoAjedrez) (tablero tablero' : Tablero)
    (piezas' : gmap string Pieza) :
  tablero_8x8 tablero →
  GestorPiezas.ejecutar_movimiento piezas movimiento tablero
  = Ok (tablero', piezas') →
  (tipo movimiento = NORMAL ∨ tipo movimiento = EN_PASSANT →
   ∀ pieza_id,
     pieza_en tablero (desde movimiento) pieza_id → pieza_id ≠ "..." →
     ¬ pieza_en tablero (hasta movimiento) pieza_id →
     pieza_en tablero' (hasta movimiento) pieza_id ∧
     ∃ p, piezas' !! pieza_id = Some p ∧ movida p = true) ∧
  (tipo movimiento = PROMOCION →
   ∃ nuevo_id nueva_pieza,
     pieza_en tablero' (hasta movimiento) nuevo_id ∧
     piezas' !! nuevo_id = Some nueva_pieza ∧
     movida nueva_pieza = false).
Proof.
  intros H8 H.
  destruct (ejecutar_movimiento_inv _ _ _ _ _ H8 H)
    as (f_d & c_d & f_h & c_h & pid & dest & i_d & j_d & i_h & j_h & piezas2
        & Hd & Hh & Hid & Hjd & Hih & Hjh & Hpid & Hdest & H8' & Hsinc
        & Hcaso).
  cbv zeta in Hcaso.
  set (piezas1 := if decide (dest ≠ "..." ∧ tipo movimiento ≠ ENROQUE)
                  then delete dest piezas else piezas) in Hcaso.
  apply indice_normal_Ok in Hih as Hih'. apply indice_normal_Ok in Hjh as Hjh'.
  assert (∀ x, celda tablero' i_h j_h = Some x →
               pieza_en tablero' (hasta movimiento) x) as Hen.
  { intros x Hx. exists f_h, c_h. split; [done|].
    apply np_get_8x8; [done|]. by exists i_h, j_h. }
  assert (∀ x, celda tablero' i_h j_h = Some x → x ≠ "..." →
               piezas' !! x = piezas2 !! x) as Hreg.
  { intros x Hx Hne. apply Hsinc. split; [done|]. exists i_h, j_h.
    split; [lia|]. split; [lia|done]. }
  split.
  - intros Htipo pieza_id (f & c & Hf & Hget) Hne Hno.
    rewrite Hd in Hf. injection Hf as <- <-.
    apply (np_get_8x8 _ _ _ _ H8) in Hget as (i & j & Hi & Hj & Hget).
    assert (i = i_d) as -> by congruence.
    assert (j = j_d) as -> by congruence.
    assert (pieza_id = pid) as -> by congruence.
    assert (dest ≠ pid) as Hdp.
    { intros ->. apply Hno. exists f_h, c_h. split; [done|].
      apply np_get_8x8; [done|]. by exists i_h, j_h. }
    assert (¬ (i_h = i_d ∧ j_h = j_d)) as Hpos.
    { intros [-> ->]. congruence. }
    assert (∀ p, piezas !! pid = Some p → is_Some (piezas1 !! pid)) as Hp1.
    { clear Hcaso. intros p Ep. unfold piezas1.
      destruct (decide (dest ≠ "..." ∧ tipo movimiento ≠ ENROQUE));
        [|by eexists].
      rewrite lookup_delete_ne by done. by eexists. }
    assert (∃ q, piezas2 !! pid = Some (con_movida true q) ∧
                 celda tablero' i_h j_h = Some pid) as (q & Hq & Hc).
    { destruct Htipo as [Et|Et]; rewrite Et in Hcaso;
        destruct Hcaso as (p & Ep & Hp2 & Hcel);
        rewrite decide_True in Hp2 by (by eapply Hp1);
        eexists; (split; [rewrite Hp2; apply lookup_insert_eq|]);
        rewrite Hcel, decide_False, decide_True by done; done. }
    split; [by apply Hen|].
    exists (con_movida true q). split; [|done]. by rewrite Hreg.
  - intros Etipo. rewrite Etipo in Hcaso.
    destruct Hcaso as (c0 & max_num & clase & Hc0 & Hclase & -> & Hcel).
    destruct (info_adicional movimiento) as [s|] eqn:Einfo; [|done].
    simpl in Hclase.
    apply PIEZAS_FACTORY_Some in Hclase as [(letra & resto & -> & Hletra) Hmov].
    specialize (Hcel i_h j_h). rewrite decide_True in Hcel by done.
    eexists _, _. split; [by apply Hen|].
    split; [|apply Hmov]. rewrite Hreg; [apply lookup_insert_eq|done|].
    simpl. intros [= _ E]. by destruct Hletra.
Qed.

Lemma C4_movida_despues_de_mover_witness :
  tablero_8x8 AgenteAjedrez.tablero_inicial ∧
  ∃ tablero' piezas',
    GestorPiezas.ejecutar_movimiento gestor_inicial (normal "e2" "e4")
                                     AgenteAjedrez.tablero_inicial
    = Ok (tablero', piezas') ∧
    (tipo (normal "e2" "e4") = NORMAL ∨ tipo (normal "e2" "e4") = EN_PASSANT →
     ∀ pieza_id,
       pieza_en AgenteAjedrez.tablero_inicial (desde (normal "e2" "e4"))
                pieza_id →
       pieza_id ≠ "..." →
       ¬ pieza_en AgenteAjedrez.tablero_inicial (hasta (normal "e2" "e4"))
                  pieza_id →
       pieza_en tablero' (hasta (normal "e2" "e4")) pieza_id ∧
       ∃ p, piezas' !! pieza_id = Some p ∧ movida p = true) ∧
    (tipo (normal "e2" "e4") = PROMOCION →
     ∃ nuevo_id nueva_pieza,
       pieza_en tablero' (hasta (normal "e2" "e4")) nuevo_id ∧
       piezas' !! nuevo_id = Some nueva_pieza ∧
       movida nueva_pieza = false).
Proof.
  split; [compute_done|].
  exists tras_e2_e4.1, tras_e2_e4.2. split; [vm_compute; reflexivity|].
  apply (C4_movida_despues_de_mover gestor_inicial (normal "e2" "e4")
           AgenteAjedrez.tablero_inicial).
  - compute_done.
  - vm_compute. reflexivity.
Defined.

(** The pawn of e2-e4 is marked as moved. *)
Example movida_tras_e2_e4 :
  ∃ tablero' piezas',
    GestorPiezas.ejecutar_movimiento gestor_inicial (normal "e2" "e4")
                                     AgenteAjedrez.tablero_inicial
    = Ok (tablero', piezas') ∧
    np_get tablero' 4 4 = Ok "BP5" ∧
    movida <$> piezas' !! "BP5" = Some true.
Proof.
  exists tras_e2_e4.1, tras_e2_e4.2.
  repeat split; vm_compute; reflexivity.
Qed.

(** ** The two move types that the executor does not carry out *)

(** A Castle move changes nothing, on any board: the returned board is the
    board given, and every entry left in the registry is an entry of
    before, flags included. *)
Lemma ejecutar_enroque_no_cambia (piezas : gmap string Pieza)
    (movimiento : MovimientoAjedrez) (tablero tablero' : Tablero)
    (piezas' : gmap string Pieza) :
  tablero_8x8 tablero → tipo movimiento = ENROQUE →
  GestorPiezas.ejecutar_movimiento piezas movimiento tablero
  = Ok (tablero', piezas') →
  tablero' = tablero ∧
  ∀ k p, piezas' !! k = Some p → piezas !! k = Some p.
Proof.
  intros H8 Etipo H.
  destruct (ejecutar_movimiento_inv _ _ _ _ _ H8 H)
    as (f_d & c_d & f_h & c_h & pid & dest & i_d & j_d & i_h & j_h & piezas2
        & _ & _ & _ & _ & _ & _ & _ & _ & H8' & Hsinc & Hcaso).
  cbv zeta in Hcaso. rewrite Etipo in Hcaso. destruct Hcaso as [-> ->].
  split; [done|]. intros k p Hk.
  destruct (piezas_en_tablero_spec tablero H8) as (S & _ & HS).
  destruct (Hsinc k) as [Hsi Hno].
  destruct (decide (k ∈ S)) as [Hin|Hnin].
  - rewrite Hsi in Hk by (by apply HS).
    destruct (decide (dest ≠ "..." ∧ ENROQUE ≠ ENROQUE)) as [[_ []]|];
      done.
  - rewrite Hno in Hk; [done|]. by rewrite <- HS.
Qed.

(** An EnPassant move writes two squares only, the destination and the
    origin: the square beside the destination, where the captured pawn
    stands, keeps its occupant. *)
Lemma ejecutar_al_paso_otras_casillas (piezas : gmap string Pieza)
    (movimiento : MovimientoAjedrez) (tablero tablero' : Tablero)
    (piezas' : gmap string Pieza) (f c : Z) (x : string) :
  tablero_8x8 tablero → tipo movimiento = EN_PASSANT →
  GestorPiezas.ejecutar_movimiento piezas movimiento tablero
  = Ok (tablero', piezas') →
  np_get tablero f c = Ok x →
  ¬ pieza_en tablero (desde movimiento) x →
  ¬ pieza_en tablero (hasta movimiento) x →
  np_get tablero' f c = Ok x.
Proof.
  intros H8 Etipo H Hx Hnd Hnh.
  destruct (ejecutar_movimiento_inv _ _ _ _ _ H8 H)
    as (f_d & c_d & f_h & c_h & pid & dest & i_d & j_d & i_h & j_h & piezas2
        & Hd & Hh & Hid & Hjd & Hih & Hjh & Hpid & Hdest & H8' & _ & Hcaso).
  cbv zeta in Hcaso. rewrite Etipo in Hcaso.
  destruct Hcaso as (p & _ & _ & Hcel).
  apply (np_get_8x8 _ _ _ _ H8) in Hx as (i & j & Hi & Hj & Hx).
  apply np_get_8x8; [done|]. exists i, j. split; [done|]. split; [done|].
  rewrite Hcel, decide_False, decide_False; [done| |].
  - intros [-> ->]. apply Hnh. exists f_h, c_h. split; [done|].
    apply np_get_8x8; [done|]. by exists i_h, j_h.
  - intros [-> ->]. apply Hnd. exists f_d, c_d. split; [done|].
    apply np_get_8x8; [done|]. by exists i_d, j_d.
Qed.

(** * Further properties of the engine *)

(** ** The coordinate model, both ways *)

Lemma notacion_de_casilla (f c : Z) :
  dentro_tablero f c = true → notacion_a_posicion (casilla f c) = Ok (f, c).
Proof.
  intros H. apply dentro_tablero_true in H as [Hf Hc].
  assert (f = 0 ∨ f = 1 ∨ f = 2 ∨ f = 3 ∨ f = 4 ∨ f = 5 ∨ f = 6 ∨ f = 7)
    as Hfs by lia.
  assert (c = 0 ∨ c = 1 ∨ c = 2 ∨ c = 3 ∨ c = 4 ∨ c = 5 ∨ c = 6 ∨ c = 7)
    as Hcs by lia.
  destruct Hfs as [->|[->|[->|[->|[->|[->|[->| ->]]]]]]];
    destruct Hcs as [->|[->|[->|[->|[->|[->|[->| ->]]]]]]];
    vm_compute; reflexivity.
Qed.

(** X1: the name of a square of the board reads back as that square. *)
Theorem X1_posicion_notacion_posicion (fila col : Z) :
  dentro_tablero fila col = true →
  ∃ notacion,
    posicion_a_notacion fila col = Ok notacion ∧
    notacion_a_posicion notacion = Ok (fila, col).
Proof.
  intros H. exists (casilla fila col). split.
  - apply posicion_a_notacion_casilla. apply dentro_tablero_true in H. lia.
  - by apply notacion_de_casilla.
Qed.

Lemma X1_posicion_notacion_posicion_witness :
  dentro_tablero 6 4 = true ∧
  ∃ notacion,
    posicion_a_notacion 6 4 = Ok notacion ∧
    notacion_a_posicion notacion = Ok (6, 4).
Proof.
  split; [reflexivity|].
  apply (X1_posicion_notacion_posicion 6 4). reflexivity.
Defined.

Lemma pretty_valor_digito (d : ascii) :
  es_digito d → pretty (valor_digito d) = String d "".
Proof.
  unfold es_digito, valor_digito. intros Hd.
  rewrite <- (ascii_N_embedding d).
  assert (N_of_ascii d = 48 ∨ N_of_ascii d = 49 ∨ N_of_ascii d = 50
          ∨ N_of_ascii d = 51 ∨ N_of_ascii d = 52 ∨ N_of_ascii d = 53
          ∨ N_of_ascii d = 54 ∨ N_of_ascii d = 55 ∨ N_of_ascii d = 56
          ∨ N_of_ascii d = 57)%N as Hcases by lia.
  destruct Hcases as [->|[->|[->|[->|[->|[->|[->|[->|[->| ->]]]]]]]]];
    vm_compute; reflexivity.
Qed.

(** X2: a notation whose letter is one of a-h, in either case, and whose
    second character is a digit is read as a square whose name is the
    notation again, in lower case and without what follows the digit.  This
    holds for the digits 0 and 9 too, which name no rank of the board. *)
Theorem X2_notacion_posicion_notacion (l d : ascii) (r : string) (i : nat) :
  COLUMNAS !! i = Some (lower l) → es_digito d →
  ∃ fila col,
    notacion_a_posicion (String l (String d r)) = Ok (fila, col) ∧
    posicion_a_notacion fila col = Ok (String (lower l) (String d "")).
Proof.
  intros Hi Hd. exists (8 - valor_digito d), (Z.of_nat i). split.
  - rewrite notacion_a_posicion_eq.
    rewrite (lista_index_Ok _ _ _ COLUMNAS_NoDup Hi). res_simpl.
    by rewrite (int_de_caracter_Ok _ Hd).
  - unfold posicion_a_notacion.
    apply lookup_lt_Some in Hi as Hlt.
    destruct (lista_indice_dentro COLUMNAS (Z.of_nat i)) as (x & -> & Hx);
      [lia|].
    rewrite Nat2Z.id, Hi in Hx. injection Hx as <-. res_simpl.
    replace (8 - (8 - valor_digito d)) with (valor_digito d) by lia.
    by rewrite pretty_valor_digito.
Qed.

Lemma X2_notacion_posicion_notacion_witness :
  COLUMNAS !! 4%nat = Some (lower "E") ∧ es_digito "4" ∧
  ∃ fila col,
    notacion_a_posicion "E4xyz" = Ok (fila, col) ∧
    posicion_a_notacion fila col = Ok "e4".
Proof.
  split; [reflexivity|]. split; [unfold es_digito; simpl; lia|].
  apply (X2_notacion_posicion_notacion "E" "4" "xyz" 4).
  - reflexivity.
  - unfold es_digito. simpl. lia.
Defined.



(** ** Knight and king *)

Lemma destino_permitido_spec (self : Pieza) (tablero : Tablero) (nf nc : Z)
    (p : string) :
  celdas_no_vacias tablero → np_get tablero nf nc = Ok p →
  ∃ b, Pieza_.destino_permitido self p = Ok b ∧
       (b = true ↔ destino_libre_o_enemigo tablero (color self) nf nc).
Proof.
  intros Hnv Hp. destruct (np_get_no_vacia _ _ _ _ Hnv Hp) as [c0 Hc0].
  unfold Pieza_.destino_permitido, destino_libre_o_enemigo.
  destruct (decide (p = "...")) as [->|Hne].
  - exists true. split; [done|]. split; [|done]. intros _.
    exists "...". split; [done|by left].
  - rewrite Hc0. res_simpl. eexists. split; [done|].
    rewrite bool_decide_eq_true. split.
    + intros Hcol. exists p. split; [done|]. right. split; [done|].
      by exists c0.
    + intros (p' & Hp' & [->|(_ & c0' & Hc0' & Hcol)]); congruence.
Qed.

Lemma saltos_spec (self : Pieza) (origen : string) (tablero : Tablero)
    (f c : Z) :
  tablero_valido tablero →
  ∀ (SALTOS : list (Z * Z)) (movimientos : list string),
  ∃ l,
    para (λ (movimientos : list string) '(df, dc),
            if dentro_tablero (f + df) (c + dc) then
              pieza_destino ← np_get tablero (f + df) (c + dc);
              permitido ← Pieza_.destino_permitido self pieza_destino;
              if (permitido : bool) then
                n ← posicion_a_notacion (f + df) (c + dc);
                Ok (movimientos ++ [jugada origen n])
              else Ok movimientos
            else Ok movimientos)
         movimientos SALTOS
    = Ok (movimientos ++ l) ∧
    ∀ m, m ∈ l ↔
         ∃ df dc, (df, dc) ∈ SALTOS ∧
                  m = jugada origen (casilla (f + df) (c + dc)) ∧
                  dentro_tablero (f + df) (c + dc) = true ∧
                  destino_libre_o_enemigo tablero (color self)
                                          (f + df) (c + dc).
Proof.
  intros [H8 Hnv] SALTOS.
  induction SALTOS as [|[df dc] SALTOS IH]; intros movimientos.
  { exists []. rewrite app_nil_r. split; [done|]. intros m.
    rewrite elem_of_nil. split; [done|].
    intros (df & dc & H & _). by apply elem_of_nil in H. }
  cbn [para].
  assert (∃ l1, (if dentro_tablero (f + df) (c + dc) then
                   pieza_destino ← np_get tablero (f + df) (c + dc);
                   permitido ← Pieza_.destino_permitido self pieza_destino;
                   if (permitido : bool) then
                     n ← posicion_a_notacion (f + df) (c + dc);
                     Ok (movimientos ++ [jugada origen n])
                   else Ok movimientos
                 else Ok movimientos) = Ok (movimientos ++ l1) ∧
                ∀ m, m ∈ l1 ↔
                     m = jugada origen (casilla (f + df) (c + dc)) ∧
                     dentro_tablero (f + df) (c + dc) = true ∧
                     destino_libre_o_enemigo tablero (color self)
                                             (f + df) (c + dc))
    as (l1 & -> & H1).
  { destruct (dentro_tablero (f + df) (c + dc)) eqn:Ed.
    - destruct (np_get_dentro tablero _ _ H8 Ed) as (p & Hp & _).
      destruct (destino_permitido_spec self tablero _ _ p Hnv Hp)
        as (b & Hb & Hbt).
      apply dentro_tablero_true in Ed as Hdentro.
      rewrite Hp. res_simpl. rewrite Hb. res_simpl. destruct b.
      + rewrite posicion_a_notacion_casilla by lia. res_simpl.
        eexists. split; [done|]. intros m.
        rewrite elem_of_cons, elem_of_nil. split.
        * intros [->|[]]. split; [done|]. split; [done|]. by apply Hbt.
        * intros (-> & _). by left.
      + exists []. rewrite app_nil_r. split; [done|]. intros m.
        rewrite elem_of_nil. split; [done|]. intros (_ & _ & H).
        apply Hbt in H. discriminate.
    - exists []. rewrite app_nil_r. split; [done|]. intros m.
      rewrite elem_of_nil. split; [done|]. intros (_ & [=] & _). }
  res_simpl. destruct (IH (movimientos ++ l1)) as (l2 & -> & H2).
  exists (l1 ++ l2). split; [by rewrite <- app_assoc|].
  intros m. rewrite elem_of_app, H1, H2. split.
  - intros [(-> & Hd & Hl) | (df' & dc' & Hin & -> & Hd & Hl)].
    + exists df, dc. split; [apply list_elem_of_here|done].
    + exists df', dc'. split; [by apply list_elem_of_further|done].
  - intros (df' & dc' & Hin & -> & Hd & Hl).
    apply elem_of_cons in Hin as [[= -> ->]|Hin]; [by left|].
    right. by exists df', dc'.
Qed.

Lemma hijos_por_saltos_spec
    (atributo : Pieza → resultado (list (Z * Z))) (SALTOS : list (Z * Z))
    (forma : Z → Z → Prop) (self : Pieza) (f c : Z) (tablero : Tablero) :
  atributo self = Ok SALTOS →
  (∀ df dc, (df, dc) ∈ SALTOS ↔ forma df dc) →
  tablero_valido tablero → dentro_tablero f c = true →
  genera_por_saltos forma (Pieza_.hijos_por_saltos atributo) self f c tablero.
Proof.
  intros Hattr Hforma Hval Hd. apply dentro_tablero_true in Hd as Hfc.
  unfold genera_por_saltos, Pieza_.hijos_por_saltos.
  rewrite posicion_a_notacion_casilla by lia. res_simpl.
  rewrite Hattr. res_simpl.
  destruct (saltos_spec self (casilla f c) tablero f c Hval SALTOS [])
    as (l & -> & Hl).
  exists l. split; [done|]. split.
  - intros m Hm. apply Hl in Hm as (df & dc & _ & -> & Hdk & _).
    by eexists _, _.
  - intros nf nc Hn. rewrite Hl. split.
    + intros (df & dc & Hin & Heq & Hdk & Hdest).
      apply jugada_inj in Heq.
      apply dentro_tablero_true in Hn, Hdk.
      apply casilla_inj in Heq as [-> ->]; [|lia..].
      split; [|done]. apply Hforma.
      by replace (f + df - f) with df by lia;
         replace (c + dc - c) with dc by lia.
    + intros (Hf & Hdest). exists (nf - f), (nc - c).
      replace (f + (nf - f)) with nf by lia.
      replace (c + (nc - c)) with nc by lia.
      split; [by apply Hforma|done].
Qed.

Lemma MOVIMIENTOS_forma (df dc : Z) :
  (df, dc) ∈ Caballo.MOVIMIENTOS ↔ salto_de_caballo df dc.
Proof.
  unfold Caballo.MOVIMIENTOS, Atributos.Caballo_MOVIMIENTOS,
    salto_de_caballo.
  rewrite !elem_of_cons, elem_of_nil. split.
  - intros H. repeat destruct H as [H|H]; try done; injection H as -> ->; lia.
  - intros H.
    assert (df = -2 ∧ dc = -1 ∨ df = -2 ∧ dc = 1 ∨ df = 2 ∧ dc = -1
            ∨ df = 2 ∧ dc = 1 ∨ df = -1 ∧ dc = -2 ∨ df = -1 ∧ dc = 2
            ∨ df = 1 ∧ dc = -2 ∨ df = 1 ∧ dc = 2) as Hc by lia.
    destruct Hc as [[-> ->]|[[-> ->]|[[-> ->]|[[-> ->]|[[-> ->]|[[-> ->]|
                   [[-> ->]|[-> ->]]]]]]]]; tauto.
Qed.

Lemma DIRECCIONES_rey_forma (df dc : Z) :
  (df, dc) ∈ Rey.DIRECCIONES ↔ paso_de_rey df dc.
Proof.
  unfold Rey.DIRECCIONES, Atributos.Rey_DIRECCIONES, paso_de_rey.
  rewrite !elem_of_cons, elem_of_nil. split.
  - intros H. repeat destruct H as [H|H]; try done; injection H as -> ->; lia.
  - intros H.
    assert (df = 0 ∧ dc = 1 ∨ df = 1 ∧ dc = 0 ∨ df = 0 ∧ dc = -1
            ∨ df = -1 ∧ dc = 0 ∨ df = 1 ∧ dc = 1 ∨ df = 1 ∧ dc = -1
            ∨ df = -1 ∧ dc = 1 ∨ df = -1 ∧ dc = -1) as Hc by lia.
    destruct Hc as [[-> ->]|[[-> ->]|[[-> ->]|[[-> ->]|[[-> ->]|[[-> ->]|
                   [[-> ->]|[-> ->]]]]]]]]; tauto.
Qed.

Lemma caballo_obtener_hijos_spec (self : Pieza) (f c : Z)
    (tablero : Tablero) :
  clase self = CCaballo →
  tablero_valido tablero → dentro_tablero f c = true →
  genera_por_saltos salto_de_caballo Caballo.obtener_hijos self f c tablero.
Proof.
  intros Hclase.
  apply (hijos_por_saltos_spec Atributos.MOVIMIENTOS Caballo.MOVIMIENTOS).
  - unfold Atributos.MOVIMIENTOS. by rewrite Hclase.
  - apply MOVIMIENTOS_forma.
Qed.

Lemma rey_obtener_hijos_spec (self : Pieza) (f c : Z) (tablero : Tablero) :
  clase self = CRey →
  tablero_valido tablero → dentro_tablero f c = true →
  genera_por_saltos paso_de_rey Rey.obtener_hijos self f c tablero.
Proof.
  intros Hclase.
  apply (hijos_por_saltos_spec Atributos.DIRECCIONES Rey.DIRECCIONES).
  - unfold Atributos.DIRECCIONES. by rewrite Hclase.
  - apply DIRECCIONES_rey_forma.
Qed.

(** X4: on the board of the program the candidates of a knight (an object
    of class [Caballo], whose [MOVIMIENTOS] the generator reads) are exactly
    the squares of the board a knight's step away (two rows and one column,
    or one row and two columns) that are empty or hold an enemy piece; no
    candidate is off the board or on a piece of the knight's colour. *)
Theorem X4_caballo_obtener_hijos (self : Pieza) (f c : Z)
    (tablero : Tablero) :
  clase self = CCaballo →
  tablero_valido tablero → dentro_tablero f c = true →
  genera_por_saltos salto_de_caballo Caballo.obtener_hijos self f c tablero.
Proof.
  intros Hclase Hval Hd. by apply caballo_obtener_hijos_spec.
Qed.

Lemma X4_caballo_obtener_hijos_witness :
  clase (Caballo.__init__ "B" 1) = CCaballo ∧
  tablero_valido AgenteAjedrez.tablero_inicial ∧
  dentro_tablero 7 1 = true ∧
  genera_por_saltos salto_de_caballo Caballo.obtener_hijos
                    (Caballo.__init__ "B" 1) 7 1
                    AgenteAjedrez.tablero_inicial.
Proof.
  split; [reflexivity|]. split; [compute_done|]. split; [reflexivity|].
  apply (X4_caballo_obtener_hijos (Caballo.__init__ "B" 1) 7 1
                                  AgenteAjedrez.tablero_inicial).
  - reflexivity.
  - compute_done.
  - reflexivity.
Defined.

(** The knight on b1 of the starting position. *)
Example caballo_b1 :
  Caballo.obtener_hijos (Caballo.__init__ "B" 1) (7, 1)
                        AgenteAjedrez.tablero_inicial
  = Ok ["b1 a3"; "b1 c3"].
Proof. vm_compute. reflexivity. Qed.

(** The functions of the knight and the king run on an object of another
    class: they find no table, or step once along that object's own. *)
Example saltos_de_otra_clase :
  Caballo.obtener_hijos (Torre.__init__ "B" 1) (7, 1)
                        AgenteAjedrez.tablero_inicial
  = Lanza AttributeError ∧
  Rey.obtener_hijos (Caballo.__init__ "B" 1) (7, 1)
                    AgenteAjedrez.tablero_inicial
  = Lanza AttributeError ∧
  Rey.obtener_hijos (Torre.__init__ "B" 1) (7, 0) tablero_enroque
  = Ok ["a1 b1"; "a1 a2"].
Proof. repeat split; vm_compute; reflexivity. Qed.

(** X5: on the board of the program the ordinary candidates of a king (an
    object of class [Rey], whose [DIRECCIONES] the generator reads) are
    exactly the squares of the board next to it, in the eight directions,
    that are empty or hold an enemy piece. *)
Theorem X5_rey_obtener_hijos (self : Pieza) (f c : Z) (tablero : Tablero) :
  clase self = CRey →
  tablero_valido tablero → dentro_tablero f c = true →
  genera_por_saltos paso_de_rey Rey.obtener_hijos self f c tablero.
Proof.
  intros Hclase Hval Hd. by apply rey_obtener_hijos_spec.
Qed.

Lemma X5_rey_obtener_hijos_witness :
  clase (Rey.__init__ "B" 1) = CRey ∧
  tablero_valido tablero_enroque ∧ dentro_tablero 7 4 = true ∧
  genera_por_saltos paso_de_rey Rey.obtener_hijos (Rey.__init__ "B" 1) 7 4
                    tablero_enroque.
Proof.
  split; [reflexivity|]. split; [compute_done|]. split; [reflexivity|].
  apply (X5_rey_obtener_hijos (Rey.__init__ "B" 1) 7 4 tablero_enroque).
  - reflexivity.
  - compute_done.
  - reflexivity.
Defined.

Lemma prueba_salto_de_caballo (df dc : Z) :
  (Z.abs df =? 2) && (Z.abs dc =? 1) || (Z.abs df =? 1) && (Z.abs dc =? 2)
  = true ↔ salto_de_caballo df dc.
Proof.
  unfold salto_de_caballo.
  rewrite orb_true_iff, !andb_true_iff, !Z.eqb_eq. tauto.
Qed.

Lemma prueba_paso_de_rey (df dc : Z) :
  (Z.abs df >? 1) || (Z.abs dc >? 1) = false ↔
  Z.abs df ≤ 1 ∧ Z.abs dc ≤ 1.
Proof.
  rewrite orb_false_iff, !Z.gtb_ltb, !Z.ltb_ge. tauto.
Qed.

(** X6: for a knight (an object of class [Caballo]), [Caballo.puede_mover]
    and [Caballo.obtener_hijos] agree: between two squares of the board, the
    predicate answers true exactly when the generator run on the origin
    square lists the move. *)
Theorem X6_caballo_puede_mover_es_obtener_hijos (self : Pieza)
    (f c nf nc : Z) (tablero : Tablero) :
  clase self = CCaballo →
  tablero_valido tablero →
  dentro_tablero f c = true → dentro_tablero nf nc = true →
  ∃ movimientos b,
    Caballo.obtener_hijos self (f, c) tablero = Ok movimientos ∧
    Caballo.puede_mover self (casilla f c) (casilla nf nc) tablero = Ok b ∧
    (b = true ↔ jugada (casilla f c) (casilla nf nc) ∈ movimientos).
Proof.
  intros Hclase Hval Hd Hn.
  destruct (caballo_obtener_hijos_spec self f c tablero Hclase Hval Hd)
    as (movimientos & Hmov & _ & Hm).
  exists movimientos. destruct Hval as [H8 Hnv].
  unfold Caballo.puede_mover.
  rewrite !notacion_de_casilla by done. res_simpl. rewrite Hn. cbn [negb].
  destruct (np_get_dentro tablero nf nc H8 Hn) as (p & Hp & _).
  destruct (destino_permitido_spec self tablero nf nc p Hnv Hp)
    as (b & Hb & Hbt).
  destruct ((Z.abs (nf - f) =? 2) && (Z.abs (nc - c) =? 1)
            || (Z.abs (nf - f) =? 1) && (Z.abs (nc - c) =? 2)) eqn:Eforma;
    cbn [negb].
  - apply prueba_salto_de_caballo in Eforma.
    rewrite Hp. res_simpl. exists b. split; [done|]. split; [done|].
    rewrite (Hm nf nc Hn), Hbt. tauto.
  - exists false. split; [done|]. split; [done|].
    rewrite (Hm nf nc Hn). split; [done|]. intros [Hf _].
    apply prueba_salto_de_caballo in Hf. congruence.
Qed.

Lemma X6_caballo_puede_mover_es_obtener_hijos_witness :
  clase (Caballo.__init__ "B" 1) = CCaballo ∧
  tablero_valido AgenteAjedrez.tablero_inicial ∧
  dentro_tablero 7 1 = true ∧ dentro_tablero 5 2 = true ∧
  ∃ movimientos b,
    Caballo.obtener_hijos (Caballo.__init__ "B" 1) (7, 1)
                          AgenteAjedrez.tablero_inicial = Ok movimientos ∧
    Caballo.puede_mover (Caballo.__init__ "B" 1) (casilla 7 1) (casilla 5 2)
                        AgenteAjedrez.tablero_inicial = Ok b ∧
    (b = true ↔ jugada (casilla 7 1) (casilla 5 2) ∈ movimientos).
Proof.
  split; [reflexivity|].
  split; [compute_done|]. split; [reflexivity|]. split; [reflexivity|].
  apply (X6_caballo_puede_mover_es_obtener_hijos (Caballo.__init__ "B" 1)
           7 1 5 2 AgenteAjedrez.tablero_inicial).
  - reflexivity.
  - compute_done.
  - reflexivity.
  - reflexivity.
Defined.

(** X7: for a king (an object of class [Rey]), [Rey.puede_mover] and
    [Rey.obtener_hijos] agree on every pair of distinct squares of the
    board.  (On the king's own square the predicate looks at the occupant of
    that square, which the generator never lists.) *)
Theorem X7_rey_puede_mover_es_obtener_hijos (self : Pieza)
    (f c nf nc : Z) (tablero : Tablero) :
  clase self = CRey →
  tablero_valido tablero →
  dentro_tablero f c = true → dentro_tablero nf nc = true →
  (nf, nc) ≠ (f, c) →
  ∃ movimientos b,
    Rey.obtener_hijos self (f, c) tablero = Ok movimientos ∧
    Rey.puede_mover self (casilla f c) (casilla nf nc) tablero = Ok b ∧
    (b = true ↔ jugada (casilla f c) (casilla nf nc) ∈ movimientos).
Proof.
  intros Hclase Hval Hd Hn Hne.
  destruct (rey_obtener_hijos_spec self f c tablero Hclase Hval Hd)
    as (movimientos & Hmov & _ & Hm).
  exists movimientos. destruct Hval as [H8 Hnv].
  unfold Rey.puede_mover.
  rewrite !notacion_de_casilla by done. res_simpl. rewrite Hn. cbn [negb].
  destruct (np_get_dentro tablero nf nc H8 Hn) as (p & Hp & _).
  destruct (destino_permitido_spec self tablero nf nc p Hnv Hp)
    as (b & Hb & Hbt).
  assert (nf - f ≠ 0 ∨ nc - c ≠ 0) as Hdist.
  { destruct (decide (nf = f)) as [->|]; [|lia].
    destruct (decide (nc = c)) as [->|]; [done|lia]. }
  destruct ((Z.abs (nf - f) >? 1) || (Z.abs (nc - c) >? 1)) eqn:Eforma.
  - exists false. split; [done|]. split; [done|].
    rewrite (Hm nf nc Hn). split; [done|]. intros [(H1 & H2 & _) _].
    assert ((Z.abs (nf - f) >? 1) || (Z.abs (nc - c) >? 1) = false) as E
      by (by apply prueba_paso_de_rey).
    congruence.
  - apply prueba_paso_de_rey in Eforma.
    rewrite Hp. res_simpl. exists b. split; [done|]. split; [done|].
    rewrite (Hm nf nc Hn), Hbt. unfold paso_de_rey. tauto.
Qed.

Lemma X7_rey_puede_mover_es_obtener_hijos_witness :
  clase (Rey.__init__ "B" 1) = CRey ∧
  tablero_valido tablero_enroque ∧
  dentro_tablero 7 4 = true ∧ dentro_tablero 6 4 = true ∧
  (6, 4) ≠ (7, 4) ∧
  ∃ movimientos b,
    Rey.obtener_hijos (Rey.__init__ "B" 1) (7, 4) tablero_enroque
    = Ok movimientos ∧
    Rey.puede_mover (Rey.__init__ "B" 1) (casilla 7 4) (casilla 6 4)
                    tablero_enroque = Ok b ∧
    (b = true ↔ jugada (casilla 7 4) (casilla 6 4) ∈ movimientos).
Proof.
  split; [reflexivity|].
  split; [compute_done|]. split; [reflexivity|]. split; [reflexivity|].
  split; [discriminate|].
  apply (X7_rey_puede_mover_es_obtener_hijos (Rey.__init__ "B" 1)
           7 4 6 4 tablero_enroque).
  - reflexivity.
  - compute_done.
  - reflexivity.
  - reflexivity.
  - discriminate.
Defined.

(** ** The path check of the sliding pieces *)

Lemma direccion_hacia_sgn (a b : Z) :
  Pieza_.direccion_hacia a b = Z.sgn (b - a).
Proof.
  unfold Pieza_.direccion_hacia. destruct (a =? b) eqn:E.
  - apply Z.eqb_eq in E. subst. by rewrite Z.sub_diag.
  - apply Z.eqb_neq in E. symmetry. apply Z.div_unique_exact; lia.
Qed.

(** The loop of [_verificar_camino_libre] ends on every input. *)
Lemma bucle_camino_combustible (tablero : Tablero) (df dc f_hasta c_hasta : Z)
    (f0 : Z) (ancho : nat) :
  (∀ r, lista_indice tablero f0 = Ok r → length r = ancho) →
  ∀ (n : nat) (f c : Z),
    (1 ≤ n)%nat →
    (df = 1 ∧ (f < - Z.of_nat (length tablero)
               ∨ Z.of_nat (length tablero) - f + 1 ≤ Z.of_nat n)
     ∨ df = -1 ∧ (Z.of_nat (length tablero) ≤ f
                  ∨ f + Z.of_nat (length tablero) + 2 ≤ Z.of_nat n)
     ∨ df = 0 ∧ f = f0 ∧ dc = 1
       ∧ (c < - Z.of_nat ancho ∨ Z.of_nat ancho - c + 1 ≤ Z.of_nat n)
     ∨ df = 0 ∧ f = f0 ∧ dc = -1
       ∧ (Z.of_nat ancho ≤ c ∨ c + Z.of_nat ancho + 2 ≤ Z.of_nat n)) →
    is_Some (Pieza_.bucle_camino n tablero df dc f c f_hasta c_hasta).
Proof.
  intros Hancho n. induction n as [|n IH]; intros f c Hn Hinv; [lia|].
  cbn [Pieza_.bucle_camino].
  destruct ((f =? f_hasta) && (c =? c_hasta)); [by eexists|].
  destruct (np_get tablero f c) as [p|e] eqn:Ep; [|by eexists].
  case_decide; [by eexists|].
  unfold np_get in Ep. apply bind_Ok in Ep as (r & Hr & Hp).
  apply lista_indice_Ok in Hr as Hr'. destruct Hr' as (i & Hi & _).
  apply indice_normal_Ok in Hi as (_ & Hi & _).
  apply lista_indice_Ok in Hp as (k & Hk & _).
  apply indice_normal_Ok in Hk as (_ & Hk & _).
  destruct Hinv as [Hc|[Hc|[(? & -> & Hc)|(? & -> & Hc)]]].
  - apply IH; [lia|]. left. lia.
  - apply IH; [lia|]. right. left. lia.
  - rewrite (Hancho r Hr) in Hk. apply IH; [lia|]. right. right. left.
    replace (f0 + df) with f0 by lia. lia.
  - rewrite (Hancho r Hr) in Hk. apply IH; [lia|]. right. right. right.
    replace (f0 + df) with f0 by lia. lia.
Qed.

Lemma bucle_camino_termina (tablero : Tablero) (f_desde c_desde : Z)
    (f_hasta c_hasta : Z) :
  let df := Pieza_.direccion_hacia f_desde f_hasta in
  let dc := Pieza_.direccion_hacia c_desde c_hasta in
  is_Some (Pieza_.bucle_camino (Pieza_.combustible_camino tablero f_desde)
             tablero df dc (f_desde + df) (c_desde + dc) f_hasta c_hasta).
Proof.
  intros df dc.
  assert (df = Z.sgn (f_hasta - f_desde)) as Hdf
    by apply direccion_hacia_sgn.
  assert (dc = Z.sgn (c_hasta - c_desde)) as Hdc
    by apply direccion_hacia_sgn.
  destruct (decide (df = 0 ∧ dc = 0)) as [[Hf0 Hc0]|Hmueve].
  - (* origin and destination are the same square *)
    assert (f_desde = f_hasta) as -> by lia.
    assert (c_desde = c_hasta) as -> by lia.
    unfold Pieza_.combustible_camino.
    rewrite Nat.add_comm. cbn [Nat.add Pieza_.bucle_camino].
    rewrite Hf0, Hc0, !Z.add_0_r, !Z.eqb_refl. by eexists.
  - set (ancho := match lista_indice tablero f_desde with
                  | Ok r => length r
                  | Lanza _ => 0%nat
                  end).
    assert (Pieza_.combustible_camino tablero f_desde
            = (2 * length tablero + 2 * ancho + 2)%nat) as ->.
    { unfold Pieza_.combustible_camino, ancho.
      destruct (lista_indice tablero f_desde); lia. }
    apply (bucle_camino_combustible tablero df dc f_hasta c_hasta f_desde
                                    ancho).
    + intros r Hr. unfold ancho. by rewrite Hr.
    + lia.
    + assert (df = 1 ∨ df = -1 ∨ df = 0 ∧ dc = 1 ∨ df = 0 ∧ dc = -1)
        as Hcasos by lia.
      destruct Hcasos as [H|[H|[[H1 H2]|[H1 H2]]]].
      * left. lia.
      * right. left. lia.
      * right. right. left. lia.
      * right. right. right. lia.
Qed.

(** On the board of the program, walking from the [j]-th to the [k]-th
    square of a line, the loop answers true exactly when the squares from
    the [j]-th on, up to and not including the [k]-th, are empty. *)
Lemma bucle_camino_spec (tablero : Tablero) (f c df dc k : Z) :
  tablero_8x8 tablero →
  dentro_tablero f c = true →
  dentro_tablero (f + k * df) (c + k * dc) = true →
  (df = -1 ∨ df = 0 ∨ df = 1) → (dc = -1 ∨ dc = 0 ∨ dc = 1) →
  (df ≠ 0 ∨ dc ≠ 0) →
  ∀ (n : nat) (j : Z) (r : resultado bool),
    1 ≤ j ≤ k →
    Pieza_.bucle_camino n tablero df dc (f + j * df) (c + j * dc)
                        (f + k * df) (c + k * dc) = Some r →
    ∃ b, r = Ok b ∧
         (b = true ↔
          ∀ i, j ≤ i < k → vacia tablero (f + i * df) (c + i * dc)).
Proof.
  intros H8 Hd Hn Hdf Hdc Hmueve n.
  apply dentro_tablero_true in Hd, Hn.
  induction n as [|n IH]; intros j r Hj; [discriminate|].
  cbn [Pieza_.bucle_camino].
  destruct ((f + j * df =? f + k * df) && (c + j * dc =? c + k * dc))
    eqn:Efin.
  - apply andb_true_iff in Efin as [E1 E2].
    apply Z.eqb_eq in E1, E2. assert (j = k) as -> by nia.
    intros [= <-]. exists true. split; [done|]. split; [|done].
    intros _ i Hi. lia.
  - assert (j < k) as Hjk.
    { destruct (decide (j = k)) as [->|]; [|lia].
      by rewrite !Z.eqb_refl in Efin. }
    destruct (np_get_dentro tablero (f + j * df) (c + j * dc) H8)
      as (p & Hp & _).
    { apply dentro_tablero_true. nia. }
    rewrite Hp. case_decide as Hvac.
    + intros [= <-]. exists false. split; [done|]. split; [done|].
      intros H. specialize (H j). unfold vacia in H.
      rewrite Hp in H. destruct Hvac.
      assert (Ok p = Ok "...") as [= ->]; [apply H; lia|done].
    + subst p. intros Hr.
      replace (f + j * df + df) with (f + (j + 1) * df) in Hr by ring.
      replace (c + j * dc + dc) with (c + (j + 1) * dc) in Hr by ring.
      destruct (IH (j + 1) r) as (b & -> & Hb); [lia|done|].
      exists b. split; [done|]. rewrite Hb. split.
      * intros H i Hi. destruct (decide (i = j)) as [->|]; [done|].
        apply H. lia.
      * intros H i Hi. apply H. lia.
Qed.

(** The path check between two squares of a line of the board. *)
Lemma _verificar_camino_libre_spec (self : Pieza) (tablero : Tablero)
    (f c df dc k : Z) :
  tablero_valido tablero →
  dentro_tablero f c = true →
  dentro_tablero (f + k * df) (c + k * dc) = true →
  (df = -1 ∨ df = 0 ∨ df = 1) → (dc = -1 ∨ dc = 0 ∨ dc = 1) →
  (df ≠ 0 ∨ dc ≠ 0) → 1 ≤ k →
  ∃ b,
    Pieza_._verificar_camino_libre self (f, c) (f + k * df, c + k * dc)
                                   tablero true = Ok b ∧
    (b = true ↔ llega tablero (color self) f c df dc k).
Proof.
  intros [H8 Hnv] Hd Hn Hdf Hdc Hmueve Hk.
  unfold Pieza_._verificar_camino_libre.
  pose proof (bucle_camino_termina tablero f c (f + k * df) (c + k * dc))
    as Hterm. cbv zeta in Hterm.
  rewrite !direccion_hacia_sgn in *.
  replace (Z.sgn (f + k * df - f)) with df in * by nia.
  replace (Z.sgn (c + k * dc - c)) with dc in * by nia.
  destruct Hterm as [r Hr]. rewrite Hr.
  replace (f + df) with (f + 1 * df) in Hr by ring.
  replace (c + dc) with (c + 1 * dc) in Hr by ring.
  destruct (bucle_camino_spec tablero f c df dc k H8 Hd Hn Hdf Hdc Hmueve
              (Pieza_.combustible_camino tablero f) 1 r)
    as (libre & -> & Hlibre); [lia|done|].
  res_simpl.
  assert ((∀ i, 1 ≤ i < k → vacia tablero (f + i * df) (c + i * dc)) ↔
          (∀ j, 1 ≤ j < k →
                dentro_tablero (f + j * df) (c + j * dc) = true ∧
                vacia tablero (f + j * df) (c + j * dc))) as Hdentro.
  { split; [|intros H i Hi; by apply H].
    intros H j Hj. split; [|by apply H].
    apply dentro_tablero_true in Hd, Hn. apply dentro_tablero_true. nia. }
  destruct libre; cbn [negb].
  - destruct (np_get_dentro tablero _ _ H8 Hn) as (p & Hp & _).
    destruct (destino_permitido_spec self tablero _ _ p Hnv Hp)
      as (b & Hb & Hbt).
    rewrite Hp. res_simpl. unfold Pieza_.destino_permitido in Hb.
    rewrite Hb. exists b. split; [done|]. rewrite Hbt. unfold llega.
    rewrite <- Hdentro, <- Hlibre. unfold destino_libre_o_enemigo. tauto.
  - exists false. split; [done|]. split; [done|].
    intros (_ & H & _).
    assert (false = true) as E; [|discriminate E].
    apply Hlibre. intros i Hi. by apply H.
Qed.

Lemma direccion_unica (df dc k df' dc' k' : Z) :
  (df = -1 ∨ df = 0 ∨ df = 1) → (dc = -1 ∨ dc = 0 ∨ dc = 1) →
  (df ≠ 0 ∨ dc ≠ 0) →
  (df' = -1 ∨ df' = 0 ∨ df' = 1) → (dc' = -1 ∨ dc' = 0 ∨ dc' = 1) →
  (df' ≠ 0 ∨ dc' ≠ 0) →
  1 ≤ k → 1 ≤ k' →
  k * df = k' * df' → k * dc = k' * dc' →
  df' = df ∧ dc' = dc ∧ k' = k.
Proof.
  intros Hdf Hdc Hm Hdf' Hdc' Hm' Hk Hk' Ef Ec.
  destruct Hdf as [->|[->| ->]], Hdc as [->|[->| ->]],
    Hdf' as [->|[->| ->]], Hdc' as [->|[->| ->]]; lia.
Qed.

(** The pattern of the three [puede_mover] of the sliding pieces: a test of
    the geometry, then the path check.  When the test holds exactly of the
    squares on the piece's lines, the predicate agrees with the
    generator. *)
Lemma deslizante_puede_mover (DIRECCIONES : list (Z * Z)) (guardia : bool)
    (self : Pieza) (f c nf nc : Z) (tablero : Tablero) :
  Atributos.DIRECCIONES self = Ok DIRECCIONES →
  (∀ df dc, (df, dc) ∈ DIRECCIONES →
            (df = -1 ∨ df = 0 ∨ df = 1) ∧ (dc = -1 ∨ dc = 0 ∨ dc = 1)
            ∧ (df ≠ 0 ∨ dc ≠ 0)) →
  (guardia = true ↔
   ∃ df dc k, (df, dc) ∈ DIRECCIONES ∧ 1 ≤ k
              ∧ nf = f + k * df ∧ nc = c + k * dc) →
  tablero_valido tablero →
  dentro_tablero f c = true → dentro_tablero nf nc = true →
  ∃ movimientos b,
    Pieza_.hijos_deslizantes self (f, c) tablero = Ok movimientos ∧
    (if guardia
     then Pieza_._verificar_camino_libre self (f, c) (nf, nc) tablero true
     else Ok false) = Ok b ∧
    (b = true ↔ jugada (casilla f c) (casilla nf nc) ∈ movimientos).
Proof.
  intros Hattr Hdirs Hguardia Hval Hd Hn.
  destruct (hijos_deslizantes_spec DIRECCIONES
              (λ df dc, (df, dc) ∈ DIRECCIONES) self f c tablero Hattr
              ltac:(done) Hval Hd)
    as (movimientos & Hmov & _ & Hm).
  exists movimientos. specialize (Hm nf nc Hn).
  destruct guardia.
  - destruct (proj1 Hguardia eq_refl) as (df & dc & k & Hin & Hk & -> & ->).
    destruct (Hdirs df dc Hin) as (Hdf & Hdc & Hmueve).
    destruct (_verificar_camino_libre_spec self tablero f c df dc k Hval Hd
                Hn Hdf Hdc Hmueve Hk) as (b & Hb & Hbt).
    exists b. split; [done|]. split; [done|]. rewrite Hm, Hbt. split.
    + intros Hll. exists df, dc, k. split; [done|]. split; [done|].
      split; [done|]. split; [|done].
      apply dentro_tablero_true in Hd, Hn. nia.
    + intros (df' & dc' & k' & Hin' & Ef & Ec & [Hk' _] & Hll).
      destruct (Hdirs df' dc' Hin') as (Hdf' & Hdc' & Hmueve').
      destruct (direccion_unica df dc k df' dc' k') as (-> & -> & ->);
        [done..|lia|lia|lia|lia|done].
  - exists false. split; [done|]. split; [done|]. rewrite Hm.
    split; [done|].
    intros (df & dc & k & Hin & Ef & Ec & [Hk _] & _).
    apply Hguardia. exists df, dc, k. split; [done|]. split; [lia|done].
Qed.

Lemma DIRECCIONES_torre (df dc : Z) :
  (df, dc) ∈ Torre.DIRECCIONES ↔
  (df = 0 ∧ (dc = 1 ∨ dc = -1)) ∨ (dc = 0 ∧ (df = 1 ∨ df = -1)).
Proof. exact (Torre_DIRECCIONES_forma df dc). Qed.

Lemma DIRECCIONES_alfil (df dc : Z) :
  (df, dc) ∈ Alfil.DIRECCIONES ↔ (df = 1 ∨ df = -1) ∧ (dc = 1 ∨ dc = -1).
Proof. exact (Alfil_DIRECCIONES_forma df dc). Qed.

Lemma DIRECCIONES_queen (df dc : Z) :
  (df, dc) ∈ Queen.DIRECCIONES ↔
  (df, dc) ∈ Torre.DIRECCIONES ∨ (df, dc) ∈ Alfil.DIRECCIONES.
Proof.
  rewrite DIRECCIONES_torre, DIRECCIONES_alfil.
  exact (Queen_DIRECCIONES_forma df dc).
Qed.

(** A square other than [(f, c)] is on a line of the rook exactly when it
    shares the row or the column. *)
Lemma en_linea_de_torre (f c nf nc : Z) :
  (nf, nc) ≠ (f, c) →
  (nf = f ∨ nc = c) ↔
  ∃ df dc k, (df, dc) ∈ Torre.DIRECCIONES ∧ 1 ≤ k
             ∧ nf = f + k * df ∧ nc = c + k * dc.
Proof.
  intros Hne. split.
  - intros [->| ->].
    + assert (nc ≠ c) by congruence.
      destruct (decide (c < nc)).
      * exists 0, 1, (nc - c). rewrite DIRECCIONES_torre. lia.
      * exists 0, (-1), (c - nc). rewrite DIRECCIONES_torre. lia.
    + assert (nf ≠ f) by congruence.
      destruct (decide (f < nf)).
      * exists 1, 0, (nf - f). rewrite DIRECCIONES_torre. lia.
      * exists (-1), 0, (f - nf). rewrite DIRECCIONES_torre. lia.
  - intros (df & dc & k & Hin & Hk & -> & ->).
    apply DIRECCIONES_torre in Hin. lia.
Qed.

(** ... and on a line of the bishop exactly when the distances in rows and
    columns are the same. *)
Lemma en_linea_de_alfil (f c nf nc : Z) :
  (nf, nc) ≠ (f, c) →
  Z.abs (nf - f) = Z.abs (nc - c) ↔
  ∃ df dc k, (df, dc) ∈ Alfil.DIRECCIONES ∧ 1 ≤ k
             ∧ nf = f + k * df ∧ nc = c + k * dc.
Proof.
  intros Hne. split.
  - intros Habs.
    assert (nf ≠ f).
    { intros ->. apply Hne. f_equal. lia. }
    exists (Z.sgn (nf - f)), (Z.sgn (nc - c)), (Z.abs (nf - f)).
    rewrite DIRECCIONES_alfil. lia.
  - intros (df & dc & k & Hin & Hk & -> & ->).
    apply DIRECCIONES_alfil in Hin. lia.
Qed.

Lemma direcciones_deslizantes (DIRECCIONES : list (Z * Z)) :
  (∀ df dc, (df, dc) ∈ DIRECCIONES → (df, dc) ∈ Queen.DIRECCIONES) →
  ∀ df dc, (df, dc) ∈ DIRECCIONES →
           (df = -1 ∨ df = 0 ∨ df = 1) ∧ (dc = -1 ∨ dc = 0 ∨ dc = 1)
           ∧ (df ≠ 0 ∨ dc ≠ 0).
Proof.
  intros Hsub df dc Hin. apply Hsub in Hin.
  apply DIRECCIONES_queen in Hin.
  rewrite DIRECCIONES_torre, DIRECCIONES_alfil in Hin. lia.
Qed.

Lemma torre_puede_mover_es_obtener_hijos (self : Pieza) (f c nf nc : Z)
    (tablero : Tablero) :
  clase self = CTorre →
  tablero_valido tablero →
  dentro_tablero f c = true → dentro_tablero nf nc = true →
  (nf, nc) ≠ (f, c) →
  ∃ movimientos b,
    Torre.obtener_hijos self (f, c) tablero = Ok movimientos ∧
    Torre.puede_mover self (casilla f c) (casilla nf nc) tablero = Ok b ∧
    (b = true ↔ jugada (casilla f c) (casilla nf nc) ∈ movimientos).
Proof.
  intros Hclase Hval Hd Hn Hne.
  pose proof (en_linea_de_torre f c nf nc Hne) as Htorre.
  unfold Torre.puede_mover, Torre.obtener_hijos.
  rewrite !notacion_de_casilla by done. res_simpl. rewrite Hn. cbn [negb].
  destruct (deslizante_puede_mover Torre.DIRECCIONES
              (negb (negb (f =? nf) && negb (c =? nc)))
              self f c nf nc tablero) as (movimientos & b & H1 & H2 & H3);
    try done.
  - unfold Atributos.DIRECCIONES. by rewrite Hclase.
  - apply direcciones_deslizantes. intros df dc H.
    apply DIRECCIONES_queen. by left.
  - rewrite <- Htorre.
    rewrite negb_true_iff, andb_false_iff, !negb_false_iff, !Z.eqb_eq. lia.
  - exists movimientos, b. split; [done|]. split; [|done].
    destruct (negb (f =? nf) && negb (c =? nc)); done.
Qed.

Lemma alfil_puede_mover_es_obtener_hijos (self : Pieza) (f c nf nc : Z)
    (tablero : Tablero) :
  clase self = CAlfil →
  tablero_valido tablero →
  dentro_tablero f c = true → dentro_tablero nf nc = true →
  (nf, nc) ≠ (f, c) →
  ∃ movimientos b,
    Alfil.obtener_hijos self (f, c) tablero = Ok movimientos ∧
    Alfil.puede_mover self (casilla f c) (casilla nf nc) tablero = Ok b ∧
    (b = true ↔ jugada (casilla f c) (casilla nf nc) ∈ movimientos).
Proof.
  intros Hclase Hval Hd Hn Hne.
  pose proof (en_linea_de_alfil f c nf nc Hne) as Halfil.
  unfold Alfil.puede_mover, Alfil.obtener_hijos.
  rewrite !notacion_de_casilla by done. res_simpl. rewrite Hn. cbn [negb].
  destruct (deslizante_puede_mover Alfil.DIRECCIONES
              (Z.abs (nf - f) =? Z.abs (nc - c))
              self f c nf nc tablero) as (movimientos & b & H1 & H2 & H3);
    try done.
  - unfold Atributos.DIRECCIONES. by rewrite Hclase.
  - apply direcciones_deslizantes. intros df dc H.
    apply DIRECCIONES_queen. by right.
  - by rewrite <- Halfil, Z.eqb_eq.
  - exists movimientos, b. split; [done|]. split; [|done].
    destruct (Z.abs (nf - f) =? Z.abs (nc - c)); done.
Qed.

Lemma queen_puede_mover_es_obtener_hijos (self : Pieza) (f c nf nc : Z)
    (tablero : Tablero) :
  clase self = CQueen →
  tablero_valido tablero →
  dentro_tablero f c = true → dentro_tablero nf nc = true →
  (nf, nc) ≠ (f, c) →
  ∃ movimientos b,
    Queen.obtener_hijos self (f, c) tablero = Ok movimientos ∧
    Queen.puede_mover self (casilla f c) (casilla nf nc) tablero = Ok b ∧
    (b = true ↔ jugada (casilla f c) (casilla nf nc) ∈ movimientos).
Proof.
  intros Hclase Hval Hd Hn Hne.
  pose proof (en_linea_de_torre f c nf nc Hne) as Htorre.
  pose proof (en_linea_de_alfil f c nf nc Hne) as Halfil.
  unfold Queen.puede_mover, Queen.obtener_hijos.
  rewrite !notacion_de_casilla by done. res_simpl. rewrite Hn. cbn [negb].
  destruct (deslizante_puede_mover Queen.DIRECCIONES
              ((Z.abs (nf - f) =? 0) || (Z.abs (nc - c) =? 0)
               || (Z.abs (nf - f) =? Z.abs (nc - c)))
              self f c nf nc tablero) as (movimientos & b & H1 & H2 & H3);
    try done.
  - unfold Atributos.DIRECCIONES. by rewrite Hclase.
  - by apply direcciones_deslizantes.
  - rewrite !orb_true_iff, !Z.eqb_eq. split.
    + intros H.
      assert ((nf = f ∨ nc = c) ∨ Z.abs (nf - f) = Z.abs (nc - c))
        as [Hl|Hl] by lia.
      * apply Htorre in Hl as (df & dc & k & Hin & Hk).
        exists df, dc, k. split; [|done]. apply DIRECCIONES_queen.
        by left.
      * apply Halfil in Hl as (df & dc & k & Hin & Hk).
        exists df, dc, k. split; [|done]. apply DIRECCIONES_queen.
        by right.
    + intros (df & dc & k & Hin & Hk).
      apply DIRECCIONES_queen in Hin as [Hin|Hin].
      * assert (nf = f ∨ nc = c) as Hl; [|lia].
        apply Htorre. by exists df, dc, k.
      * assert (Z.abs (nf - f) = Z.abs (nc - c)) as Hl; [|lia].
        apply Halfil. by exists df, dc, k.
  - exists movimientos, b. split; [done|]. split; [|done].
    destruct ((Z.abs (nf - f) =? 0) || (Z.abs (nc - c) =? 0)
              || (Z.abs (nf - f) =? Z.abs (nc - c))); done.
Qed.

(** X8: for a rook, a bishop and a queen (objects of class [Torre], [Alfil]
    and [Queen]), the [puede_mover] of the piece (a test of the geometry
    followed by [_verificar_camino_libre]) and its [obtener_hijos] (the ray
    casting) agree on every pair of distinct squares of the board: the
    predicate answers true exactly when the generator run on the origin
    square lists the move. *)
Theorem X8_deslizantes_puede_mover_es_obtener_hijos
    (torre alfil queen : Pieza) (f c nf nc : Z) (tablero : Tablero) :
  clase torre = CTorre → clase alfil = CAlfil → clase queen = CQueen →
  tablero_valido tablero →
  dentro_tablero f c = true → dentro_tablero nf nc = true →
  (nf, nc) ≠ (f, c) →
  (∃ movimientos b,
     Torre.obtener_hijos torre (f, c) tablero = Ok movimientos ∧
     Torre.puede_mover torre (casilla f c) (casilla nf nc) tablero = Ok b ∧
     (b = true ↔ jugada (casilla f c) (casilla nf nc) ∈ movimientos)) ∧
  (∃ movimientos b,
     Alfil.obtener_hijos alfil (f, c) tablero = Ok movimientos ∧
     Alfil.puede_mover alfil (casilla f c) (casilla nf nc) tablero = Ok b ∧
     (b = true ↔ jugada (casilla f c) (casilla nf nc) ∈ movimientos)) ∧
  (∃ movimientos b,
     Queen.obtener_hijos queen (f, c) tablero = Ok movimientos ∧
     Queen.puede_mover queen (casilla f c) (casilla nf nc) tablero = Ok b ∧
     (b = true ↔ jugada (casilla f c) (casilla nf nc) ∈ movimientos)).
Proof.
  intros Htorre Halfil Hqueen Hval Hd Hn Hne. split; [|split].
  - by apply torre_puede_mover_es_obtener_hijos.
  - by apply alfil_puede_mover_es_obtener_hijos.
  - by apply queen_puede_mover_es_obtener_hijos.
Qed.

Lemma X8_deslizantes_puede_mover_es_obtener_hijos_witness :
  clase (Torre.__init__ "B" 1) = CTorre ∧
  clase (Alfil.__init__ "B" 1) = CAlfil ∧
  clase (Queen.__init__ "B" 1) = CQueen ∧
  tablero_valido tablero_enroque ∧
  dentro_tablero 7 0 = true ∧ dentro_tablero 0 0 = true ∧
  (0, 0) ≠ (7, 0) ∧
  (∃ movimientos b,
     Torre.obtener_hijos (Torre.__init__ "B" 1) (7, 0) tablero_enroque
     = Ok movimientos ∧
     Torre.puede_mover (Torre.__init__ "B" 1) (casilla 7 0) (casilla 0 0)
                       tablero_enroque = Ok b ∧
     (b = true ↔ jugada (casilla 7 0) (casilla 0 0) ∈ movimientos)) ∧
  (∃ movimientos b,
     Alfil.obtener_hijos (Alfil.__init__ "B" 1) (7, 0) tablero_enroque
     = Ok movimientos ∧
     Alfil.puede_mover (Alfil.__init__ "B" 1) (casilla 7 0) (casilla 0 0)
                       tablero_enroque = Ok b ∧
     (b = true ↔ jugada (casilla 7 0) (casilla 0 0) ∈ movimientos)) ∧
  (∃ movimientos b,
     Queen.obtener_hijos (Queen.__init__ "B" 1) (7, 0) tablero_enroque
     = Ok movimientos ∧
     Queen.puede_mover (Queen.__init__ "B" 1) (casilla 7 0) (casilla 0 0)
                       tablero_enroque = Ok b ∧
     (b = true ↔ jugada (casilla 7 0) (casilla 0 0) ∈ movimientos)).
Proof.
  split; [reflexivity|]. split; [reflexivity|]. split; [reflexivity|].
  split; [compute_done|]. split; [reflexivity|]. split; [reflexivity|].
  split; [discriminate|].
  apply (X8_deslizantes_puede_mover_es_obtener_hijos (Torre.__init__ "B" 1)
           (Alfil.__init__ "B" 1) (Queen.__init__ "B" 1)
           7 0 0 0 tablero_enroque).
  - reflexivity.
  - reflexivity.
  - reflexivity.
  - compute_done.
  - reflexivity.
  - reflexivity.
  - discriminate.
Defined.

(** The bishop's predicate and generator on a rook, which the statement
    leaves out: the generator casts the rook's rays, the predicate tests
    the bishop's geometry. *)
Example alfil_sobre_una_torre :
  Alfil.obtener_hijos (Torre.__init__ "B" 1) (7, 0) tablero_enroque
  = Torre.obtener_hijos (Torre.__init__ "B" 1) (7, 0) tablero_enroque ∧
  Alfil.puede_mover (Torre.__init__ "B" 1) "a1" "a8" tablero_enroque
  = Ok false.
Proof. split; vm_compute; reflexivity. Qed.

(** The rook on a1 of the castling board may take the rook on a8 and may
    not pass its own king. *)
Example torre_a1_puede_mover :
  Torre.puede_mover (Torre.__init__ "B" 1) "a1" "a8" tablero_enroque = Ok true
  ∧ Torre.puede_mover (Torre.__init__ "B" 1) "a1" "f1" tablero_enroque
    = Ok false.
Proof. split; vm_compute; reflexivity. Qed.

(** ** Pawns: the predicate and the generator *)

(** The candidates of a pawn, by the coordinates of the destination. *)
Lemma peon_hijos_coordenadas (self : Pieza) (f c nf nc : Z)
    (tablero : Tablero) :
  tablero_valido tablero →
  dentro_tablero f c = true → dentro_tablero nf nc = true →
  peon_construido self →
  let dir := obtener_direccion_color (color self) in
  ∃ movimientos,
    Peon.obtener_hijos self (f, c) tablero = Ok movimientos ∧
    (jugada (casilla f c) (casilla nf nc) ∈ movimientos ↔
       (nf = f + dir ∧ nc = c ∧ vacia tablero nf nc)
       ∨ (nf = f + 2 * dir ∧ nc = c ∧ vacia tablero (f + dir) c ∧
          movida self = false ∧ f = obtener_fila_inicial (color self) ∧
          vacia tablero nf nc)
       ∨ (nf = f + dir ∧ Z.abs (nc - c) = 1 ∧
          ∃ p, np_get tablero nf nc = Ok p ∧ enemiga (color self) p)).
Proof.
  intros Hval Hd Hn [reciente Hclase] dir.
  destruct (peon_hijos_spec self f c _ _ _ tablero Hval Hd Hclase)
    as (movimientos & Hmov & Hm).
  exists movimientos. split; [done|]. rewrite Hm. fold dir.
  apply dentro_tablero_true in Hd as Hfc, Hn as Hnfc.
  split.
  - intros [(Heq & Hd1 & Hv) | [(Heq & Hd1 & Hv1 & Hmv & Hfi & Hd2 & Hv2)
                               | (dc & Hdc & Heq & Hd3 & Hp)]].
    + apply jugada_inj, casilla_inj in Heq as [-> ->]; [|lia..]. by left.
    + apply jugada_inj, casilla_inj in Heq as [-> ->]; [|lia..].
      right. left. done.
    + apply dentro_tablero_true in Hd3.
      apply jugada_inj, casilla_inj in Heq as [-> ->]; [|lia..].
      right. right. split; [done|]. split; [lia|done].
  - intros [(-> & -> & Hv) | [(-> & -> & Hv1 & Hmv & Hfi & Hv2)
                             | (-> & Hnc & Hp)]].
    + left. done.
    + right. left. repeat split; try done.
      pose proof (direccion_fila_inicial (color self)) as Hdir.
      fold dir in Hdir. apply dentro_tablero_true. lia.
    + right. right. exists (nc - c). split; [lia|].
      replace (c + (nc - c)) with nc by lia. done.
Qed.

(** X9: for a white or a black pawn, [Peon.puede_mover] accepts every move
    that [Peon.obtener_hijos] generates, and the only moves it accepts
    beyond them are two-square advances of a pawn whose [movida] flag is
    set: the predicate tests the starting rank and the two squares ahead,
    but not the flag. *)
Theorem X9_peon_puede_mover_y_obtener_hijos (self : Pieza) (f c nf nc : Z)
    (tablero : Tablero) :
  tablero_valido tablero →
  dentro_tablero f c = true → dentro_tablero nf nc = true →
  peon_construido self →
  color self = "B" ∨ color self = "N" →
  ∃ movimientos b,
    Peon.obtener_hijos self (f, c) tablero = Ok movimientos ∧
    Peon.puede_mover self (casilla f c) (casilla nf nc) tablero = Ok b ∧
    (b = true ↔
     jugada (casilla f c) (casilla nf nc) ∈ movimientos
     ∨ (movida self = true ∧ f = obtener_fila_inicial (color self) ∧
        nf = f + 2 * obtener_direccion_color (color self) ∧ nc = c ∧
        libre1 self tablero f c ∧ libre2 self tablero f c)).
Proof.
  intros Hval Hd Hn Hpeon Hcolor.
  destruct (peon_hijos_coordenadas self f c nf nc tablero Hval Hd Hn Hpeon)
    as (movimientos & Hmov & Hm).
  exists movimientos. destruct Hval as [H8 Hnv].
  destruct Hpeon as [reciente Hclase].
  unfold Peon.puede_mover, libre1, libre2.
  rewrite !notacion_de_casilla by done. res_simpl. rewrite Hn. cbn [negb].
  destruct (np_get_dentro tablero nf nc H8 Hn) as (p & Hp & _).
  destruct (np_get_no_vacia tablero _ _ p Hnv Hp) as [c0 Hc0].
  apply dentro_tablero_true in Hd as Hfc, Hn as Hnfc.
  set (dir := obtener_direccion_color (color self)) in *.
  set (fi := obtener_fila_inicial (color self)) in *.
  assert (bool_decide (color self = "B") && (nf - f >=? 0)
          || bool_decide (color self = "N") && (nf - f <=? 0) = false
          ↔ 0 < (nf - f) * dir) as Hsigno.
  { clear Hm Hclase. unfold dir, obtener_direccion_color.
    destruct Hcolor as [E|E]; rewrite E.
    - rewrite (bool_decide_eq_true_2 ("B" = "B")) by done.
      rewrite (bool_decide_eq_false_2 ("B" = "N")) by done.
      rewrite decide_True by done. cbn [andb orb].
      rewrite orb_false_r, Z.geb_leb, Z.leb_gt. lia.
    - rewrite (bool_decide_eq_false_2 ("N" = "B")) by done.
      rewrite (bool_decide_eq_true_2 ("N" = "N")) by done.
      rewrite decide_False by done. cbn [andb orb].
      rewrite Z.leb_gt. lia. }
  assert (dir = -1 ∧ fi = 6 ∨ dir = 1 ∧ fi = 1) as Hdir
    by apply direccion_fila_inicial.
  unfold vacia in Hm. rewrite Hp in Hm.
  destruct (bool_decide (color self = "B") && (nf - f >=? 0)
            || bool_decide (color self = "N") && (nf - f <=? 0)) eqn:Esigno.
  { (* the wrong way *)
    exists false. split; [done|]. split; [done|]. split; [done|].
    assert (¬ 0 < (nf - f) * dir) as Hno.
    { intros H. apply Hsigno in H. discriminate. }
    rewrite Hm. intros [[H|[H|H]]|H]; lia. }
  assert (0 < (nf - f) * dir) as Hs by (by apply Hsigno).
  clear Hsigno Esigno.
  destruct (c =? nc) eqn:Ecol.
  - (* Movimiento vertical *)
    apply Z.eqb_eq in Ecol. subst nc. rewrite Hp. res_simpl.
    case_decide as Hvac.
    + exists false. split; [done|]. split; [done|]. split; [done|].
      rewrite Hm. intros [[H|[H|H]]|H].
      * destruct H as (_ & _ & [= ->]). done.
      * destruct H as (_ & _ & _ & _ & _ & [= ->]). done.
      * lia.
      * destruct H as (_ & _ & -> & _ & _ & Hl2). unfold vacia in Hl2.
        rewrite Hp in Hl2. injection Hl2 as ->. done.
    + subst p. destruct (Z.abs (nf - f) =? 1) eqn:Euno.
      * apply Z.eqb_eq in Euno. exists true. split; [done|].
        split; [done|]. split; [|done]. intros _. left. rewrite Hm.
        left. split; [lia|done].
      * apply Z.eqb_neq in Euno. rewrite Hclase.
        destruct ((f =? fi) && (Z.abs (nf - f) =? 2)) eqn:Edos.
        -- apply andb_true_iff in Edos as [E1 E2].
           apply Z.eqb_eq in E1, E2.
           assert (nf = f + 2 * dir) as Hnf by lia.
           replace ((f + nf) `div` 2) with (f + dir).
           2:{ subst nf. replace (f + (f + 2 * dir)) with ((f + dir) * 2)
                 by ring. by rewrite Z.div_mul. }
           destruct (np_get_dentro tablero (f + dir) c H8) as (q & Hq & _).
           { apply dentro_tablero_true. lia. }
           rewrite Hq. res_simpl. eexists. split; [done|].
           split; [done|]. rewrite bool_decide_eq_true, Hm.
           unfold vacia. rewrite Hq. rewrite <- Hnf. rewrite Hp.
           destruct (movida self); split.
           ++ intros ->. right. done.
           ++ intros [[H|[H|H]]|H]; [lia| |lia|].
              ** by destruct H as (_ & _ & [= ->] & _).
              ** by destruct H as (_ & _ & _ & _ & [= ->] & _).
           ++ intros ->. left. right. left. done.
           ++ intros [[H|[H|H]]|H]; [lia| |lia|].
              ** by destruct H as (_ & _ & [= ->] & _).
              ** by destruct H as (_ & _ & _ & _ & [= ->] & _).
        -- exists false. split; [done|]. split; [done|]. split; [done|].
           apply andb_false_iff in Edos.
           rewrite !Z.eqb_neq in Edos.
           rewrite Hm. intros [[H|[H|H]]|H]; lia.
  - apply Z.eqb_neq in Ecol.
    destruct ((Z.abs (nc - c) =? 1) && (Z.abs (nf - f) =? 1)) eqn:Ediag.
    + (* Captura diagonal *)
      apply andb_true_iff in Ediag as [E1 E2]. apply Z.eqb_eq in E1, E2.
      rewrite Hp. res_simpl. case_decide as Hvac.
      * exists false. split; [done|]. split; [done|]. split; [done|].
        rewrite Hm. intros [[H|[H|H]]|H]; [lia|lia| |lia].
        destruct H as (_ & _ & p' & [= <-] & Hne & _). done.
      * rewrite Hc0. res_simpl. eexists. split; [done|]. split; [done|].
        rewrite bool_decide_eq_true, Hm. split.
        -- intros Hcol. left. right. right. split; [lia|]. split; [done|].
           exists p. split; [done|]. split; [done|]. by exists c0.
        -- intros [[H|[H|H]]|H]; [lia|lia| |lia].
           destruct H as (_ & _ & p' & [= <-] & _ & c0' & Hc0' & Hcol).
           congruence.
    + exists false. split; [done|]. split; [done|]. split; [done|].
      apply andb_false_iff in Ediag. rewrite !Z.eqb_neq in Ediag.
      rewrite Hm. intros [[H|[H|H]]|H]; lia.
Qed.

Lemma X9_peon_puede_mover_y_obtener_hijos_witness :
  tablero_valido AgenteAjedrez.tablero_inicial ∧
  dentro_tablero 6 4 = true ∧ dentro_tablero 4 4 = true ∧
  peon_construido (con_movida true (Peon.__init__ "B" 5)) ∧
  (color (con_movida true (Peon.__init__ "B" 5)) = "B"
   ∨ color (con_movida true (Peon.__init__ "B" 5)) = "N") ∧
  ∃ movimientos b,
    Peon.obtener_hijos (con_movida true (Peon.__init__ "B" 5)) (6, 4)
                       AgenteAjedrez.tablero_inicial = Ok movimientos ∧
    Peon.puede_mover (con_movida true (Peon.__init__ "B" 5))
                     (casilla 6 4) (casilla 4 4)
                     AgenteAjedrez.tablero_inicial = Ok b ∧
    (b = true ↔
     jugada (casilla 6 4) (casilla 4 4) ∈ movimientos
     ∨ (movida (con_movida true (Peon.__init__ "B" 5)) = true ∧
        6 = obtener_fila_inicial
              (color (con_movida true (Peon.__init__ "B" 5))) ∧
        4 = 6 + 2 * obtener_direccion_color
                      (color (con_movida true (Peon.__init__ "B" 5))) ∧
        4 = 4 ∧
        libre1 (con_movida true (Peon.__init__ "B" 5))
               AgenteAjedrez.tablero_inicial 6 4 ∧
        libre2 (con_movida true (Peon.__init__ "B" 5))
               AgenteAjedrez.tablero_inicial 6 4)).
Proof.
  split; [compute_done|]. split; [reflexivity|]. split; [reflexivity|].
  split; [by exists false|]. split; [by left|].
  apply (X9_peon_puede_mover_y_obtener_hijos
           (con_movida true (Peon.__init__ "B" 5)) 6 4 4 4
           AgenteAjedrez.tablero_inicial).
  - compute_done.
  - reflexivity.
  - reflexivity.
  - by exists false.
  - by left.
Defined.

(** The pawn that has moved and stands on e2 again: the predicate accepts
    e2-e4, the generator does not list it. *)
Example peon_movido_puede_mover :
  Peon.puede_mover (con_movida true (Peon.__init__ "B" 5)) "e2" "e4"
                   AgenteAjedrez.tablero_inicial = Ok true ∧
  Peon.obtener_hijos (con_movida true (Peon.__init__ "B" 5)) (6, 4)
                     AgenteAjedrez.tablero_inicial = Ok ["e2 e3"].
Proof. split; vm_compute; reflexivity. Qed.

(** ** The executor: when it returns, and what it leaves alone *)

Lemma np_set_retorna (tablero : Tablero) (f c : Z) (x v : string) :
  np_get tablero f c = Ok x → retorna (np_set tablero f c v).
Proof.
  intros Hx. apply np_get_Ok in Hx as (i & j & fila & Hi & Hf & Hj & _).
  unfold np_set. rewrite Hi. res_simpl.
  assert (lista_indice tablero f = Ok fila) as ->.
  { apply lista_indice_Ok. by exists i. }
  res_simpl. rewrite Hj. res_simpl. by eexists.
Qed.

Lemma np_set_forma (tablero tablero' : Tablero) (f c : Z) (v : string) :
  tablero_8x8 tablero → np_set tablero f c v = Ok tablero' →
  tablero_8x8 tablero'.
Proof.
  intros H8 H. by destruct (np_set_8x8 _ _ _ _ _ H8 H) as (? & ? & _ & _ & ? & _).
Qed.

(** A Normal or an EnPassant move on squares that the board can be read
    at: the executor returns when the origin id is registered and raises
    otherwise. *)
Lemma ejecutar_normal_casos (piezas : gmap string Pieza)
    (movimiento : MovimientoAjedrez) (tablero : Tablero) :
  tablero_8x8 tablero →
  tipo movimiento = NORMAL ∨ tipo movimiento = EN_PASSANT →
  ∀ pieza_id pieza_destino_id,
    pieza_en tablero (desde movimiento) pieza_id →
    pieza_en tablero (hasta movimiento) pieza_destino_id →
    (is_Some (piezas !! pieza_id) →
     retorna (GestorPiezas.ejecutar_movimiento piezas movimiento tablero)) ∧
    (piezas !! pieza_id = None →
     GestorPiezas.ejecutar_movimiento piezas movimiento tablero
     = Lanza AttributeError).
Proof.
  intros H8 Htipo pid dest (fd & cd & Hd & Hpid) (fh & ch & Hh & Hdest).
  unfold GestorPiezas.ejecutar_movimiento.
  rewrite Hd, Hh. res_simpl. rewrite Hpid, Hdest. res_simpl.
  destruct (np_set_retorna tablero fh ch dest pid Hdest) as [t1 Ht1].
  assert (∃ t2, np_set t1 fd cd "..." = Ok t2) as [t2 Ht2].
  { destruct (np_set_8x8 _ _ _ _ _ H8 Ht1) as (i & j & _ & _ & H81 & _).
    apply (np_get_8x8 _ _ _ _ H8) in Hpid as (i' & j' & Hi' & Hj' & Hc).
    assert (is_Some (celda t1 i' j')) as [y Hy].
    { destruct (np_set_8x8 _ _ _ _ _ H8 Ht1) as (? & ? & _ & _ & _ & Hcel).
      rewrite Hcel. case_decide; by eexists. }
    apply (np_set_retorna t1 fd cd y). apply np_get_8x8; [done|].
    by exists i', j'. }
  assert (tablero_8x8 t2) as H82.
  { eapply np_set_forma; [|exact Ht2]. by eapply np_set_forma. }
  unfold GestorPiezas.get_pieza.
  split.
  - intros [p Hp].
    destruct Htipo as [-> | ->]; rewrite Ht1; res_simpl; rewrite Ht2;
      res_simpl; rewrite Hp; res_simpl;
      match goal with
      | |- retorna (GestorPiezas.sincronizar_con_tablero ?g t2 ≫= _) =>
          destruct (sincronizar_spec g t2 H82) as (g' & -> & _)
      end; res_simpl; by eexists.
  - intros Hp.
    destruct Htipo as [-> | ->]; rewrite Ht1; res_simpl; rewrite Ht2;
      res_simpl; rewrite Hp; reflexivity.
Qed.

(** X10: on an 8x8 board, with origin and destination notations that name
    squares the board can be read at, a Normal or an EnPassant move is
    carried out exactly when the id on the origin square is registered.
    When it is not, as on an empty origin square whose ['...'] has no
    entry, the executor raises [AttributeError]: it does not return
    a board. *)
Theorem X10_ejecutar_exige_pieza_registrada (piezas : gmap string Pieza)
    (movimiento : MovimientoAjedrez) (tablero : Tablero) :
  tablero_8x8 tablero →
  tipo movimiento = NORMAL ∨ tipo movimiento = EN_PASSANT →
  ∀ pieza_id pieza_destino_id,
    pieza_en tablero (desde movimiento) pieza_id →
    pieza_en tablero (hasta movimiento) pieza_destino_id →
    (is_Some (piezas !! pieza_id) →
     retorna (GestorPiezas.ejecutar_movimiento piezas movimiento tablero)) ∧
    (piezas !! pieza_id = None →
     GestorPiezas.ejecutar_movimiento piezas movimiento tablero
     = Lanza AttributeError).
Proof.
  intros H8 Htipo pid dest Hd Hh.
  exact (ejecutar_normal_casos piezas movimiento tablero H8 Htipo pid dest
           Hd Hh).
Qed.

Lemma X10_ejecutar_exige_pieza_registrada_witness :
  tablero_8x8 AgenteAjedrez.tablero_inicial ∧
  (tipo (normal "e4" "e5") = NORMAL ∨ tipo (normal "e4" "e5") = EN_PASSANT) ∧
  pieza_en AgenteAjedrez.tablero_inicial (desde (normal "e4" "e5")) "..." ∧
  pieza_en AgenteAjedrez.tablero_inicial (hasta (normal "e4" "e5")) "..." ∧
  gestor_inicial !! "..." = None ∧
  GestorPiezas.ejecutar_movimiento gestor_inicial (normal "e4" "e5")
                                   AgenteAjedrez.tablero_inicial
  = Lanza AttributeError.
Proof.
  split; [compute_done|]. split; [by left|].
  split; [exists 4, 4; split; reflexivity|].
  split; [exists 3, 4; split; reflexivity|].
  split; [reflexivity|].
  apply (X10_ejecutar_exige_pieza_registrada gestor_inicial
           (normal "e4" "e5") AgenteAjedrez.tablero_inicial) with "..." "...".
  - compute_done.
  - by left.
  - exists 4, 4. split; reflexivity.
  - exists 3, 4. split; reflexivity.
  - reflexivity.
Defined.

Lemma ocupante_decidible (tablero : Tablero) (x : string) :
  ocupante tablero x ∨ ¬ ocupante tablero x.
Proof.
  destruct (decide (x ≠ "..." ∧
              Exists (λ i, Exists (λ j, celda tablero i j = Some x)
                                  (seq 0 8)) (seq 0 8))) as [[Hx He]|Hno].
  - left. split; [done|]. apply Exists_exists in He as (i & Hi & He).
    apply Exists_exists in He as (j & Hj & Hc).
    apply elem_of_seq in Hi. apply elem_of_seq in Hj.
    exists i, j. split; [lia|]. split; [lia|done].
  - right. intros (Hx & i & j & Hi & Hj & Hc). apply Hno. split; [done|].
    apply Exists_exists. exists i. split; [apply elem_of_seq; lia|].
    apply Exists_exists. exists j. split; [apply elem_of_seq; lia|done].
Qed.

Lemma pieza_en_celda (tablero : Tablero) (notacion x : string) (f c : Z)
    (i j : nat) :
  tablero_8x8 tablero →
  notacion_a_posicion notacion = Ok (f, c) →
  indice_normal 8 f = Ok i → indice_normal 8 c = Ok j →
  (pieza_en tablero notacion x ↔ celda tablero i j = Some x).
Proof.
  intros H8 Hn Hi Hj. unfold pieza_en. split.
  - intros (f' & c' & Hn' & Hx). rewrite Hn in Hn'. injection Hn' as <- <-.
    apply (np_get_8x8 _ _ _ _ H8) in Hx as (i' & j' & Hi' & Hj' & Hx).
    congruence.
  - intros Hx. exists f, c. split; [done|]. apply np_get_8x8; [done|].
    by exists i, j.
Qed.



(** X12: the executor changes no entry of the registry but the one of the
    piece that it puts on the destination square.  Every other entry of the
    registry it returns was in the registry before, with the same flags:
    entries are kept as they are or dropped, never rewritten. *)
Theorem X12_ejecutar_no_toca_otras_piezas (piezas piezas' : gmap string Pieza)
    (movimiento : MovimientoAjedrez) (tablero tablero' : Tablero) :
  tablero_8x8 tablero →
  GestorPiezas.ejecutar_movimiento piezas movimiento tablero
  = Ok (tablero', piezas') →
  ∀ k p, piezas' !! k = Some p →
         ¬ pieza_en tablero' (hasta movimiento) k →
         piezas !! k = Some p.
Proof.
  intros H8 H k p Hk Hno.
  destruct (ejecutar_movimiento_inv _ _ _ _ _ H8 H)
    as (fd & cd & fh & ch & pid & dest & i_d & j_d & i_h & j_h & piezas2
        & Hd & Hh & Hid & Hjd & Hih & Hjh & Hpid & Hdest & H8' & Hsinc & Hcaso).
  rewrite (pieza_en_celda tablero' _ _ fh ch i_h j_h H8' Hh Hih Hjh) in Hno.
  destruct (ocupante_decidible tablero' k) as [Hoc|Hoc].
  2:{ rewrite (proj2 (Hsinc k) Hoc) in Hk. discriminate. }
  rewrite (proj1 (Hsinc k) Hoc) in Hk. destruct Hoc as [Hkne _].
  cbv zeta in Hcaso.
  assert (∀ q, (if decide (dest ≠ "..." ∧ tipo movimiento ≠ ENROQUE)
                then delete dest piezas else piezas) !! k = Some q →
               piezas !! k = Some q) as H1.
  { intros q. destruct (decide (dest ≠ "..." ∧ tipo movimiento ≠ ENROQUE));
      [|done].
    rewrite lookup_delete_Some. tauto. }
  set (piezas1 := if decide (dest ≠ "..." ∧ tipo movimiento ≠ ENROQUE)
                  then delete dest piezas else piezas) in *.
  assert (∀ p0,
    tipo movimiento ≠ ENROQUE →
    piezas2 = (if decide (is_Some (piezas1 !! pid))
               then <[pid := p0]> piezas1 else piezas1) →
    (∀ i j, celda tablero' i j =
            if decide (i = i_d ∧ j = j_d) then Some "..."
            else if decide (i = i_h ∧ j = j_h) then Some pid
            else celda tablero i j) →
    piezas !! k = Some p) as Hnormal.
  { intros p0 Htipo Hp2 Hcel. destruct (decide (k = pid)) as [->|Hne].
    - rewrite Hcel in Hno.
      destruct (decide (i_h = i_d ∧ j_h = j_d)) as [[-> ->]|Hdist].
      + assert (dest = pid) as Hdp by congruence.
        rewrite Hp2 in Hk. unfold piezas1 in Hk. rewrite Hdp in Hk.
        rewrite (decide_True (P := pid ≠ "..." ∧ _)) in Hk by (by split).
        rewrite lookup_delete_eq in Hk.
        rewrite decide_False in Hk by (by intros [? ?]).
        rewrite lookup_delete_eq in Hk. discriminate.
      + rewrite (decide_True (P := i_h = i_h ∧ j_h = j_h)) in Hno by done.
        by destruct Hno.
    - apply H1. rewrite Hp2 in Hk. case_decide; [|done].
      by rewrite lookup_insert_ne in Hk. }
  destruct (tipo movimiento) eqn:Etipo.
  - destruct Hcaso as (p0 & _ & Hp2 & Hcel). by eapply Hnormal.
  - destruct Hcaso as [_ ->]. by apply H1.
  - destruct Hcaso as (p0 & _ & Hp2 & Hcel). by eapply Hnormal.
  - destruct Hcaso as (c0 & max_num & clase & _ & _ & Hp2 & Hcel).
    rewrite Hcel in Hno. rewrite decide_True in Hno by done.
    rewrite Hp2 in Hk. rewrite lookup_insert_ne in Hk.
    2:{ intros <-. by destruct Hno. }
    apply lookup_delete_Some in Hk as [_ Hk]. by apply H1.
Qed.

Lemma X12_ejecutar_no_toca_otras_piezas_witness :
  tablero_8x8 AgenteAjedrez.tablero_inicial ∧
  GestorPiezas.ejecutar_movimiento gestor_inicial (normal "e2" "e4")
                                   AgenteAjedrez.tablero_inicial
  = Ok (tras_e2_e4.1, tras_e2_e4.2) ∧
  ∀ k p, tras_e2_e4.2 !! k = Some p →
         ¬ pieza_en tras_e2_e4.1 (hasta (normal "e2" "e4")) k →
         gestor_inicial !! k = Some p.
Proof.
  split; [compute_done|]. split; [vm_compute; reflexivity|].
  apply (X12_ejecutar_no_toca_otras_piezas gestor_inicial tras_e2_e4.2
           (normal "e2" "e4") AgenteAjedrez.tablero_inicial tras_e2_e4.1).
  - compute_done.
  - vm_compute. reflexivity.
Defined.

(** ** The registry stays coherent *)

Lemma entrada_coherente_marcada (k : string) (p : Pieza) (b : bool) :
  entrada_coherente k p →
  entrada_coherente k
    (con_movida true
       (if es_Peon p then con_movimiento_doble_reciente b p else p)).
Proof.
  destruct p as [co n i m cl]. unfold entrada_coherente, es_Peon,
    con_movimiento_doble_reciente, con_movida.
  destruct cl; simpl; done.
Qed.

Lemma PIEZAS_FACTORY_coherente (tipo : string)
    (clase : string → Z → Pieza) (color : string) (numero : Z) :
  GestorPiezas.PIEZAS_FACTORY tipo = Some clase →
  entrada_coherente (color +:+ tipo +:+ pretty numero) (clase color numero).
Proof.
  unfold GestorPiezas.PIEZAS_FACTORY.
  repeat case_decide; intros [= <-]; subst tipo; split; reflexivity.
Qed.

(** X13: the executor keeps the registry coherent.  If every entry is
    stored under its own [id], and that id is the colour, the class initial
    and the number of the piece, then so is every entry of the registry
    that the executor returns, the promoted piece included. *)
Theorem X13_ejecutar_conserva_coherencia (piezas piezas' : gmap string Pieza)
    (movimiento : MovimientoAjedrez) (tablero tablero' : Tablero) :
  tablero_8x8 tablero →
  registro_coherente piezas →
  GestorPiezas.ejecutar_movimiento piezas movimiento tablero
  = Ok (tablero', piezas') →
  registro_coherente piezas'.
Proof.
  intros H8 Hcoh H k p Hk.
  destruct (ejecutar_movimiento_inv _ _ _ _ _ H8 H)
    as (fd & cd & fh & ch & pid & dest & i_d & j_d & i_h & j_h & piezas2
        & Hd & Hh & Hid & Hjd & Hih & Hjh & Hpid & Hdest & H8' & Hsinc & Hcaso).
  destruct (ocupante_decidible tablero' k) as [Hoc|Hoc].
  2:{ rewrite (proj2 (Hsinc k) Hoc) in Hk. discriminate. }
  rewrite (proj1 (Hsinc k) Hoc) in Hk.
  cbv zeta in Hcaso.
  assert (∀ q, (if decide (dest ≠ "..." ∧ tipo movimiento ≠ ENROQUE)
                then delete dest piezas else piezas) !! k = Some q →
               entrada_coherente k q) as H1.
  { intros q. destruct (decide (dest ≠ "..." ∧ tipo movimiento ≠ ENROQUE)).
    - rewrite lookup_delete_Some. intros [_ Hq]. by apply (Hcoh k q).
    - apply (Hcoh k q). }
  set (piezas1 := if decide (dest ≠ "..." ∧ tipo movimiento ≠ ENROQUE)
                  then delete dest piezas else piezas) in *.
  assert (∀ p0 b,
    piezas !! pid = Some p0 →
    piezas2 = (if decide (is_Some (piezas1 !! pid))
               then <[pid := con_movida true
                               (if es_Peon p0
                                then con_movimiento_doble_reciente b p0
                                else p0)]> piezas1
               else piezas1) →
    entrada_coherente k p) as Hnormal.
  { intros p0 b Hp0 Hp2. rewrite Hp2 in Hk. case_decide; [|by apply H1].
    destruct (decide (k = pid)) as [->|Hne].
    - rewrite lookup_insert_eq in Hk. injection Hk as <-.
      apply entrada_coherente_marcada. by apply (Hcoh pid p0).
    - rewrite lookup_insert_ne in Hk by done. by apply H1. }
  destruct (tipo movimiento) eqn:Etipo.
  - destruct Hcaso as (p0 & Hp0 & Hp2 & _). by eapply Hnormal.
  - destruct Hcaso as [_ ->]. by apply H1.
  - destruct Hcaso as (p0 & Hp0 & Hp2 & _). by eapply Hnormal.
  - destruct Hcaso as (c0 & max_num & clase & _ & Hclase & Hp2 & _).
    rewrite Hp2 in Hk.
    destruct (info_adicional movimiento) as [s|] eqn:Einfo; [|done].
    simpl in Hclase.
    destruct (decide (k = String c0 "" +:+ s +:+ pretty (max_num + 1)))
      as [->|Hne].
    + simpl GestorPiezas.formato in Hk. rewrite lookup_insert_eq in Hk.
      injection Hk as <-. by apply PIEZAS_FACTORY_coherente.
    + simpl GestorPiezas.formato in Hk.
      rewrite lookup_insert_ne in Hk by done.
      apply lookup_delete_Some in Hk as [_ Hk]. by apply H1.
Qed.

Lemma X13_ejecutar_conserva_coherencia_witness :
  tablero_8x8 tablero_promocion ∧
  registro_coherente gestor_inicial ∧
  GestorPiezas.ejecutar_movimiento gestor_inicial promocion_a7_a8
                                   tablero_promocion
  = Ok (tras_promocion.1, tras_promocion.2) ∧
  registro_coherente tras_promocion.2.
Proof.
  split; [compute_done|]. split; [compute_done|].
  split; [vm_compute; reflexivity|].
  apply (X13_ejecutar_conserva_coherencia gestor_inicial tras_promocion.2
           promocion_a7_a8 tablero_promocion tras_promocion.1).
  - compute_done.
  - compute_done.
  - vm_compute. reflexivity.
Defined.

(** ** The driver *)











(** X17: whatever [mover] is called with, when it returns the agent keeps
    its colour, the visited set has lost nothing, and the state is visited
    if it was before; a result other than [True] leaves the whole agent as
    it was, and after [True] the new state is in the visited set. *)
Theorem X17_mover_conserva_visitados (self self' : AgenteAjedrez.t)
    (cadena promocion_pieza : string) (r : retorno) :
  AgenteAjedrez.mover self cadena promocion_pieza = Ok (r, self') →
  AgenteAjedrez.color self' = AgenteAjedrez.color self ∧
  AgenteAjedrez.visitados self ⊆ AgenteAjedrez.visitados self' ∧
  (r ≠ RTrue → self' = self) ∧
  (r = RTrue →
   AgenteAjedrez.estado self' ∈ AgenteAjedrez.visitados self').
Proof.
  unfold AgenteAjedrez.mover. case_decide as Hp.
  { intros [= <- <-]. done. }
  intros H. apply bind_Ok in H as ([ret|movimiento] & Hprep & H).
  - injection H as <- <-. split; [done|]. split; [done|]. split; [done|].
    intros ->. unfold AgenteAjedrez.preparar in Hprep.
    case_decide; [apply bind_Ok in Hprep as (? & _ & [=])|].
    apply bind_Ok in Hprep as (? & _ & Hprep).
    apply bind_Ok in Hprep as (? & _ & Hprep).
    apply bind_Ok in Hprep as (? & _ & Hprep).
    apply bind_Ok in Hprep as (? & _ & Hprep).
    apply bind_Ok in Hprep as ([? ?] & _ & Hprep).
    apply bind_Ok in Hprep as (? & _ & Hprep).
    case_decide; [discriminate|]. cbv zeta in Hprep.
    destruct (_ || _); [discriminate|].
    apply bind_Ok in Hprep as (? & _ & Hprep).
    destruct (_ && _); discriminate.
  - apply bind_Ok in H as ([nuevo_estado piezas] & Hej & H).
    apply bind_Ok in H as (b & _ & [= <- <-]).
    cbn [AgenteAjedrez.color AgenteAjedrez.visitados AgenteAjedrez.estado].
    split; [done|]. split; [set_solver|]. split; [done|].
    intros _. set_solver.
Qed.


Lemma X17_mover_conserva_visitados_witness :
  AgenteAjedrez.mover agente_blancas "e4-e5" "Q"
  = Ok (RFalse, agente_blancas) ∧
  AgenteAjedrez.color agente_blancas = AgenteAjedrez.color agente_blancas ∧
  AgenteAjedrez.visitados agente_blancas
  ⊆ AgenteAjedrez.visitados agente_blancas ∧
  (RFalse ≠ RTrue → agente_blancas = agente_blancas) ∧
  (RFalse = RTrue →
   AgenteAjedrez.estado agente_blancas
   ∈ AgenteAjedrez.visitados agente_blancas).
Proof.
  split; [reflexivity|].
  apply (X17_mover_conserva_visitados agente_blancas agente_blancas
           "e4-e5" "Q" RFalse).
  reflexivity.
Defined.

(** ** Material *)

(** X18: the material score is antisymmetric in the agent's colour: on the
    same board the white agent's score is the opposite of the black
    agent's. *)
Theorem X18_evaluar_material_antisimetrica (blancas negras : AgenteAjedrez.t) :
  AgenteAjedrez.color blancas = 1 → AgenteAjedrez.color negras = -1 →
  AgenteAjedrez.estado blancas = AgenteAjedrez.estado negras →
  AgenteAjedrez.evaluar_material blancas
  = - AgenteAjedrez.evaluar_material negras.
Proof.
  intros Hb Hn He. unfold AgenteAjedrez.evaluar_material.
  rewrite Hb, Hn, He. unfold AgenteAjedrez.VALORES_PIEZAS.
  cbn [foldl]. 
  repeat match goal with
         | |- context [AgenteAjedrez.contar_prefijo ?t ?p] =>
             let x := fresh "n" in
             generalize (AgenteAjedrez.contar_prefijo t p); intros x
         end.
  cbn. lia.
Qed.

Lemma X18_evaluar_material_antisimetrica_witness :
  AgenteAjedrez.color (AgenteAjedrez.mk 1 4 ∅ ∅ tablero_promocion) = 1 ∧
  AgenteAjedrez.color (AgenteAjedrez.mk (-1) 4 ∅ ∅ tablero_promocion) = -1 ∧
  AgenteAjedrez.estado (AgenteAjedrez.mk 1 4 ∅ ∅ tablero_promocion)
  = AgenteAjedrez.estado (AgenteAjedrez.mk (-1) 4 ∅ ∅ tablero_promocion) ∧
  AgenteAjedrez.evaluar_material (AgenteAjedrez.mk 1 4 ∅ ∅ tablero_promocion)
  = - AgenteAjedrez.evaluar_material
        (AgenteAjedrez.mk (-1) 4 ∅ ∅ tablero_promocion).
Proof.
  split; [reflexivity|]. split; [reflexivity|]. split; [reflexivity|].
  apply (X18_evaluar_material_antisimetrica
           (AgenteAjedrez.mk 1 4 ∅ ∅ tablero_promocion)
           (AgenteAjedrez.mk (-1) 4 ∅ ∅ tablero_promocion));
    reflexivity.
Defined.

(** ** Looking a piece up on the board *)

Lemma buscar_en_fila_spec (x : string) (fila : list string) (j0 : Z) :
  match GestorPiezas.buscar_en_fila x fila j0 with
  | Some j =>
      ∃ (k : nat) (y : string),
        j = j0 + Z.of_nat k ∧ fila !! k = Some y ∧ igual_np y x ∧
        ∀ (k' : nat) (y' : string),
          (k' < k)%nat → fila !! k' = Some y' → ¬ igual_np y' x
  | None => ∀ (k : nat) (y : string), fila !! k = Some y → ¬ igual_np y x
  end.
Proof.
  revert j0. induction fila as [|y fila IH]; intros j0; cbn.
  { intros k y. by rewrite lookup_nil. }
  case_decide as Hy.
  - exists 0%nat, y. split; [lia|]. split; [done|]. split; [done|]. lia.
  - specialize (IH (j0 + 1)).
    destruct (GestorPiezas.buscar_en_fila x fila (j0 + 1)) as [j|].
    + destruct IH as (k & y0 & -> & Hk & Hig & Hmin). exists (S k), y0.
      split; [lia|]. split; [done|]. split; [done|].
      intros [|k'] y' Hk'; simpl.
      * by intros [= <-].
      * apply Hmin. lia.
    + intros [|k] y'; simpl.
      * by intros [= <-].
      * apply IH.
Qed.

Lemma np_where_spec (x : string) (tablero : Tablero) (i0 : Z) :
  match GestorPiezas.np_where x tablero i0 with
  | Some (i, j) =>
      ∃ a b : nat, i = i0 + Z.of_nat a ∧ j = Z.of_nat b ∧
        celda_es tablero a b x ∧
        ∀ a' b' : nat, (a' < a ∨ a' = a ∧ b' < b)%nat →
                       ¬ celda_es tablero a' b' x
  | None => ∀ a b : nat, ¬ celda_es tablero a b x
  end.
Proof.
  revert i0. induction tablero as [|fila tablero IH]; intros i0; cbn.
  { intros a b (y & Hy & _). unfold celda in Hy. by rewrite lookup_nil in Hy. }
  pose proof (buscar_en_fila_spec x fila 0) as Hfila.
  destruct (GestorPiezas.buscar_en_fila x fila 0) as [j|].
  - destruct Hfila as (k & y & -> & Hk & Hig & Hmin). exists 0%nat, k.
    split; [lia|]. split; [lia|]. split; [by exists y|].
    intros a' b' [Ha|[-> Hb]] (y' & Hy' & Hig'); [lia|].
    unfold celda in Hy'. simpl in Hy'. by apply (Hmin b' y').
  - specialize (IH (i0 + 1)).
    destruct (GestorPiezas.np_where x tablero (i0 + 1)) as [[i j]|].
    + destruct IH as (a & b & -> & -> & Hc & Hmin). exists (S a), b.
      split; [lia|]. split; [done|]. split; [done|].
      intros [|a'] b' Hab (y' & Hy' & Hig').
      * unfold celda in Hy'. simpl in Hy'. by apply (Hfila b' y').
      * apply (Hmin a' b'); [lia|]. by exists y'.
    + intros [|a] b (y' & Hy' & Hig').
      * unfold celda in Hy'. simpl in Hy'. by apply (Hfila b y').
      * apply (IH a b). by exists y'.
Qed.

(** A string that does not end in a NUL is what numpy compares. *)
Lemma sin_nulos_finales_app (s : string) (a : ascii) :
  a ≠ Ascii.zero →
  sin_nulos_finales (s +:+ String a "") = s +:+ String a "".
Proof.
  intros Ha. induction s as [|b s IH]; simpl.
  - case_decide as H; [by destruct H|done].
  - rewrite IH. case_decide as H; [|done].
    destruct H as [_ H]. by destruct s.
Qed.

(** X19: [obtener_posicion_pieza] returns the first square, row by row from
    the top left, whose content numpy takes for equal to the identifier
    (the same string up to trailing NULs), and [None] exactly when there is
    no such square; [esta_pieza_en_juego] is true exactly when there is
    one.  The empty marker ['...'] is looked up like an id. *)
Theorem X19_obtener_posicion_pieza (self : AgenteAjedrez.t)
    (identificador : string) :
  match AgenteAjedrez.obtener_posicion_pieza self identificador with
  | Some (i, j) =>
      ∃ a b : nat, i = Z.of_nat a ∧ j = Z.of_nat b ∧
        celda_es (AgenteAjedrez.estado self) a b identificador ∧
        ∀ a' b' : nat, (a' < a ∨ a' = a ∧ b' < b)%nat →
          ¬ celda_es (AgenteAjedrez.estado self) a' b' identificador
  | None =>
      ∀ a b : nat,
        ¬ celda_es (AgenteAjedrez.estado self) a b identificador
  end ∧
  (AgenteAjedrez.esta_pieza_en_juego self identificador = true ↔
   ∃ a b : nat,
     celda_es (AgenteAjedrez.estado self) a b identificador).
Proof.
  unfold AgenteAjedrez.esta_pieza_en_juego,
    AgenteAjedrez.obtener_posicion_pieza.
  pose proof (np_where_spec identificador (AgenteAjedrez.estado self) 0)
    as H.
  destruct (GestorPiezas.np_where identificador (AgenteAjedrez.estado self) 0)
    as [[i j]|].
  - destruct H as (a & b & -> & -> & Hc & Hmin). split.
    + exists a, b. split; [lia|done].
    + rewrite bool_decide_eq_true. split; [|done]. intros _. by exists a, b.
  - split; [done|]. rewrite bool_decide_eq_true. split; [done|].
    intros (a & b & Hc). by destruct (H a b).
Qed.

(** [obtener_posicion_pieza] on the initial board; an identifier followed
    by a NUL finds the piece. *)
Example posicion_de_BR1 :
  AgenteAjedrez.obtener_posicion_pieza agente_blancas "BR1" = Some (7, 4) ∧
  AgenteAjedrez.obtener_posicion_pieza agente_blancas "..." = Some (2, 0) ∧
  AgenteAjedrez.obtener_posicion_pieza agente_blancas
    ("BP1" +:+ String "000" "")
  = Some (6, 0).
Proof. repeat split; reflexivity. Qed.

(** ** The moves of a piece *)

Lemma casilla_sin_espacios (f c : Z) :
  dentro_tablero f c = true →
  ∃ l d, casilla f c = String l (String d "") ∧
         es_espacio l = false ∧ es_espacio d = false.
Proof.
  intros Hd. apply dentro_tablero_true in Hd as [Hf Hc].
  assert (f = 0 ∨ f = 1 ∨ f = 2 ∨ f = 3 ∨ f = 4 ∨ f = 5 ∨ f = 6 ∨ f = 7)
    as Hfs by lia.
  assert (c = 0 ∨ c = 1 ∨ c = 2 ∨ c = 3 ∨ c = 4 ∨ c = 5 ∨ c = 6 ∨ c = 7)
    as Hcs by lia.
  destruct Hfs as [->|[->|[->|[->|[->|[->|[->| ->]]]]]]];
    destruct Hcs as [->|[->|[->|[->|[->|[->|[->| ->]]]]]]];
    eexists _, _; (split; [reflexivity|]); split; reflexivity.
Qed.

(** [mov.split()] gives back the two squares of a candidate string. *)
Lemma desempaquetar_jugada (f c nf nc : Z) :
  dentro_tablero f c = true → dentro_tablero nf nc = true →
  Despacho.desempaquetar (jugada (casilla f c) (casilla nf nc))
  = Ok (casilla f c, casilla nf nc).
Proof.
  intros Hd Hn.
  destruct (casilla_sin_espacios f c Hd) as (l & d & -> & Hl & Hd').
  destruct (casilla_sin_espacios nf nc Hn) as (l' & d' & -> & Hl' & Hd'').
  change (jugada (String l (String d "")) (String l' (String d' "")))
    with (String l (String d (String " " (String l' (String d' ""))))).
  unfold Despacho.desempaquetar, split. cbn [split_desde].
  rewrite Hl. cbn [split_desde]. rewrite Hd'. cbn [split_desde].
  change (es_espacio " ") with true. cbv iota. cbn [split_desde].
  rewrite Hl'. cbn [split_desde]. rewrite Hd''. reflexivity.
Qed.

(** The candidate strings of every generator name the square of the piece
    and a square of the board. *)
Lemma hijos_forma (self : Pieza) (f c : Z) (tablero : Tablero) :
  tablero_valido tablero → dentro_tablero f c = true →
  ∃ hijos,
    Despacho.obtener_hijos self (f, c) tablero = Ok hijos ∧
    ∀ h, h ∈ hijos →
         ∃ nf nc, dentro_tablero nf nc = true ∧
                  h = jugada (casilla f c) (casilla nf nc).
Proof.
  intros Hval Hd. unfold Despacho.obtener_hijos.
  destruct (clase self) as [dir fi rec| | | | |] eqn:Hclase.
  - destruct (peon_hijos_spec self f c dir fi rec tablero Hval Hd Hclase)
      as (hijos & Hh & Hm).
    exists hijos. split; [done|]. intros h Hin. apply Hm in Hin.
    destruct Hin as [(-> & Hd1 & _)|[(-> & _ & _ & _ & _ & Hd2 & _)
                                    |(dc & _ & -> & Hd3 & _)]];
      by eexists _, _.
  - destruct (torre_obtener_hijos_spec self f c tablero Hclase Hval Hd)
      as (hijos & Hh & Hforma & _). by exists hijos.
  - destruct (caballo_obtener_hijos_spec self f c tablero Hclase Hval Hd)
      as (hijos & Hh & Hforma & _). by exists hijos.
  - destruct (alfil_obtener_hijos_spec self f c tablero Hclase Hval Hd)
      as (hijos & Hh & Hforma & _). by exists hijos.
  - destruct (queen_obtener_hijos_spec self f c tablero Hclase Hval Hd)
      as (hijos & Hh & Hforma & _). by exists hijos.
  - destruct (rey_obtener_hijos_spec self f c tablero Hclase Hval Hd)
      as (hijos & Hh & Hforma & _). by exists hijos.
Qed.

Lemma normales_spec (f c : Z) (hijos : list string) :
  dentro_tablero f c = true →
  (∀ h, h ∈ hijos →
        ∃ nf nc, dentro_tablero nf nc = true ∧
                 h = jugada (casilla f c) (casilla nf nc)) →
  ∀ acc : list MovimientoAjedrez,
  ∃ normales,
    para (λ (movimientos : list MovimientoAjedrez) (mov : string),
            '(desde, hasta) ← Despacho.desempaquetar mov;
            Ok (movimientos ++ [mkMovimiento desde hasta NORMAL None]))
         acc hijos = Ok (acc ++ normales) ∧
    Forall2 (λ m h, tipo m = NORMAL ∧ info_adicional m = None ∧
                    desde m = casilla f c ∧ Movimiento.__str__ m = Some h)
            normales hijos.
Proof.
  intros Hd. induction hijos as [|h hijos IH]; intros Hforma acc.
  { exists []. by rewrite app_nil_r. }
  destruct (Hforma h) as (nf & nc & Hn & ->); [apply list_elem_of_here|].
  cbn [para]. rewrite desempaquetar_jugada by done. res_simpl.
  destruct (IH (λ h' Hh', Hforma h' (list_elem_of_further _ _ _ Hh'))
               (acc ++ [mkMovimiento (casilla f c) (casilla nf nc) NORMAL
                                     None])) as (normales & -> & Hn2).
  exists (mkMovimiento (casilla f c) (casilla nf nc) NORMAL None :: normales).
  split; [by rewrite <- app_assoc|]. by constructor.
Qed.

(** X20: [obtener_movimientos] of any piece on a valid board lists, in the
    order of the piece's generator, one Normal move from the square of the
    piece for every candidate string, whose text is that string, and then
    the special moves of the piece. *)
Theorem X20_obtener_movimientos_normales_y_especiales (self : Pieza)
    (piezas : gmap string Pieza) (f c : Z) (tablero : Tablero) :
  tablero_valido tablero → dentro_tablero f c = true →
  ∃ hijos normales,
    Despacho.obtener_hijos self (f, c) tablero = Ok hijos ∧
    Forall2 (λ m h, tipo m = NORMAL ∧ info_adicional m = None ∧
                    desde m = casilla f c ∧ Movimiento.__str__ m = Some h)
            normales hijos ∧
    Despacho.obtener_movimientos self piezas (f, c) tablero
    = (especiales ←
         Despacho.obtener_movimientos_especiales self piezas (f, c) tablero;
       Ok (normales ++ especiales)).
Proof.
  intros Hval Hd.
  destruct (hijos_forma self f c tablero Hval Hd) as (hijos & Hh & Hforma).
  destruct (normales_spec f c hijos Hd Hforma []) as (normales & Hp & Hn).
  exists hijos, normales. split; [done|]. split; [done|].
  unfold Despacho.obtener_movimientos. cbn [fst snd].
  apply dentro_tablero_true in Hd as Hfc.
  rewrite posicion_a_notacion_casilla by lia. res_simpl.
  rewrite Hh. res_simpl. rewrite Hp. reflexivity.
Qed.

Lemma X20_obtener_movimientos_normales_y_especiales_witness :
  tablero_valido AgenteAjedrez.tablero_inicial ∧
  dentro_tablero 7 1 = true ∧
  ∃ hijos normales,
    Despacho.obtener_hijos (Caballo.__init__ "B" 1) (7, 1)
                           AgenteAjedrez.tablero_inicial = Ok hijos ∧
    Forall2 (λ m h, tipo m = NORMAL ∧ info_adicional m = None ∧
                    desde m = casilla 7 1 ∧ Movimiento.__str__ m = Some h)
            normales hijos ∧
    Despacho.obtener_movimientos (Caballo.__init__ "B" 1) gestor_inicial
                                 (7, 1) AgenteAjedrez.tablero_inicial
    = (especiales ←
         Despacho.obtener_movimientos_especiales (Caballo.__init__ "B" 1)
           gestor_inicial (7, 1) AgenteAjedrez.tablero_inicial;
       Ok (normales ++ especiales)).
Proof.
  split; [compute_done|]. split; [reflexivity|].
  apply (X20_obtener_movimientos_normales_y_especiales
           (Caballo.__init__ "B" 1) gestor_inicial 7 1
           AgenteAjedrez.tablero_inicial).
  - compute_done.
  - reflexivity.
Defined.

(** The moves of the knight of b1 on the initial board. *)
Example movimientos_de_BC1 :
  Despacho.obtener_movimientos (Caballo.__init__ "B" 1) gestor_inicial
                               (7, 1) AgenteAjedrez.tablero_inicial
  = Ok [normal "b1" "a3"; normal "b1" "c3"].
Proof. vm_compute. reflexivity. Qed.

(** ** The special moves of the pawn *)

Lemma elem_of_promociones (origen destino : string) (m : MovimientoAjedrez) :
  m ∈ Peon.promociones origen destino ↔
  ∃ pieza, pieza ∈ ["Q"; "T"; "A"; "C"] ∧
           m = mkMovimiento origen destino PROMOCION (Some pieza).
Proof.
  unfold Peon.promociones. rewrite list_elem_of_fmap. split.
  - intros (pieza & -> & Hin). by exists pieza.
  - intros (pieza & Hin & ->). by exists pieza.
Qed.

(** One turn of the loop over the two diagonals of the promotion block. *)
Lemma promocion_diagonal_spec (self : Pieza) (origen : string)
    (tablero : Tablero) (nueva_f c dc : Z)
    (movimientos : list MovimientoAjedrez) :
  tablero_valido tablero →
  ∃ l,
    (if dentro_tablero nueva_f (c + dc) then
       pieza_destino ← np_get tablero nueva_f (c + dc);
       if decide (pieza_destino = "...") then Ok movimientos
       else
         c0 ← str_indice pieza_destino 0;
         if decide (String c0 "" ≠ color self) then
           n ← posicion_a_notacion nueva_f (c + dc);
           Ok (movimientos ++ Peon.promociones origen n)
         else Ok movimientos
     else Ok movimientos) = Ok (movimientos ++ l) ∧
    ∀ m, m ∈ l ↔
         (∃ pieza, pieza ∈ ["Q"; "T"; "A"; "C"] ∧
            m = mkMovimiento origen (casilla nueva_f (c + dc)) PROMOCION
                             (Some pieza)) ∧
         dentro_tablero nueva_f (c + dc) = true ∧
         ∃ p, np_get tablero nueva_f (c + dc) = Ok p ∧
              enemiga (color self) p.
Proof.
  intros [H8 Hnv].
  assert (∀ P : MovimientoAjedrez → Prop, (∀ m, ¬ P m) →
            ∃ l, Ok movimientos = Ok (movimientos ++ l) ∧ ∀ m, m ∈ l ↔ P m)
    as Hno.
  { intros P HP. exists []. rewrite app_nil_r. split; [done|]. intros m.
    rewrite elem_of_nil. split; [done|apply HP]. }
  destruct (dentro_tablero nueva_f (c + dc)) eqn:Ed.
  - destruct (np_get_dentro tablero _ _ H8 Ed) as (p & Hp & _).
    destruct (np_get_no_vacia tablero _ _ p Hnv Hp) as [c0 Hc0].
    apply dentro_tablero_true in Ed as Hdentro.
    rewrite Hp. res_simpl. case_decide as Hvac.
    + apply Hno. intros m (_ & _ & p' & [= <-] & Hp' & _). done.
    + rewrite Hc0. res_simpl. case_decide as Hcol.
      * rewrite posicion_a_notacion_casilla by lia. res_simpl.
        eexists. split; [done|]. intros m. rewrite elem_of_promociones.
        split.
        -- intros Hm. split; [done|]. split; [done|]. exists p.
           split; [done|]. split; [done|]. by exists c0.
        -- by intros [Hm _].
      * apply Hno. intros m (_ & _ & p' & [= <-] & _ & c0' & Hc0' & Hne).
        rewrite Hc0 in Hc0'. injection Hc0' as <-. done.
  - apply Hno. intros m (_ & [=] & _).
Qed.

(** One turn of the loop over the two neighbours of the en-passant block. *)
Lemma al_paso_lado_spec (self : Pieza) (piezas : gmap string Pieza)
    (origen : string) (tablero : Tablero) (f c direccion dc : Z)
    (movimientos : list MovimientoAjedrez) :
  tablero_valido tablero → ids_de_peon_son_peones piezas →
  0 ≤ f + direccion < 8 →
  ∃ l,
    (if dentro_tablero f (c + dc) then
       pieza_id ← np_get tablero f (c + dc);
       if startswith pieza_id
            (if decide (color self = "N") then "BP" else "NP")
       then
         match piezas !! pieza_id with
         | Some peon_enemigo =>
             match clase peon_enemigo with
             | CPeon _ _ movimiento_doble_reciente =>
                 if movimiento_doble_reciente then
                   n ← posicion_a_notacion (f + direccion) (c + dc);
                   Ok (movimientos ++
                       [mkMovimiento origen n EN_PASSANT None])
                 else Ok movimientos
             | _ => Lanza AttributeError
             end
         | None => Ok movimientos
         end
       else Ok movimientos
     else Ok movimientos) = Ok (movimientos ++ l) ∧
    ∀ m, m ∈ l ↔
         m = mkMovimiento origen (casilla (f + direccion) (c + dc))
                          EN_PASSANT None ∧
         dentro_tablero f (c + dc) = true ∧
         ∃ pieza_id peon_enemigo,
           np_get tablero f (c + dc) = Ok pieza_id ∧
           startswith pieza_id (prefijo_peon_enemigo (color self)) = true ∧
           piezas !! pieza_id = Some peon_enemigo ∧
           acaba_de_avanzar_dos peon_enemigo.
Proof.
  intros [H8 Hnv] Hpeones Hfila. unfold prefijo_peon_enemigo.
  assert (∀ P : MovimientoAjedrez → Prop, (∀ m, ¬ P m) →
            ∃ l, Ok movimientos = Ok (movimientos ++ l) ∧ ∀ m, m ∈ l ↔ P m)
    as Hno.
  { intros P HP. exists []. rewrite app_nil_r. split; [done|]. intros m.
    rewrite elem_of_nil. split; [done|apply HP]. }
  destruct (dentro_tablero f (c + dc)) eqn:Ed.
  2:{ apply Hno. intros m (_ & [=] & _). }
  destruct (np_get_dentro tablero _ _ H8 Ed) as (p & Hp & _).
  apply dentro_tablero_true in Ed as Hdentro.
  rewrite Hp. res_simpl.
  destruct (startswith p (if decide (color self = "N") then "BP" else "NP"))
    eqn:Epre.
  2:{ apply Hno. intros m (_ & _ & p' & q & [= <-] & Hpre & _). congruence. }
  destruct (piezas !! p) as [peon|] eqn:Ereg.
  2:{ apply Hno. intros m (_ & _ & p' & q & [= <-] & _ & Hq & _).
      congruence. }
  assert (es_Peon peon = true) as Hes.
  { apply (Hpeones p peon Ereg). apply orb_true_iff.
    destruct (decide (color self = "N")); [by left|by right]. }
  unfold es_Peon in Hes.
  destruct (clase peon) as [d fi reciente| | | | |] eqn:Eclase; try done.
  destruct reciente.
  - rewrite posicion_a_notacion_casilla by lia. res_simpl.
    eexists. split; [done|]. intros m. rewrite elem_of_cons, elem_of_nil.
    split.
    + intros [->|[]]. split; [done|]. split; [done|]. exists p, peon.
      split; [done|]. split; [done|]. split; [done|]. by exists d, fi.
    + intros (-> & _). by left.
  - apply Hno. intros m (_ & _ & p' & q & [= <-] & _ & Hq & d' & fi' & Hcl).
    rewrite Ereg in Hq. injection Hq as <-. congruence.
Qed.

(** The special moves of a pawn: the promotion candidates, then the
    en-passant candidates. *)
Lemma peon_especiales_spec (self : Pieza) (piezas : gmap string Pieza)
    (f c : Z) (tablero : Tablero) :
  tablero_valido tablero → dentro_tablero f c = true →
  peon_construido self → ids_de_peon_son_peones piezas →
  let dir := obtener_direccion_color (color self) in
  ∃ movimientos,
    Peon.obtener_movimientos_especiales self piezas (f, c) tablero
    = Ok movimientos ∧
    ∀ m, m ∈ movimientos ↔
      (∃ nc pieza,
         m = mkMovimiento (casilla f c) (casilla (f + dir) nc) PROMOCION
                          (Some pieza) ∧
         pieza ∈ ["Q"; "T"; "A"; "C"] ∧
         dentro_tablero (f + dir) nc = true ∧
         (color self = "B" ∧ f + dir = 0 ∨ color self = "N" ∧ f + dir = 7) ∧
         (nc = c ∧ vacia tablero (f + dir) c
          ∨ (nc = c + -1 ∨ nc = c + 1) ∧
            ∃ p, np_get tablero (f + dir) nc = Ok p ∧
                 enemiga (color self) p))
      ∨ (∃ nc,
           m = mkMovimiento (casilla f c) (casilla (f + dir) nc) EN_PASSANT
                            None ∧
           (nc = c + -1 ∨ nc = c + 1) ∧
           dentro_tablero f nc = true ∧
           (color self = "B" ∧ f = 3 ∨ color self = "N" ∧ f = 4) ∧
           ∃ pieza_id peon_enemigo,
             np_get tablero f nc = Ok pieza_id ∧
             startswith pieza_id (prefijo_peon_enemigo (color self)) = true ∧
             piezas !! pieza_id = Some peon_enemigo ∧
             acaba_de_avanzar_dos peon_enemigo).
Proof.
  intros Hval Hd [reciente Hclase] Hpeones dir. destruct (Hval) as [H8 Hnv].
  apply dentro_tablero_true in Hd as Hfc.
  unfold Peon.obtener_movimientos_especiales.
  rewrite posicion_a_notacion_casilla by lia. res_simpl. rewrite Hclase.
  fold dir. set (origen := casilla f c).
  (* the promotion block *)
  assert (∃ promos,
    (if dentro_tablero (f + dir) c then
       if decide ((color self = "B" ∧ f + dir = 0)
                  ∨ (color self = "N" ∧ f + dir = 7)) then
         p ← np_get tablero (f + dir) c;
         movimientos ←
           (if decide (p = "...") then
              n ← posicion_a_notacion (f + dir) c;
              Ok (Peon.promociones origen n)
            else Ok []);
         para (λ (movimientos : list MovimientoAjedrez) (dc : Z),
                 if dentro_tablero (f + dir) (c + dc) then
                   pieza_destino ← np_get tablero (f + dir) (c + dc);
                   if decide (pieza_destino = "...") then Ok movimientos
                   else
                     c0 ← str_indice pieza_destino 0;
                     if decide (String c0 "" ≠ color self) then
                       n ← posicion_a_notacion (f + dir) (c + dc);
                       Ok (movimientos ++ Peon.promociones origen n)
                     else Ok movimientos
                 else Ok movimientos)
              movimientos [-1; 1]
       else Ok []
     else Ok []) = Ok promos ∧
    ∀ m, m ∈ promos ↔
      ∃ nc pieza,
        m = mkMovimiento origen (casilla (f + dir) nc) PROMOCION
                         (Some pieza) ∧
        pieza ∈ ["Q"; "T"; "A"; "C"] ∧
        dentro_tablero (f + dir) nc = true ∧
        (color self = "B" ∧ f + dir = 0 ∨ color self = "N" ∧ f + dir = 7) ∧
        (nc = c ∧ vacia tablero (f + dir) c
         ∨ (nc = c + -1 ∨ nc = c + 1) ∧
           ∃ p, np_get tablero (f + dir) nc = Ok p ∧
                enemiga (color self) p)) as (promos & -> & Hpromos).
  { destruct (dentro_tablero (f + dir) c) eqn:Ed1.
    2:{ exists []. split; [done|]. intros m. rewrite elem_of_nil.
        split; [done|]. intros (nc & pieza & _ & _ & Hdn & _ & Hcaso).
        apply dentro_tablero_true in Hdn. apply not_true_iff_false in Ed1.
        apply Ed1, dentro_tablero_true. lia. }
    destruct (decide ((color self = "B" ∧ f + dir = 0)
                      ∨ (color self = "N" ∧ f + dir = 7))) as [Hfin|Hfin].
    2:{ exists []. split; [done|]. intros m. rewrite elem_of_nil.
        split; [done|]. by intros (nc & pieza & _ & _ & _ & Hf & _). }
    destruct (np_get_dentro tablero _ _ H8 Ed1) as (p & Hp & _).
    apply dentro_tablero_true in Ed1 as Hd1.
    rewrite Hp. res_simpl.
    assert (∃ l0,
      (if decide (p = "...") then
         n ← posicion_a_notacion (f + dir) c;
         Ok (Peon.promociones origen n)
       else Ok []) = Ok l0 ∧
      ∀ m, m ∈ l0 ↔
           (∃ pieza, pieza ∈ ["Q"; "T"; "A"; "C"] ∧
              m = mkMovimiento origen (casilla (f + dir) c) PROMOCION
                               (Some pieza)) ∧
           vacia tablero (f + dir) c) as (l0 & -> & Hl0).
    { case_decide as Hvac.
      - rewrite posicion_a_notacion_casilla by lia. res_simpl.
        eexists. split; [done|]. intros m. rewrite elem_of_promociones.
        unfold vacia. rewrite Hp, Hvac. tauto.
      - exists []. split; [done|]. intros m. rewrite elem_of_nil.
        split; [done|]. intros [_ Hv]. unfold vacia in Hv. congruence. }
    res_simpl. cbn [para].
    destruct (promocion_diagonal_spec self origen tablero (f + dir) c (-1)
                l0 Hval) as (l1 & -> & Hl1).
    res_simpl.
    destruct (promocion_diagonal_spec self origen tablero (f + dir) c 1
                (l0 ++ l1) Hval) as (l2 & -> & Hl2).
    res_simpl. eexists. split; [done|]. intros m.
    rewrite !elem_of_app, Hl0, Hl1, Hl2. split.
    - intros [[((pieza & Hin & ->) & Hv)
              |((pieza & Hin & ->) & Hdn & Hen)]
             |((pieza & Hin & ->) & Hdn & Hen)].
      + exists c, pieza. split; [done|]. split; [done|]. split; [done|].
        split; [done|]. by left.
      + exists (c + -1), pieza. split; [done|]. split; [done|].
        split; [done|]. split; [done|]. right. split; [by left|done].
      + exists (c + 1), pieza. split; [done|]. split; [done|].
        split; [done|]. split; [done|]. right. split; [by right|done].
    - intros (nc & pieza & -> & Hin & Hdn & _ & [[-> Hv]|[[-> | ->] Hen]]).
      + left. left. split; [by exists pieza|done].
      + left. right. split; [by exists pieza|done].
      + right. split; [by exists pieza|done]. }
  res_simpl.
  (* the en-passant block *)
  destruct (decide ((color self = "B" ∧ f = 3) ∨ (color self = "N" ∧ f = 4)))
    as [Hfila|Hfila].
  - assert (0 ≤ f + dir < 8) as Hnf.
    { unfold dir, obtener_direccion_color.
      destruct Hfila as [[-> ->]|[-> ->]]; simpl; lia. }
    cbn [para].
    destruct (al_paso_lado_spec self piezas origen tablero f c dir (-1)
                promos Hval Hpeones Hnf) as (l1 & -> & Hl1).
    res_simpl.
    destruct (al_paso_lado_spec self piezas origen tablero f c dir 1
                (promos ++ l1) Hval Hpeones Hnf) as (l2 & -> & Hl2).
    res_simpl. eexists. split; [done|]. intros m.
    rewrite !elem_of_app, Hpromos, Hl1, Hl2. split.
    + intros [[Hp|(-> & Hdn & Hen)]|(-> & Hdn & Hen)].
      * by left.
      * right. exists (c + -1). split; [done|]. split; [by left|]. done.
      * right. exists (c + 1). split; [done|]. split; [by right|]. done.
    + intros [Hp|(nc & -> & [-> | ->] & Hdn & _ & Hen)].
      * by left; left.
      * left. right. done.
      * right. done.
  - exists promos. split; [done|]. intros m. rewrite Hpromos. split.
    + by left.
    + intros [Hp|(nc & _ & _ & _ & Hf & _)]; done.
Qed.

(** X21: the en-passant candidates of a pawn.  On a valid board, with a
    registry whose pawn ids are bound to pawns, the special moves of a pawn
    of colour B or N on [(f, c)] hold the EnPassant move to a square
    [(nf, nc)] of the board exactly when the pawn stands on its en-passant
    rank (row 3 for B, row 4 for N), the square is one row ahead and one
    column aside, and the square beside the pawn in that column holds an id
    with the enemy's pawn prefix whose registered pawn has its double-step
    flag set.  The destination itself is not looked at. *)
Theorem X21_peon_al_paso (self : Pieza) (piezas : gmap string Pieza)
    (f c : Z) (tablero : Tablero) :
  tablero_valido tablero → dentro_tablero f c = true →
  peon_construido self → color self = "B" ∨ color self = "N" →
  ids_de_peon_son_peones piezas →
  ∃ movimientos,
    Peon.obtener_movimientos_especiales self piezas (f, c) tablero
    = Ok movimientos ∧
    ∀ nf nc, dentro_tablero nf nc = true →
      (mkMovimiento (casilla f c) (casilla nf nc) EN_PASSANT None
       ∈ movimientos ↔
       f = fila_al_paso (color self) ∧
       nf = f + obtener_direccion_color (color self) ∧
       Z.abs (nc - c) = 1 ∧
       ∃ pieza_id peon_enemigo,
         np_get tablero f nc = Ok pieza_id ∧
         startswith pieza_id (prefijo_peon_enemigo (color self)) = true ∧
         piezas !! pieza_id = Some peon_enemigo ∧
         acaba_de_avanzar_dos peon_enemigo).
Proof.
  intros Hval Hd Hpeon Hcolor Hpeones.
  destruct (peon_especiales_spec self piezas f c tablero Hval Hd Hpeon
              Hpeones) as (movimientos & Hmov & Hm).
  exists movimientos. split; [done|]. intros nf nc Hn. rewrite Hm.
  apply dentro_tablero_true in Hd as Hfc, Hn as Hnfc.
  unfold fila_al_paso. split.
  - intros [(nc' & pieza & [=] & _)
           |(nc' & [= Hcas] & Hlado & Hdn & Hfila & Hen)].
    apply dentro_tablero_true in Hdn.
    apply casilla_inj in Hcas as [-> ->]; [|lia..].
    split. { destruct Hfila as [[-> ->]|[-> ->]]; done. }
    split; [done|]. split; [lia|done].
  - intros (Hf & -> & Hlado & Hen). right. exists nc. split; [done|].
    split; [lia|]. split; [apply dentro_tablero_true; lia|]. split; [|done].
    destruct Hcolor as [Hc|Hc]; rewrite Hc in Hf; rewrite Hc; simpl in Hf;
      [by left|by right].
Qed.

(** X22: the promotion candidates of a pawn.  Under the same conditions,
    the special moves hold the Promotion move to a square [(nf, nc)] of
    the board with target [pieza] exactly when [pieza] is one of Q, T, A
    and C, the square is one row ahead of the pawn on the last rank of its
    colour (row 0 for B, row 7 for N), and it is the empty square straight
    ahead or a diagonal square held by the enemy. *)
Theorem X22_peon_promocion (self : Pieza) (piezas : gmap string Pieza)
    (f c : Z) (tablero : Tablero) :
  tablero_valido tablero → dentro_tablero f c = true →
  peon_construido self → color self = "B" ∨ color self = "N" →
  ids_de_peon_son_peones piezas →
  ∃ movimientos,
    Peon.obtener_movimientos_especiales self piezas (f, c) tablero
    = Ok movimientos ∧
    ∀ nf nc pieza, dentro_tablero nf nc = true →
      (mkMovimiento (casilla f c) (casilla nf nc) PROMOCION (Some pieza)
       ∈ movimientos ↔
       pieza ∈ ["Q"; "T"; "A"; "C"] ∧
       nf = f + obtener_direccion_color (color self) ∧
       nf = fila_de_promocion (color self) ∧
       (nc = c ∧ vacia tablero nf nc
        ∨ Z.abs (nc - c) = 1 ∧
          ∃ p, np_get tablero nf nc = Ok p ∧ enemiga (color self) p)).
Proof.
  intros Hval Hd Hpeon Hcolor Hpeones.
  destruct (peon_especiales_spec self piezas f c tablero Hval Hd Hpeon
              Hpeones) as (movimientos & Hmov & Hm).
  exists movimientos. split; [done|]. intros nf nc pieza Hn. rewrite Hm.
  apply dentro_tablero_true in Hd as Hfc, Hn as Hnfc.
  unfold fila_de_promocion. split.
  - intros [(nc' & pieza' & [= Hcas <-] & Hin & Hdn & Hfila & Hcaso)
           |(nc' & [=] & _)].
    apply dentro_tablero_true in Hdn.
    apply casilla_inj in Hcas as [-> ->]; [|lia..].
    split; [done|]. split; [done|].
    split. { destruct Hfila as [[-> ->]|[-> ->]]; done. }
    destruct Hcaso as [[-> Hv]|[Hlado Hen]]; [by left|].
    right. split; [lia|done].
  - intros (Hin & -> & Hfila & Hcaso). left. exists nc, pieza.
    split; [done|]. split; [done|]. split; [done|]. split.
    { destruct Hcolor as [Hc|Hc]; rewrite Hc in Hfila; rewrite Hc;
        simpl in Hfila; [by left|by right]. }
    destruct Hcaso as [[-> Hv]|[Hlado Hen]]; [by left|].
    right. split; [lia|done].
Qed.

Lemma X21_peon_al_paso_witness :
  tablero_valido posicion_al_paso.1 ∧ dentro_tablero 3 4 = true ∧
  peon_construido (con_movida true (Peon.__init__ "B" 5)) ∧
  (color (con_movida true (Peon.__init__ "B" 5)) = "B"
   ∨ color (con_movida true (Peon.__init__ "B" 5)) = "N") ∧
  ids_de_peon_son_peones posicion_al_paso.2 ∧
  ∃ movimientos,
    Peon.obtener_movimientos_especiales
      (con_movida true (Peon.__init__ "B" 5)) posicion_al_paso.2 (3, 4)
      posicion_al_paso.1 = Ok movimientos ∧
    ∀ nf nc, dentro_tablero nf nc = true →
      (mkMovimiento (casilla 3 4) (casilla nf nc) EN_PASSANT None
       ∈ movimientos ↔
       3 = fila_al_paso (color (con_movida true (Peon.__init__ "B" 5))) ∧
       nf = 3 + obtener_direccion_color
                  (color (con_movida true (Peon.__init__ "B" 5))) ∧
       Z.abs (nc - 4) = 1 ∧
       ∃ pieza_id peon_enemigo,
         np_get posicion_al_paso.1 3 nc = Ok pieza_id ∧
         startswith pieza_id
           (prefijo_peon_enemigo
              (color (con_movida true (Peon.__init__ "B" 5)))) = true ∧
         posicion_al_paso.2 !! pieza_id = Some peon_enemigo ∧
         acaba_de_avanzar_dos peon_enemigo).
Proof.
  split; [compute_done|]. split; [reflexivity|]. split; [by exists false|].
  split; [by left|]. split; [compute_done|].
  apply (X21_peon_al_paso (con_movida true (Peon.__init__ "B" 5))
           posicion_al_paso.2 3 4 posicion_al_paso.1).
  - compute_done.
  - reflexivity.
  - by exists false.
  - by left.
  - compute_done.
Defined.

(** After e2-e4, a7-a6, e4-e5, d7-d5 the pawn of e5 has one special move,
    the capture en passant on d6. *)
Example al_paso_en_d6 :
  Peon.obtener_movimientos_especiales
    (con_movida true (Peon.__init__ "B" 5)) posicion_al_paso.2 (3, 4)
    posicion_al_paso.1 = Ok [al_paso_e5_d6].
Proof. vm_compute. reflexivity. Qed.

Lemma X22_peon_promocion_witness :
  tablero_valido tablero_promocion ∧ dentro_tablero 1 0 = true ∧
  peon_construido (Peon.__init__ "B" 1) ∧
  (color (Peon.__init__ "B" 1) = "B" ∨ color (Peon.__init__ "B" 1) = "N") ∧
  ids_de_peon_son_peones gestor_inicial ∧
  ∃ movimientos,
    Peon.obtener_movimientos_especiales (Peon.__init__ "B" 1) gestor_inicial
      (1, 0) tablero_promocion = Ok movimientos ∧
    ∀ nf nc pieza, dentro_tablero nf nc = true →
      (mkMovimiento (casilla 1 0) (casilla nf nc) PROMOCION (Some pieza)
       ∈ movimientos ↔
       pieza ∈ ["Q"; "T"; "A"; "C"] ∧
       nf = 1 + obtener_direccion_color (color (Peon.__init__ "B" 1)) ∧
       nf = fila_de_promocion (color (Peon.__init__ "B" 1)) ∧
       (nc = 0 ∧ vacia tablero_promocion nf nc
        ∨ Z.abs (nc - 0) = 1 ∧
          ∃ p, np_get tablero_promocion nf nc = Ok p ∧
               enemiga (color (Peon.__init__ "B" 1)) p)).
Proof.
  split; [compute_done|]. split; [reflexivity|]. split; [by exists false|].
  split; [by left|]. split; [compute_done|].
  apply (X22_peon_promocion (Peon.__init__ "B" 1) gestor_inicial 1 0
           tablero_promocion).
  - compute_done.
  - reflexivity.
  - by exists false.
  - by left.
  - compute_done.
Defined.

(** ** Registering a piece *)

(** X23: [registrar_pieza] never rewrites the registry.  When it returns,
    the entries under the other keys are the ones of before, an entry that
    existed under the key is kept as it is, and an entry that it creates is
    unmoved.  The new entry is built from the first three characters of the
    id only, the third read as a number: it is coherent with its key when
    the id is a colour character, a kind letter and one of the digits 0-9,
    and nothing more.  (A longer id, or one whose third character is a
    decimal digit of another script, is stored under its own key with an
    object whose [id] differs from it.) *)
Theorem X23_registrar_pieza_no_reescribe (piezas piezas' : gmap string Pieza)
    (id_pieza : string) :
  GestorPiezas.registrar_pieza piezas id_pieza = Ok piezas' →
  (∀ k, k ≠ id_pieza → piezas' !! k = piezas !! k) ∧
  (∀ p, piezas !! id_pieza = Some p → piezas' !! id_pieza = Some p) ∧
  (∀ p, piezas !! id_pieza = None → piezas' !! id_pieza = Some p →
        movida p = false ∧
        (∀ c t d, id_pieza = String c (String t (String d "")) →
                  es_digito d → entrada_coherente id_pieza p)).
Proof.
  unfold GestorPiezas.registrar_pieza.
  destruct (decide (is_Some (piezas !! id_pieza))) as [Hreg|Hreg].
  { intros [= <-]. split; [done|]. split; [done|]. intros p Hp.
    rewrite Hp in Hreg. by destruct Hreg. }
  intros H.
  apply bind_Ok in H as (c & Hc & H). apply bind_Ok in H as (t & Ht & H).
  apply bind_Ok in H as (d & Hd & H).
  apply bind_Ok in H as (numero & Hnum & H).
  assert (∃ r, id_pieza = String c (String t (String d r))) as [r ->].
  { destruct id_pieza as [|c' [|t' [|d' r]]]; try done.
    simpl in Hc, Ht, Hd. injection Hc as ->. injection Ht as ->.
    injection Hd as ->. by exists r. }
  destruct (GestorPiezas.PIEZAS_FACTORY (String t "")) as [clase|] eqn:Ecl.
  2:{ injection H as <-. split; [done|]. split; [done|].
      intros p Hp Hp'. congruence. }
  injection H as <-. split; [|split].
  - intros k Hk. by rewrite lookup_insert_ne.
  - intros p Hp. rewrite Hp in Hreg. destruct Hreg. by eexists.
  - intros p _. rewrite lookup_insert_eq. intros [= <-]. split.
    + by apply (PIEZAS_FACTORY_Some _ _ Ecl).
    + intros c0 t0 d0 Heq Hdig.
      injection Heq as ? ? ? ?. subst c0 t0 d0 r.
      rewrite (int_de_caracter_Ok d Hdig) in Hnum. injection Hnum as <-.
      pose proof (PIEZAS_FACTORY_coherente (String t "") clase (String c "")
                    (valor_digito d) Ecl) as Hcoh.
      rewrite (pretty_valor_digito d Hdig) in Hcoh. exact Hcoh.
Qed.

Lemma X23_registrar_pieza_no_reescribe_witness :
  GestorPiezas.registrar_pieza ∅ "BQ2" = Ok {["BQ2" := Queen.__init__ "B" 2]} ∧
  (∀ k, k ≠ "BQ2" →
        ({["BQ2" := Queen.__init__ "B" 2]} : gmap string Pieza) !! k
        = (∅ : gmap string Pieza) !! k) ∧
  (∀ p, (∅ : gmap string Pieza) !! "BQ2" = Some p →
        ({["BQ2" := Queen.__init__ "B" 2]} : gmap string Pieza) !! "BQ2"
        = Some p) ∧
  (∀ p, (∅ : gmap string Pieza) !! "BQ2" = None →
        ({["BQ2" := Queen.__init__ "B" 2]} : gmap string Pieza) !! "BQ2"
        = Some p →
        movida p = false ∧
        (∀ c t d, "BQ2" = String c (String t (String d "")) →
                  es_digito d → entrada_coherente "BQ2" p)).
Proof.
  split; [vm_compute; reflexivity|].
  apply (X23_registrar_pieza_no_reescribe ∅
           {["BQ2" := Queen.__init__ "B" 2]} "BQ2").
  vm_compute. reflexivity.
Defined.

(** An id of four characters is registered under its own key with the
    object of its first three characters. *)
Example registrar_BP10 :
  GestorPiezas.registrar_pieza ∅ "BP10" = Ok {["BP10" := Peon.__init__ "B" 1]}
  ∧ id (Peon.__init__ "B" 1) = "BP1".
Proof. split; vm_compute; reflexivity. Qed.

(** ** Synchronising twice *)

(** X26: synchronising the registry with an 8x8 board only drops entries,
    and a second synchronisation with the same board changes nothing. *)
Theorem X26_sincronizar_idempotente (piezas : gmap string Pieza)
    (tablero : Tablero) :
  tablero_8x8 tablero →
  ∃ piezas',
    GestorPiezas.sincronizar_con_tablero piezas tablero = Ok piezas' ∧
    piezas' ⊆ piezas ∧
    GestorPiezas.sincronizar_con_tablero piezas' tablero = Ok piezas'.
Proof.
  intros H8.
  destruct (sincronizar_spec piezas tablero H8) as (piezas' & H1 & Hk1).
  destruct (sincronizar_spec piezas' tablero H8) as (piezas'' & H2 & Hk2).
  exists piezas'. split; [done|]. split.
  - apply map_subseteq_spec. intros k p Hp.
    destruct (ocupante_decidible tablero k) as [Hoc|Hoc].
    + by rewrite <- (proj1 (Hk1 k) Hoc).
    + rewrite (proj2 (Hk1 k) Hoc) in Hp. discriminate.
  - rewrite H2. f_equal. apply map_eq. intros k.
    destruct (ocupante_decidible tablero k) as [Hoc|Hoc].
    + by apply Hk2.
    + by rewrite (proj2 (Hk2 k) Hoc), (proj2 (Hk1 k) Hoc).
Qed.

Lemma X26_sincronizar_idempotente_witness :
  tablero_8x8 tablero_promocion ∧
  ∃ piezas',
    GestorPiezas.sincronizar_con_tablero gestor_inicial tablero_promocion
    = Ok piezas' ∧
    piezas' ⊆ gestor_inicial ∧
    GestorPiezas.sincronizar_con_tablero piezas' tablero_promocion
    = Ok piezas'.
Proof.
  split; [compute_done|].
  apply (X26_sincronizar_idempotente gestor_inicial tablero_promocion).
  compute_done.
Defined.

(** ** Asking for the moves of a piece *)

(** X25: [obtener_movimientos_posibles] is a query.  When it returns, the
    agent is the one of before, registry included: the piece is registered
    already when the registry is asked for its moves.  The list is empty
    when the identifier is on no square or has no entry. *)
Theorem X25_obtener_movimientos_posibles_consulta (self self' : AgenteAjedrez.t)
    (identificador : string) (movimientos : list MovimientoAjedrez) :
  AgenteAjedrez.obtener_movimientos_posibles self identificador
  = Ok (movimientos, self') →
  self' = self ∧
  (AgenteAjedrez.esta_pieza_en_juego self identificador = false
   ∨ AgenteAjedrez.gestor_piezas self !! identificador = None →
   movimientos = []).
Proof.
  unfold AgenteAjedrez.obtener_movimientos_posibles,
    AgenteAjedrez.esta_pieza_en_juego, GestorPiezas.get_pieza.
  destruct (AgenteAjedrez.obtener_posicion_pieza self identificador)
    as [pos|] eqn:Epos.
  2:{ intros [= <- <-]. done. }
  destruct (AgenteAjedrez.gestor_piezas self !! identificador)
    as [pieza|] eqn:Ereg.
  2:{ intros [= <- <-]. done. }
  intros H. apply bind_Ok in H as ([movs piezas] & Hmov & [= <- <-]).
  unfold GestorPiezas.obtener_movimientos_pieza in Hmov.
  rewrite Ereg in Hmov.
  cbn [mbind resultado_bind mret resultado_ret] in Hmov.
  rewrite Ereg in Hmov.
  assert (piezas = AgenteAjedrez.gestor_piezas self) as ->.
  { destruct (GestorPiezas.np_where identificador (AgenteAjedrez.estado self)
                0) as [[fila col]|]; [|by injection Hmov].
    apply bind_Ok in Hmov as (? & _ & [= _ <-]). done. }
  split; [by destruct self|].
  intros [Hno|Hno]; [|done]. apply bool_decide_eq_false in Hno.
  by destruct Hno.
Qed.

Lemma X25_obtener_movimientos_posibles_consulta_witness :
  AgenteAjedrez.obtener_movimientos_posibles
    (AgenteAjedrez.mk 1 4 ∅ gestor_inicial AgenteAjedrez.tablero_inicial)
    "BC1"
  = Ok ([normal "b1" "a3"; normal "b1" "c3"],
        AgenteAjedrez.mk 1 4 ∅ gestor_inicial AgenteAjedrez.tablero_inicial) ∧
  AgenteAjedrez.mk 1 4 ∅ gestor_inicial AgenteAjedrez.tablero_inicial
  = AgenteAjedrez.mk 1 4 ∅ gestor_inicial AgenteAjedrez.tablero_inicial ∧
  (AgenteAjedrez.esta_pieza_en_juego
     (AgenteAjedrez.mk 1 4 ∅ gestor_inicial AgenteAjedrez.tablero_inicial)
     "BC1" = false
   ∨ AgenteAjedrez.gestor_piezas
       (AgenteAjedrez.mk 1 4 ∅ gestor_inicial AgenteAjedrez.tablero_inicial)
     !! "BC1" = None →
   [normal "b1" "a3"; normal "b1" "c3"] = []).
Proof.
  split; [vm_compute; reflexivity|].
  apply (X25_obtener_movimientos_posibles_consulta
           (AgenteAjedrez.mk 1 4 ∅ gestor_inicial
                             AgenteAjedrez.tablero_inicial)
           (AgenteAjedrez.mk 1 4 ∅ gestor_inicial
                             AgenteAjedrez.tablero_inicial)
           "BC1" [normal "b1" "a3"; normal "b1" "c3"]).
  vm_compute. reflexivity.
Defined.

(** ** The id of a promoted piece *)

Lemma startswith_app (p s : string) : startswith (p +:+ s) p = true.
Proof.
  unfold startswith. induction p as [|a p IH]; simpl.
  - by destruct s.
  - destruct (ascii_dec a a); [exact IH|done].
Qed.

(** The loop that looks for the largest number in use. *)
Lemma maximo_numero_bucle (prefijo : string) (l : list string) :
  (∀ k, k ∈ l → String.length k = 3%nat) →
  ∀ acc, 0 ≤ acc ≤ 9 →
  ∃ n,
    para (λ (max_num : Z) (pid : string),
            if startswith pid prefijo then
              c2 ← str_indice pid 2;
              match int_de_caracter c2 with
              | Ok num => Ok (Z.max max_num num)
              | Lanza _ => Ok max_num
              end
            else Ok max_num) acc l = Ok n ∧
    acc ≤ n ≤ 9 ∧
    ∀ k d, k ∈ l → startswith k prefijo = true →
           str_indice k 2 = Ok d → es_digito d → valor_digito d ≤ n.
Proof.
  induction l as [|k l IH]; intros Hlen acc Hacc.
  { exists acc. split; [done|]. split; [lia|]. intros k d Hk.
    by apply elem_of_nil in Hk. }
  assert (∀ k', k' ∈ l → String.length k' = 3%nat) as Hlen'.
  { intros k' Hk'. apply Hlen. by apply list_elem_of_further. }
  assert (∃ c t d, k = String c (String t (String d ""))) as (c & t & d & ->).
  { pose proof (Hlen k (list_elem_of_here _ _)) as Hk.
    destruct k as [|c [|t [|d [|? ?]]]]; try done. by exists c, t, d. }
  cbn [para].
  destruct (startswith (String c (String t (String d ""))) prefijo) eqn:Epre.
  - cbn [str_indice]. res_simpl.
    destruct (decide (es_digito d)) as [Hdig|Hdig].
    + rewrite (int_de_caracter_Ok d Hdig). cbv beta iota. res_simpl.
      assert (0 ≤ valor_digito d ≤ 9) as Hv.
      { unfold es_digito, valor_digito in *. lia. }
      destruct (IH Hlen' (Z.max acc (valor_digito d))) as (n & -> & Hn & Hmax);
        [lia|].
      exists n. split; [done|]. split; [lia|].
      intros k' d' Hk' Hpre Hd' Hdig'.
      apply elem_of_cons in Hk' as [->|Hk']; [|by eapply Hmax].
      cbn [str_indice] in Hd'. injection Hd' as <-. lia.
    + apply int_de_caracter_falla in Hdig as Hfalla. destruct Hfalla as [e ->].
      cbv beta iota. res_simpl.
      destruct (IH Hlen' acc Hacc) as (n & -> & Hn & Hmax).
      exists n. split; [done|]. split; [done|].
      intros k' d' Hk' Hpre Hd' Hdig'.
      apply elem_of_cons in Hk' as [->|Hk']; [|by eapply Hmax].
      cbn [str_indice] in Hd'. injection Hd' as <-. done.
  - res_simpl. destruct (IH Hlen' acc Hacc) as (n & -> & Hn & Hmax).
    exists n. split; [done|]. split; [done|].
    intros k' d' Hk' Hpre Hd' Hdig'.
    apply elem_of_cons in Hk' as [->|Hk']; [congruence|by eapply Hmax].
Qed.

Lemma maximo_numero_spec (piezas : gmap string Pieza) (prefijo : string) :
  (∀ k, is_Some (piezas !! k) → String.length k = 3%nat) →
  ∃ n, GestorPiezas.maximo_numero piezas prefijo = Ok n ∧
       0 ≤ n ≤ 9 ∧
       ∀ k d, is_Some (piezas !! k) → startswith k prefijo = true →
              str_indice k 2 = Ok d → es_digito d → valor_digito d ≤ n.
Proof.
  intros Hlen. unfold GestorPiezas.maximo_numero.
  assert (∀ k, k ∈ (map_to_list piezas).*1 ↔ is_Some (piezas !! k)) as Hkeys.
  { intros k. rewrite list_elem_of_fmap. split.
    - intros ([k' p] & -> & Hin). apply elem_of_map_to_list in Hin.
      by exists p.
    - intros [p Hp]. exists (k, p). split; [done|].
      by apply elem_of_map_to_list. }
  destruct (maximo_numero_bucle prefijo (map_to_list piezas).*1) with (acc := 0)
    as (n & Hn & Hr & Hmax).
  { intros k Hk. by apply Hlen, Hkeys. }
  { lia. }
  exists n. split; [done|]. split; [done|]. intros k d Hk.
  apply Hmax. by apply Hkeys.
Qed.

(** The number that follows a digit has one character only up to 9, and
    that character is the next digit. *)
Lemma pretty_siguiente (n : Z) :
  0 ≤ n ≤ 9 →
  (∃ d, pretty (n + 1) = String d "" ∧ es_digito d ∧ valor_digito d = n + 1)
  ∨ String.length (pretty (n + 1)) = 2%nat.
Proof.
  intros Hn.
  assert (n = 0 ∨ n = 1 ∨ n = 2 ∨ n = 3 ∨ n = 4 ∨ n = 5 ∨ n = 6 ∨ n = 7
          ∨ n = 8 ∨ n = 9) as Hcases by lia.
  destruct Hcases as [->|[->|[->|[->|[->|[->|[->|[->|[->| ->]]]]]]]]];
    [left; eexists; (split; [reflexivity|]); split;
       [unfold es_digito; simpl; lia|reflexivity]..
    |right; reflexivity].
Qed.

(** X24: promotion does not reuse an id.  When every registered id has
    three characters, the id that a Promotion move puts on the destination
    square is not a key of the registry of before, unless it is the id that
    stood on the destination square and has just been captured. *)
Theorem X24_promocion_no_reutiliza_id (piezas piezas' : gmap string Pieza)
    (movimiento : MovimientoAjedrez) (tablero tablero' : Tablero) :
  tablero_8x8 tablero →
  tipo movimiento = PROMOCION →
  (∀ k, is_Some (piezas !! k) → String.length k = 3%nat) →
  GestorPiezas.ejecutar_movimiento piezas movimiento tablero
  = Ok (tablero', piezas') →
  ∃ nuevo_id,
    pieza_en tablero' (hasta movimiento) nuevo_id ∧
    is_Some (piezas' !! nuevo_id) ∧
    (piezas !! nuevo_id = None
     ∨ pieza_en tablero (hasta movimiento) nuevo_id).
Proof.
  intros H8 Htipo Hlen H.
  unfold GestorPiezas.ejecutar_movimiento in H.
  apply bind_Ok in H as ([fd cd] & Hd & H).
  apply bind_Ok in H as ([fh ch] & Hh & H).
  apply bind_Ok in H as (pid & Hpid & H).
  apply bind_Ok in H as (dest & Hdest & H).
  cbv zeta in H. rewrite Htipo in H.
  apply bind_Ok in H as ([t2 g2] & Hm & H).
  apply bind_Ok in H as (g & Hs & [= <- <-]).
  apply bind_Ok in Hm as (c0 & Hc0 & Hm).
  apply bind_Ok in Hm as (max_num & Hmax & Hm). cbv zeta in Hm.
  destruct (info_adicional movimiento ≫= GestorPiezas.PIEZAS_FACTORY)
    as [clase|] eqn:Eclase; [|discriminate].
  apply bind_Ok in Hm as (t1 & Ht1 & Hm).
  apply bind_Ok in Hm as (t2' & Ht2 & [= -> <-]).
  destruct (info_adicional movimiento) as [s|] eqn:Einfo; [|done].
  simpl in Eclase. cbn [GestorPiezas.formato] in *.
  destruct (PIEZAS_FACTORY_Some s clase Eclase) as [(letra & resto & Hs1 & Hl) _].
  assert (resto = "") as ->.
  { unfold GestorPiezas.PIEZAS_FACTORY in Eclase.
    repeat case_decide; try discriminate; subst s; by injection Hs1. }
  subst s.
  set (nuevo_id := String c0 "" +:+ String letra "" +:+ pretty (max_num + 1))
    in *.
  assert (nuevo_id ≠ "...") as Hnuevo.
  { unfold nuevo_id. simpl. intros [= _ E]. done. }
  apply (np_set_8x8 _ _ _ _ _ H8) in Ht1 as (i1 & j1 & Hi1 & Hj1 & H81 & Hc1).
  apply (np_set_8x8 _ _ _ _ _ H81) in Ht2 as (i2 & j2 & Hi2 & Hj2 & H82 & Hc2).
  assert (celda t2 i2 j2 = Some nuevo_id) as Hcel.
  { rewrite Hc2. by rewrite decide_True. }
  exists nuevo_id. split; [|split].
  - exists fh, ch. split; [done|]. apply np_get_8x8; [done|]. by exists i2, j2.
  - match type of Hs with
    | GestorPiezas.sincronizar_con_tablero ?g0 _ = _ =>
        destruct (sincronizar_spec g0 t2 H82) as (g' & Hs' & Hk)
    end.
    rewrite Hs in Hs'. injection Hs' as <-.
    rewrite (proj1 (Hk nuevo_id)).
    + rewrite lookup_insert_eq. by eexists.
    + split; [done|]. exists i2, j2.
      apply indice_normal_Ok in Hi2 as [? _], Hj2 as [? _]. done.
  - destruct (piezas !! nuevo_id) as [q|] eqn:Ereg; [|by left].
    destruct (decide (nuevo_id = dest)) as [->|Hne].
    { right. by exists fh, ch. }
    exfalso.
    set (piezas1 := if decide (dest ≠ "..." ∧ PROMOCION ≠ ENROQUE)
                    then delete dest piezas else piezas) in *.
    destruct (maximo_numero_spec piezas1 (String c0 "" +:+ String letra ""))
      as (n & Hn & Hrango & Hcota).
    { intros k. unfold piezas1. case_decide; [|apply Hlen].
      intros [p Hp]. apply lookup_delete_Some in Hp as [_ Hp].
      apply Hlen. by exists p. }
    rewrite Hmax in Hn. injection Hn as <-.
    assert (String.length nuevo_id = 3%nat) as Hl3
      by (apply Hlen; by exists q).
    destruct (pretty_siguiente max_num Hrango)
      as [(d & Hpd & Hdig & Hval)|Hdos].
    + assert (valor_digito d ≤ max_num); [|lia].
      apply (Hcota nuevo_id d).
      * unfold piezas1. case_decide.
        -- rewrite lookup_delete_ne by done. by exists q.
        -- by exists q.
      * exact (startswith_app (String c0 "" +:+ String letra "")
                              (pretty (max_num + 1))).
      * unfold nuevo_id. rewrite Hpd. reflexivity.
      * done.
    + unfold nuevo_id in Hl3. simpl in Hl3.
      destruct (pretty (max_num + 1)) as [|? [|? [|? ?]]]; done.
Qed.

Lemma X24_promocion_no_reutiliza_id_witness :
  tablero_8x8 tablero_promocion ∧
  tipo promocion_a7_a8 = PROMOCION ∧
  (∀ k, is_Some (gestor_inicial !! k) → String.length k = 3%nat) ∧
  GestorPiezas.ejecutar_movimiento gestor_inicial promocion_a7_a8
                                   tablero_promocion
  = Ok (tras_promocion.1, tras_promocion.2) ∧
  ∃ nuevo_id,
    pieza_en tras_promocion.1 (hasta promocion_a7_a8) nuevo_id ∧
    is_Some (tras_promocion.2 !! nuevo_id) ∧
    (gestor_inicial !! nuevo_id = None
     ∨ pieza_en tablero_promocion (hasta promocion_a7_a8) nuevo_id).
Proof.
  assert (∀ k, is_Some (gestor_inicial !! k) → String.length k = 3%nat)
    as Hlen.
  { assert (map_Forall (λ (k : string) (_ : Pieza), String.length k = 3%nat)
                       gestor_inicial) as Hall by compute_done.
    intros k [p Hp]. exact (Hall k p Hp). }
  split; [compute_done|]. split; [reflexivity|]. split; [exact Hlen|].
  split; [vm_compute; reflexivity|].
  apply (X24_promocion_no_reutiliza_id gestor_inicial tras_promocion.2
           promocion_a7_a8 tablero_promocion tras_promocion.1).
  - compute_done.
  - reflexivity.
  - exact Hlen.
  - vm_compute. reflexivity.
Defined.

(** The rook promoted on a8 next to the two rooks of the fresh registry is
    [BT3]. *)
Example promocion_a_BT3 :
  np_get tras_promocion.1 0 0 = Ok "BT3" ∧
  id <$> tras_promocion.2 !! "BT3" = Some "BT3".
Proof. split; vm_compute; reflexivity. Qed.

(** ** Listing and counting the pieces of a kind *)

(** The entry that the double loop of [obtener_piezas_por_tipo] adds for
    the square [(i, j)], if any. *)
Lemma piezas_por_tipo_fila (estado : Tablero) (prefijo : string) (i : Z) :
  tablero_8x8 estado → 0 ≤ i < 8 →
  ∀ (cols : list Z) (acc : list (string * (Z * Z))),
    (∀ j, j ∈ cols → 0 ≤ j < 8) →
    para (λ (piezas : list (string * (Z * Z))) (j : Z),
            id_pieza ← np_get estado i j;
            if bool_decide (id_pieza ≠ "...") && startswith id_pieza prefijo
            then Ok (piezas ++ [(id_pieza, (i, j))])
            else Ok piezas) acc cols
    = Ok (acc ++
          omap (λ j, x ← celda estado (Z.to_nat i) (Z.to_nat j);
                     if bool_decide (x ≠ "...") && startswith x prefijo
                     then Some (x, (i, j)) else None) cols).
Proof.
  intros H8 Hi cols. induction cols as [|j cols IH]; intros acc Hcols.
  { by rewrite app_nil_r. }
  cbn [para omap list_omap].
  destruct (np_get_dentro estado i j H8) as (p & Hp & Hcel).
  { apply dentro_tablero_true. split; [done|]. apply Hcols, list_elem_of_here. }
  rewrite Hp, Hcel. res_simpl. cbn [mbind option_bind].
  assert (∀ j', j' ∈ cols → 0 ≤ j' < 8) as Hcols'.
  { intros j' Hj'. apply Hcols. by apply list_elem_of_further. }
  destruct (bool_decide (p ≠ "...") && startswith p prefijo); res_simpl.
  - rewrite IH by done. by rewrite <- app_assoc.
  - by rewrite IH.
Qed.

Lemma piezas_por_tipo_filas (estado : Tablero) (prefijo : string) :
  tablero_8x8 estado →
  ∀ (filas : list Z) (acc : list (string * (Z * Z))),
    (∀ i, i ∈ filas → 0 ≤ i < 8) →
    para (λ (piezas : list (string * (Z * Z))) (i : Z),
      para (λ (piezas : list (string * (Z * Z))) (j : Z),
              id_pieza ← np_get estado i j;
              if bool_decide (id_pieza ≠ "...") && startswith id_pieza prefijo
              then Ok (piezas ++ [(id_pieza, (i, j))])
              else Ok piezas) piezas (rango 0 8)) acc filas
    = Ok (acc ++
          filas ≫= λ i,
            omap (λ j, x ← celda estado (Z.to_nat i) (Z.to_nat j);
                       if bool_decide (x ≠ "...") && startswith x prefijo
                       then Some (x, (i, j)) else None) (rango 0 8)).
Proof.
  intros H8 filas. induction filas as [|i filas IH]; intros acc Hfilas.
  { by rewrite app_nil_r. }
  cbn [para]. rewrite piezas_por_tipo_fila; [|done| |].
  - res_simpl. rewrite IH.
    + by rewrite <- app_assoc.
    + intros i' Hi'. apply Hfilas. by apply list_elem_of_further.
  - apply Hfilas, list_elem_of_here.
  - intros j. rewrite rango_0_8, !elem_of_cons, elem_of_nil. lia.
Qed.

Lemma length_omap_cons {A B} (f : A → option B) (x : A) (l : list A) :
  length (omap f (x :: l))
  = (match f x with Some _ => 1 | None => 0 end + length (omap f l))%nat.
Proof. cbn [omap list_omap]. by destruct (f x). Qed.

Lemma length_filter_cons {A} (P : A → Prop) `{!∀ x, Decision (P x)}
    (x : A) (l : list A) :
  length (filter P (x :: l))
  = ((if decide (P x) then 1 else 0) + length (filter P l))%nat.
Proof. rewrite filter_cons. by destruct (decide (P x)). Qed.

Lemma fila_cuenta (estado : Tablero) (prefijo : string) (i : Z)
    (fila : list string) :
  startswith "..." prefijo = false →
  estado !! Z.to_nat i = Some fila → length fila = 8%nat →
  length (omap (λ j, x ← celda estado (Z.to_nat i) (Z.to_nat j);
                     if bool_decide (x ≠ "...") && startswith x prefijo
                     then Some (x, (i, j)) else None) (rango 0 8))
  = length (filter (λ x, startswith x prefijo = true) fila).
Proof.
  intros Hvacio Hfila Hlen.
  assert (∀ (x : string) (j : Z),
            match (if bool_decide (x ≠ "...") && startswith x prefijo
                   then Some (x, (i, j)) else None) with
            | Some _ => 1%nat
            | None => 0%nat
            end
            = if decide (startswith x prefijo = true) then 1%nat else 0%nat)
    as Hcond.
  { intros x j. destruct (decide (x = "...")) as [->|Hx].
    - rewrite Hvacio, andb_false_r. by rewrite decide_False.
    - rewrite bool_decide_eq_true_2 by done. cbn [andb].
      by destruct (startswith x prefijo). }
  destruct fila as [|a0 [|a1 [|a2 [|a3 [|a4 [|a5 [|a6 [|a7 [|? ?]]]]]]]]];
    try done.
  rewrite rango_0_8. rewrite !length_omap_cons, !length_filter_cons.
  unfold celda. rewrite Hfila.
  repeat match goal with
         | |- context [Z.to_nat ?n] =>
             let r := eval cbv in (Z.to_nat n) in
             change (Z.to_nat n) with r
         end.
  cbn [lookup list_lookup mbind option_bind].
  rewrite !Hcond. reflexivity.
Qed.

(** X27: on an 8x8 state [obtener_piezas_por_tipo] returns, and lists
    exactly the squares that hold an id other than ['...'] with the prefix
    [color + tipo], each with its id.  When ['...'] does not have that
    prefix and the prefix does not end in a NUL, the length of the list is
    the number that [contar_piezas_por_tipo] returns.  (numpy drops the
    trailing NULs of the prefix before it counts, the listing does not.) *)
Theorem X27_obtener_y_contar_piezas_por_tipo (self : AgenteAjedrez.t)
    (color tipo : string) :
  tablero_8x8 (AgenteAjedrez.estado self) →
  ∃ piezas,
    AgenteAjedrez.obtener_piezas_por_tipo self color tipo = Ok piezas ∧
    (∀ x i j,
       (x, (i, j)) ∈ piezas ↔
       0 ≤ i < 8 ∧ 0 ≤ j < 8 ∧
       celda (AgenteAjedrez.estado self) (Z.to_nat i) (Z.to_nat j) = Some x ∧
       x ≠ "..." ∧ startswith x (color +:+ tipo) = true) ∧
    (startswith "..." (color +:+ tipo) = false →
     sin_nulos_finales (color +:+ tipo) = color +:+ tipo →
     Z.of_nat (length piezas)
     = AgenteAjedrez.contar_piezas_por_tipo self color tipo).
Proof.
  intros H8. unfold AgenteAjedrez.obtener_piezas_por_tipo.
  rewrite (piezas_por_tipo_filas _ (color +:+ tipo) H8 (rango 0 8) []).
  2:{ intros i. rewrite rango_0_8, !elem_of_cons, elem_of_nil. lia. }
  eexists. split; [reflexivity|]. split.
  - intros x i j. rewrite app_nil_l, list_elem_of_bind. split.
    + intros (i' & Hin & Hi').
      apply list_elem_of_omap in Hin as (j' & Hj' & Hg).
      destruct (celda (AgenteAjedrez.estado self) (Z.to_nat i') (Z.to_nat j'))
        as [y|] eqn:Hcel; [|done].
      cbn [mbind option_bind] in Hg.
      destruct (bool_decide (y ≠ "...") && startswith y (color +:+ tipo))
        eqn:Hcond; [|done].
      injection Hg as -> -> ->.
      apply andb_true_iff in Hcond as [Hne Hpre].
      apply bool_decide_eq_true in Hne.
      rewrite rango_0_8, !elem_of_cons, elem_of_nil in Hi', Hj'.
      split; [lia|]. split; [lia|]. done.
    + intros (Hi & Hj & Hcel & Hne & Hpre). exists i. split.
      * apply list_elem_of_omap. exists j. split.
        -- rewrite rango_0_8, !elem_of_cons, elem_of_nil. lia.
        -- rewrite Hcel. cbn [mbind option_bind].
           by rewrite bool_decide_eq_true_2, Hpre.
      * rewrite rango_0_8, !elem_of_cons, elem_of_nil. lia.
  - intros Hvacio Hnul. unfold AgenteAjedrez.contar_piezas_por_tipo,
      AgenteAjedrez.contar_prefijo. rewrite Hnul. f_equal.
    destruct H8 as [Hlen Hfilas].
    destruct (AgenteAjedrez.estado self)
      as [|r0 [|r1 [|r2 [|r3 [|r4 [|r5 [|r6 [|r7 [|? ?]]]]]]]]] eqn:Eest;
      try done.
    rewrite <- Eest. rewrite app_nil_l.
    assert (∀ (k : nat) (fila : list string),
              AgenteAjedrez.estado self !! Z.to_nat (Z.of_nat k) = Some fila →
              length fila = 8%nat) as Hfila.
    { intros k fila Hk. rewrite Eest in Hk.
      apply list_elem_of_lookup_2 in Hk.
      by apply (proj1 (Forall_forall _ _) Hfilas). }
    rewrite rango_0_8 at 1. cbn [mbind list_bind].
    rewrite !length_app.
    rewrite (fila_cuenta _ _ 0 r0 Hvacio), (fila_cuenta _ _ 1 r1 Hvacio),
      (fila_cuenta _ _ 2 r2 Hvacio), (fila_cuenta _ _ 3 r3 Hvacio),
      (fila_cuenta _ _ 4 r4 Hvacio), (fila_cuenta _ _ 5 r5 Hvacio),
      (fila_cuenta _ _ 6 r6 Hvacio), (fila_cuenta _ _ 7 r7 Hvacio);
      try (by rewrite Eest);
      try (by eapply (Hfila 0%nat); rewrite Eest);
      try (by eapply (Hfila 1%nat); rewrite Eest);
      try (by eapply (Hfila 2%nat); rewrite Eest);
      try (by eapply (Hfila 3%nat); rewrite Eest);
      try (by eapply (Hfila 4%nat); rewrite Eest);
      try (by eapply (Hfila 5%nat); rewrite Eest);
      try (by eapply (Hfila 6%nat); rewrite Eest);
      try (by eapply (Hfila 7%nat); rewrite Eest).
    rewrite Eest. cbn [mjoin list_join]. rewrite !filter_app, !length_app.
    simpl. lia.
Qed.

Lemma X27_obtener_y_contar_piezas_por_tipo_witness :
  tablero_8x8 (AgenteAjedrez.estado agente_blancas) ∧
  ∃ piezas,
    AgenteAjedrez.obtener_piezas_por_tipo agente_blancas "B" "T" = Ok piezas ∧
    (∀ x i j,
       (x, (i, j)) ∈ piezas ↔
       0 ≤ i < 8 ∧ 0 ≤ j < 8 ∧
       celda (AgenteAjedrez.estado agente_blancas) (Z.to_nat i) (Z.to_nat j)
       = Some x ∧
       x ≠ "..." ∧ startswith x ("B" +:+ "T") = true) ∧
    (startswith "..." ("B" +:+ "T") = false →
     sin_nulos_finales ("B" +:+ "T") = "B" +:+ "T" →
     Z.of_nat (length piezas)
     = AgenteAjedrez.contar_piezas_por_tipo agente_blancas "B" "T").
Proof.
  split; [compute_done|].
  apply (X27_obtener_y_contar_piezas_por_tipo agente_blancas "B" "T").
  compute_done.
Defined.

(** The two white rooks of the initial board; with a NUL after the kind
    the count is that of the pawns and the listing is empty. *)
Example torres_blancas :
  AgenteAjedrez.obtener_piezas_por_tipo agente_blancas "B" "T"
  = Ok [("BT1", (7, 0)); ("BT2", (7, 7))] ∧
  AgenteAjedrez.contar_piezas_por_tipo agente_blancas "B" "T" = 2 ∧
  AgenteAjedrez.obtener_piezas_por_tipo agente_blancas "B"
    ("P" +:+ String "000" "") = Ok [] ∧
  AgenteAjedrez.contar_piezas_por_tipo agente_blancas "B"
    ("P" +:+ String "000" "") = 8.
Proof. repeat split; vm_compute; reflexivity. Qed.

(** ** The path check *)

Lemma np_get_IndexError (tablero : Tablero) (f c : Z) (e : excepcion) :
  np_get tablero f c = Lanza e → e = IndexError.
Proof.
  unfold np_get, lista_indice, indice_normal.
  repeat (case_match; res_simpl; try done); by intros [= <-].
Qed.

(** The loop of the path check never ends with [True] when the destination
    is on none of the squares that it visits. *)
Lemma bucle_camino_fuera (tablero : Tablero) (df dc f_hasta c_hasta : Z)
    (n : nat) :
  ∀ f c,
    (∀ j, 0 ≤ j → (f + j * df, c + j * dc) ≠ (f_hasta, c_hasta)) →
    ∀ r, Pieza_.bucle_camino n tablero df dc f c f_hasta c_hasta = Some r →
         r = Ok false ∨ r = Lanza IndexError.
Proof.
  induction n as [|n IH]; intros f c Hfuera r; [discriminate|].
  cbn [Pieza_.bucle_camino].
  destruct ((f =? f_hasta) && (c =? c_hasta)) eqn:Efin.
  { apply andb_true_iff in Efin as [E1 E2]. apply Z.eqb_eq in E1, E2.
    destruct (Hfuera 0); [lia|]. f_equal; lia. }
  destruct (np_get tablero f c) as [p|e] eqn:Hp.
  2:{ intros [= <-]. right. f_equal. by eapply np_get_IndexError. }
  case_decide; [intros [= <-]; by left|].
  apply IH. intros j Hj. replace (f + df + j * df) with (f + (j + 1) * df)
    by ring. replace (c + dc + j * dc) with (c + (j + 1) * dc) by ring.
  apply Hfuera. lia.
Qed.

(** X28: the path check between two squares of a line.  On a valid board,
    for a destination [k] steps away from the origin along a row, a column
    or a diagonal, [_verificar_camino_libre] with the destination included
    returns, and returns [True] exactly when the squares strictly between
    the two are empty and the destination is empty or holds a piece of the
    other colour. *)
Theorem X28_verificar_camino_libre_en_linea (self : Pieza) (tablero : Tablero)
    (f c df dc k : Z) :
  tablero_valido tablero →
  dentro_tablero f c = true →
  dentro_tablero (f + k * df) (c + k * dc) = true →
  (df = -1 ∨ df = 0 ∨ df = 1) → (dc = -1 ∨ dc = 0 ∨ dc = 1) →
  (df ≠ 0 ∨ dc ≠ 0) → 1 ≤ k →
  ∃ b,
    Pieza_._verificar_camino_libre self (f, c) (f + k * df, c + k * dc)
                                   tablero true = Ok b ∧
    (b = true ↔ llega tablero (color self) f c df dc k).
Proof.
  intros Hval Hd Hn Hdf Hdc Hmueve Hk.
  exact (_verificar_camino_libre_spec self tablero f c df dc k Hval Hd Hn
           Hdf Hdc Hmueve Hk).
Qed.

Lemma X28_verificar_camino_libre_en_linea_witness :
  tablero_valido tablero_enroque ∧
  dentro_tablero 7 0 = true ∧ dentro_tablero (7 + 7 * -1) (0 + 7 * 0) = true ∧
  ∃ b,
    Pieza_._verificar_camino_libre (Torre.__init__ "B" 1) (7, 0)
      (7 + 7 * -1, 0 + 7 * 0) tablero_enroque true = Ok b ∧
    (b = true ↔
     llega tablero_enroque (color (Torre.__init__ "B" 1)) 7 0 (-1) 0 7).
Proof.
  split; [compute_done|]. split; [reflexivity|]. split; [reflexivity|].
  apply (X28_verificar_camino_libre_en_linea (Torre.__init__ "B" 1)
           tablero_enroque 7 0 (-1) 0 7).
  - compute_done.
  - reflexivity.
  - reflexivity.
  - by left.
  - by right; left.
  - by left.
  - lia.
Defined.

(** X29: off the lines, the path check never answers [True].  When the
    destination is neither on the row, nor on the column, nor on a diagonal
    of the origin, the walk misses it: [_verificar_camino_libre] returns
    [False] at the first occupied square, or runs off the board and raises
    [IndexError]. *)
Theorem X29_verificar_camino_libre_fuera_de_linea (self : Pieza)
    (tablero : Tablero) (f c f_hasta c_hasta : Z) (incluir_destino : bool) :
  f_hasta ≠ f → c_hasta ≠ c → Z.abs (f_hasta - f) ≠ Z.abs (c_hasta - c) →
  Pieza_._verificar_camino_libre self (f, c) (f_hasta, c_hasta) tablero
                                 incluir_destino = Ok false
  ∨ Pieza_._verificar_camino_libre self (f, c) (f_hasta, c_hasta) tablero
                                   incluir_destino = Lanza IndexError.
Proof.
  intros Hf Hc Hdiag. unfold Pieza_._verificar_camino_libre.
  pose proof (bucle_camino_termina tablero f c f_hasta c_hasta) as Hterm.
  cbv zeta in Hterm. destruct Hterm as [r Hr]. rewrite Hr.
  rewrite !direccion_hacia_sgn in Hr.
  apply bucle_camino_fuera in Hr as [-> | ->]; [by left|by right|].
  intros j Hj [= E1 E2].
  destruct (Z.sgn_spec (f_hasta - f)) as [[? Ef]|[[? Ef]|[? Ef]]];
    destruct (Z.sgn_spec (c_hasta - c)) as [[? Ec]|[[? Ec]|[? Ec]]];
    rewrite Ef in E1; rewrite Ec in E2; lia.
Qed.

Lemma X29_verificar_camino_libre_fuera_de_linea_witness :
  5 ≠ 7 ∧ 2 ≠ 1 ∧ Z.abs (5 - 7) ≠ Z.abs (2 - 1) ∧
  (Pieza_._verificar_camino_libre (Caballo.__init__ "B" 1) (7, 1) (5, 2)
     AgenteAjedrez.tablero_inicial true = Ok false
   ∨ Pieza_._verificar_camino_libre (Caballo.__init__ "B" 1) (7, 1) (5, 2)
       AgenteAjedrez.tablero_inicial true = Lanza IndexError).
Proof.
  split; [done|]. split; [done|]. split; [done|].
  apply (X29_verificar_camino_libre_fuera_de_linea (Caballo.__init__ "B" 1)
           AgenteAjedrez.tablero_inicial 7 1 5 2 true); done.
Defined.

(** From b1 towards c3 the walk finds the pawn of c2; on the empty board
    it runs off the board. *)
Example camino_de_caballo :
  Pieza_._verificar_camino_libre (Caballo.__init__ "B" 1) (7, 1) (5, 2)
    AgenteAjedrez.tablero_inicial true = Ok false ∧
  Pieza_._verificar_camino_libre (Caballo.__init__ "B" 1) (7, 1) (5, 2)
    AgenteAjedrez.tablero_vacio true = Lanza IndexError.
Proof. split; vm_compute; reflexivity. Qed.
